(** * Forex trading bot: level merging, timeframe aggregation, signal
    generation and risk management, embedded over exact rationals.

    Python floats are modelled as [Q]; strings as [String.string];
    dictionaries read through [.get(key, default)] as records whose fields
    hold the value the code reads (the default when the key is absent). *)

From Stdlib Require Import QArith Qabs Qminmax Qround List String Bool ZArith Lia Lqa
  Sorted Permutation.
Import ListNotations.
Open Scope Q_scope.

(** ** numpy float64 scalars. Prices, ranges and the ATR are read from
    pandas frames, so the quotients and sums the code forms from them are
    numpy floats: dividing by zero gives an infinity or NaN (with a
    warning) instead of raising, arithmetic propagates infinities and NaN,
    and every comparison with NaN is false. *)
Module NumPy.

Inductive npf := Fin (q : Q) | PInf | NInf | NaN.

(** [num / den] on finite values. *)
Definition np_div (num den : Q) : npf :=
  if Qeq_bool den 0 then
    (if negb (Qle_bool num 0) then PInf else if negb (Qle_bool 0 num) then NInf else NaN)
  else Fin (num / den).

(** [a < b] and [a <= b]. *)
Definition np_lt (a b : npf) : bool :=
  match a, b with
  | Fin x, Fin y => negb (Qle_bool y x)
  | NInf, Fin _ | Fin _, PInf | NInf, PInf => true
  | _, _ => false
  end.

Definition np_le (a b : npf) : bool :=
  match a, b with
  | Fin x, Fin y => Qle_bool x y
  | NInf, Fin _ | Fin _, PInf | NInf, PInf | NInf, NInf | PInf, PInf => true
  | _, _ => false
  end.

Definition np_neg (a : npf) : npf :=
  match a with Fin x => Fin (- x) | PInf => NInf | NInf => PInf | NaN => NaN end.

(** [a + b]; [inf + (-inf)] is NaN. *)
Definition np_add (a b : npf) : npf :=
  match a, b with
  | Fin x, Fin y => Fin (x + y)
  | NaN, _ | _, NaN => NaN
  | PInf, NInf | NInf, PInf => NaN
  | PInf, _ | _, PInf => PInf
  | NInf, _ | _, NInf => NInf
  end.

Definition np_sub (a b : npf) : npf :=
  match a, b with Fin x, Fin y => Fin (x - y) | _, _ => np_add a (np_neg b) end.

(** The sign of a non-zero finite factor applied to an infinity; [0 * inf]
    is NaN. *)
Definition scale_inf (x : Q) (i : npf) : npf :=
  if Qeq_bool x 0 then NaN else if Qle_bool 0 x then i else np_neg i.

(** [a * b]. *)
Definition np_mul (a b : npf) : npf :=
  match a, b with
  | Fin x, Fin y => Fin (x * y)
  | NaN, _ | _, NaN => NaN
  | Fin x, i | i, Fin x => scale_inf x i
  | PInf, PInf | NInf, NInf => PInf
  | _, _ => NInf
  end.

(** [a / b]; a finite value over an infinity is 0, [inf / inf] is NaN. *)
Definition np_fdiv (a b : npf) : npf :=
  match a, b with
  | Fin x, Fin y => np_div x y
  | NaN, _ | _, NaN => NaN
  | Fin _, _ => Fin 0
  | i, Fin y => scale_inf y i
  | _, _ => NaN
  end.

(** Python's [min(a, b)]: [b] if [b < a], else [a]. *)
Definition np_min (a b : npf) : npf := if np_lt b a then b else a.

(** [score = 0; for v in vs: score += v]. *)
Definition np_sum (vs : list npf) : npf := fold_left np_add vs (Fin 0).

End NumPy.

(** ** Level merging: [merge_close_levels] (core/utils.py) and the identical
    [_merge_levels] methods of the analysis engine and the three detectors. *)
Module Levels.
Import NumPy.

(** [sorted(levels)]: a stable insertion sort on [<=]. *)
Fixpoint insert_level (x : Q) (l : list Q) : list Q :=
  match l with
  | [] => [x]
  | y :: t => if Qle_bool x y then x :: l else y :: insert_level x t
  end.

Fixpoint sort_levels (l : list Q) : list Q :=
  match l with
  | [] => []
  | x :: t => insert_level x (sort_levels t)
  end.

(** The merge test of the loop body:
    [abs(level - merged[-1]) / merged[-1] <= threshold]; the levels are
    numpy floats, so a zero [merged[-1]] gives inf or NaN and no merge. *)
Definition close (threshold last level : Q) : bool :=
  np_le (np_div (Qabs (level - last)) last) (Fin threshold).

(** The loop [for level in sorted_levels[1:]], where [last] is
    [merged[-1]] and the already kept prefix is emitted in front. *)
Fixpoint merge_from (threshold last : Q) (rest : list Q) : list Q :=
  match rest with
  | [] => [last]
  | level :: rest' =>
      if close threshold last level
      then merge_from threshold ((last + level) / 2) rest'
      else last :: merge_from threshold level rest'
  end.

Definition merge_close_levels (levels : list Q) (threshold : Q) : list Q :=
  match sort_levels levels with
  | [] => []
  | first :: rest => merge_from threshold first rest
  end.

(** [_merge_levels(levels, threshold=0.0005)]. *)
Definition merge_levels (levels : list Q) : list Q :=
  merge_close_levels levels (5 # 10000).

(** Ascending order of a list. *)
Fixpoint ascending (l : list Q) : Prop :=
  match l with
  | x :: ((y :: _) as t) => x <= y /\ ascending t
  | _ => True
  end.

(** Two adjacent levels are not within tolerance: the relative distance
    to the lower level exceeds the tolerance. *)
Fixpoint separated (threshold : Q) (l : list Q) : Prop :=
  match l with
  | x :: ((y :: _) as t) => threshold < Qabs (y - x) / x /\ separated threshold t
  | _ => True
  end.

Definition head_at_least (x : Q) (l : list Q) : Prop :=
  match l with
  | [] => False
  | h :: _ => x <= h
  end.

End Levels.

(** ** Analysis engine: [_create_timeframe_summary] and [_create_summary]
    (analysis/analysis_engine.py). *)
Module Aggregator.
Import Levels.

(** What [_create_timeframe_summary] reads from one detector result through
    [.get(key, default)]. *)
Record DetectorResult := {
  signal : string;                 (* .get("signal", "neutral") *)
  strength : Q;                    (* .get("strength", 0) *)
  support_levels : list Q;         (* .get("support_levels", []) *)
  resistance_levels : list Q;      (* .get("resistance_levels", []) *)
  patterns : list string           (* ["patterns"] when present, else [] *)
}.

Record TimeframeSummary := {
  tf_signal : string;
  confidence : string;
  tf_strength : Q;
  buy_signals : nat;
  sell_signals : nat;
  tf_support_levels : list Q;
  tf_resistance_levels : list Q;
  key_patterns : list string
}.

(** [sum(1 for signal in signals if signal == s)]. *)
Definition count_signal (s : string) (signals : list string) : nat :=
  List.length (filter (String.eqb s) signals).

(** [_extract_key_patterns]. *)
Definition extract_key_patterns (ict smc pa : DetectorResult) : list string :=
  map (fun p => ("ICT: " ++ p)%string) (patterns ict)
  ++ map (fun p => ("SMC: " ++ p)%string) (patterns smc)
  ++ map (fun p => ("PA: " ++ p)%string) (patterns pa).

Definition merge_if_nonempty (l : list Q) : list Q :=
  match l with [] => [] | _ => merge_levels l end.

Definition create_timeframe_summary (ict smc pa : DetectorResult) : TimeframeSummary :=
  let sigs := [signal ict; signal smc; signal pa] in
  let buy_count := count_signal "buy"%string sigs in
  let sell_count := count_signal "sell"%string sigs in
  let final_signal :=
    if Nat.ltb sell_count buy_count then "buy"%string
    else if Nat.ltb buy_count sell_count then "sell"%string
    else "neutral"%string in
  let conf :=
    if Nat.eqb buy_count 3 || Nat.eqb sell_count 3 then "high"%string
    else if Nat.eqb buy_count 2 || Nat.eqb sell_count 2 then "medium"%string
    else "low"%string in
  let avg_strength := (strength ict + strength smc + strength pa) / 3 in
  let supports := support_levels ict ++ support_levels smc ++ support_levels pa in
  let resistances :=
    resistance_levels ict ++ resistance_levels smc ++ resistance_levels pa in
  {| tf_signal := final_signal;
     confidence := conf;
     tf_strength := avg_strength;
     buy_signals := buy_count;
     sell_signals := sell_count;
     tf_support_levels := merge_if_nonempty supports;
     tf_resistance_levels := merge_if_nonempty resistances;
     key_patterns := extract_key_patterns ict smc pa |}.

(** The prior weights [timeframe_weights] of [_create_summary]. *)
Definition timeframe_weights : list (string * Q) :=
  [("M5", 5 # 100); ("M15", 10 # 100); ("H1", 20 # 100);
   ("H4", 30 # 100); ("D1", 35 # 100)]%string.

Fixpoint lookup (k : string) (m : list (string * Q)) : option Q :=
  match m with
  | [] => None
  | (k', v) :: m' => if String.eqb k k' then Some v else lookup k m'
  end.

(** [timeframe_weights.get(tf, 0.0)]. *)
Definition get_weight (m : list (string * Q)) (tf : string) : Q :=
  match lookup tf m with Some w => w | None => 0 end.

Fixpoint sumQ (l : list Q) : Q :=
  match l with [] => 0 | x :: t => x + sumQ t end.

(** [total_weight = sum(timeframe_weights.get(tf, 0.0) for tf in keys)]. *)
Definition total_weight (keys : list string) : Q :=
  sumQ (map (get_weight timeframe_weights) keys).

(** The renormalisation loop: [timeframe_weights[tf] /= total_weight] for
    every known timeframe present in [results["timeframes"]]. *)
Definition normalized_weights (keys : list string) : list (string * Q) :=
  let total := total_weight keys in
  if Qlt_le_dec 0 total then
    map (fun '(tf, w) =>
           (tf, if existsb (String.eqb tf) keys then w / total else w))
        timeframe_weights
  else timeframe_weights.

(** Python's [min(a, b)]: [b] when [b < a], otherwise [a]. *)
Definition py_min (a b : Q) : Q := if Qle_bool a b then a else b.
Definition py_max (a b : Q) : Q := if Qle_bool b a then a else b.

(** [a < b] on floats as a boolean. *)
Definition qlt (a b : Q) : bool := negb (Qle_bool b a).

(** The news block of [_create_summary]: [news] is [results["news"]["impact"]]
    when both keys are present. Returns the updated buy and sell weights. *)
Definition add_news_impact (news : option Q) (buy_weight sell_weight : Q) : Q * Q :=
  match news with
  | None => (buy_weight, sell_weight)
  | Some news_impact =>
      if Qlt_le_dec 0 news_impact then
        (buy_weight + (1 # 10) * py_min news_impact 1, sell_weight)
      else if Qlt_le_dec news_impact 0 then
        (buy_weight, sell_weight + (1 # 10) * py_min (Qabs news_impact) 1)
      else (buy_weight, sell_weight)
  end.

End Aggregator.

(** ** Calendar arithmetic of Python's [datetime.date]: [toordinal] and
    [isocalendar], as in CPython's [datetime] module. *)
Module Calendar.
Local Open Scope Z_scope.

Record date := { year : Z; month : Z; day : Z }.

Definition date_eqb (a b : date) : bool :=
  (year a =? year b) && (month a =? month b) && (day a =? day b).

Definition is_leap (y : Z) : bool :=
  (y mod 4 =? 0) && (negb (y mod 100 =? 0) || (y mod 400 =? 0)).

(** [_DAYS_BEFORE_MONTH] plus the leap day. *)
Definition days_before_month (y m : Z) : Z :=
  let base := nth (Z.to_nat m)
    [-1; 0; 31; 59; 90; 120; 151; 181; 212; 243; 273; 304; 334] 0 in
  if (m >? 2) && is_leap y then base + 1 else base.

Definition days_before_year (year : Z) : Z :=
  let y := year - 1 in y * 365 + y / 4 - y / 100 + y / 400.

(** [_ymd2ord]. *)
Definition ymd2ord (y m d : Z) : Z := days_before_year y + days_before_month y m + d.

Definition toordinal (d : date) : Z := ymd2ord (year d) (month d) (day d).

(** [_isoweek1monday]. *)
Definition isoweek1monday (y : Z) : Z :=
  let firstday := ymd2ord y 1 1 in
  let firstweekday := (firstday + 6) mod 7 in
  let week1monday := firstday - firstweekday in
  if firstweekday >? 3 then week1monday + 7 else week1monday.

(** [date.isocalendar()]: (ISO year, ISO week, ISO weekday). *)
Definition isocalendar (d : date) : Z * Z * Z :=
  let today := toordinal d in
  let y := year d in
  let w1 := isoweek1monday y in
  let week := (today - w1) / 7 in
  let wd := (today - w1) mod 7 in
  if week <? 0 then
    let w1' := isoweek1monday (y - 1) in
    (y - 1, (today - w1') / 7 + 1, (today - w1') mod 7 + 1)
  else if (week >=? 52) && (today >=? isoweek1monday (y + 1)) then
    (y + 1, 1, wd + 1)
  else (y, week + 1, wd + 1).

End Calendar.

(** ** Risk manager (trading/risk_manager.py). *)
Module Risk.
Import Calendar Aggregator.

Record Account := { balance : Q; free_margin : Q }.

Record SymbolInfo := {
  contract_size : Q;   (* .get("contract_size", 100000) *)
  digits : Z;          (* .get("digits", 5) *)
  volume_min : Q;      (* .get("volume_min", 0.01) *)
  volume_max : Q       (* .get("volume_max", 100.0) *)
}.

(** The broker connector as seen by the risk manager at one moment. *)
Record Broker := {
  get_account_info : option Account;
  get_symbol_info : string -> option SymbolInfo;
  (** [calculate_margin(symbol, order_type, lot)]: [.get("margin", 0.0)]
      of the returned dict, or [None] when the call returns nothing. *)
  calculate_margin : string -> string -> Q -> option Q;
  (** [get_positions()['symbol']]: one entry per open position. *)
  get_positions : list string
}.

(** [settings["risk_management"]] and [settings["signal"]] with their defaults. *)
Record Settings := {
  max_risk_percent : Q;          (* 2.0 *)
  max_daily_risk_percent : Q;    (* 5.0 *)
  max_weekly_risk_percent : Q;   (* 10.0 *)
  max_lot_size : Q;              (* 1.0 *)
  max_open_positions : nat;      (* 5 *)
  max_positions_per_symbol : nat;(* 2 *)
  min_risk_reward : Q            (* 1.5 *)
}.

(** The fields of a signal dict read by the risk manager. *)
Record Signal := {
  sig_symbol : string;
  sig_direction : string;        (* signal["signal"] *)
  entry_price : Q;
  stop_loss : Q;
  take_profit : Q;
  success_probability : Q
}.

Record RiskEntry := {
  entry_date : date;
  entry_symbol : string;
  entry_direction : string;
  entry_risk_amount : Q;
  entry_risk_percent : Q;
  entry_balance : Q
}.

Record RiskState := {
  risk_history : list RiskEntry;
  daily_risk : Q;
  weekly_risk : Q;
  last_reset_day : date;
  last_reset_week : Z
}.

Record RiskParams := {
  lot_size : Q;
  risk_amount : Q;
  risk_percent : Q;
  max_allowed : bool;
  sl_pips : Z;
  tp_pips : Z;
  pip_value : Q;
  risk_reward_ratio : Q;
  margin_required : Q;
  max_lot_allowed : Q
}.

Definition default_params : RiskParams :=
  {| lot_size := 1 # 100; risk_amount := 0; risk_percent := 0; max_allowed := true;
     sl_pips := 0; tp_pips := 0; pip_value := 0; risk_reward_ratio := 0;
     margin_required := 0; max_lot_allowed := 0 |}.

(** [_get_week_number]: [date.isocalendar()[1]]. *)
Definition get_week_number (d : date) : Z :=
  let '(_, w, _) := isocalendar d in w.

(** [_update_risk_tracking], with [now] the date of [datetime.now()]. *)
Definition update_risk_tracking (now : date) (st : RiskState) : RiskState :=
  let current_week := get_week_number now in
  let st1 :=
    if negb (date_eqb now (last_reset_day st)) then
      {| risk_history := risk_history st; daily_risk := 0; weekly_risk := weekly_risk st;
         last_reset_day := now; last_reset_week := last_reset_week st |}
    else st in
  if negb (current_week =? last_reset_week st1)%Z then
    {| risk_history := risk_history st1; daily_risk := daily_risk st1; weekly_risk := 0;
       last_reset_day := last_reset_day st1; last_reset_week := current_week |}
  else st1.

Definition set_daily_weekly (st : RiskState) (hist : list RiskEntry) (d w : Q) : RiskState :=
  {| risk_history := hist; daily_risk := d; weekly_risk := w;
     last_reset_day := last_reset_day st; last_reset_week := last_reset_week st |}.

(** [str.endswith]. *)
Definition ends_with (suffix s : string) : bool :=
  let n := String.length s in
  let k := String.length suffix in
  Nat.leb k n && String.eqb (String.substring (n - k) k s) suffix.

(** Python's [int(x)] on a float: truncation toward zero. *)
Definition py_int (q : Q) : Z := Z.quot (Qnum q) (Zpos (Qden q)).

(** Python's [round(x)]: to the nearest integer, ties to even. *)
Definition py_round (q : Q) : Z :=
  let fl := Qfloor q in
  let frac := q - inject_Z fl in
  if Qle_bool (1 # 2) frac then
    if Qle_bool frac (1 # 2) then (if Z.even fl then fl else fl + 1)%Z else (fl + 1)%Z
  else fl.

(** The tiers on the success probability. *)
Definition tier_risk_percent (mrp sp : Q) : Q :=
  if Qle_bool 80 sp then mrp
  else if Qle_bool 70 sp then mrp * (8 # 10)
  else if Qle_bool 60 sp then mrp * (6 # 10)
  else mrp * (5 # 10).

(** SL/TP distances: [entry - stop, target - entry] for a buy, mirrored
    otherwise. *)
Definition sl_tp_distances (sg : Signal) : Q * Q :=
  if String.eqb (sig_direction sg) "buy"
  then (entry_price sg - stop_loss sg, take_profit sg - entry_price sg)
  else (stop_loss sg - entry_price sg, entry_price sg - take_profit sg).

(** [if risk_amount > available_risk: risk_amount = available_risk;
    risk_percent = risk_amount / balance * 100]. *)
Definition cap_risk (available ra0 rp bal : Q) : Q * Q :=
  if Qlt_le_dec available ra0 then (available, available / bal * 100) else (ra0, rp).

(** [calculate_risk_params]: the parameters and the tracker state after the
    call ([_update_risk_tracking] runs once account and symbol are known). *)
Definition calculate_risk_params (cfg : Settings) (br : Broker) (now : date)
    (sg : Signal) (st : RiskState) : RiskParams * RiskState :=
  match get_account_info br with
  | None => (default_params, st)
  | Some acc =>
  let bal := balance acc in
  let symbol := sig_symbol sg in
  match get_symbol_info br symbol with
  | None => (default_params, st)
  | Some si =>
  let pip_factor := if ends_with "JPY" symbol then 1 # 100 else 1 # 10000 in
  let pv := pip_factor * contract_size si / Qpower 10 (digits si) in
  let sl_distance := fst (sl_tp_distances sg) in
  let tp_distance := snd (sl_tp_distances sg) in
  let slp := py_int (sl_distance / pip_factor) in
  let tpp := py_int (tp_distance / pip_factor) in
  let rr := if Qlt_le_dec 0 sl_distance then tp_distance / sl_distance else 0 in
  let st1 := update_risk_tracking now st in
  let rp := tier_risk_percent (max_risk_percent cfg) (success_probability sg) in
  let remaining_daily := (max_daily_risk_percent cfg - daily_risk st1) / 100 * bal in
  let remaining_weekly := (max_weekly_risk_percent cfg - weekly_risk st1) / 100 * bal in
  let available := py_min remaining_daily remaining_weekly in
  let ra0 := bal * rp / 100 in
  if qlt available ra0 && Qeq_bool bal 0 then
    (* ZeroDivisionError in [risk_amount / balance], caught by the handler *)
    (default_params, st1)
  else
  let ra := fst (cap_risk available ra0 rp bal) in
  let rp' := snd (cap_risk available ra0 rp bal) in
  let lot0 :=
    if (0 <? slp)%Z && qlt 0 pv then ra / (inject_Z slp * pv) else 1 # 100 in
  let lot1 := inject_Z (py_round (lot0 / (1 # 100))) * (1 # 100) in
  let lot := py_max (volume_min si)
                    (py_min (py_min lot1 (volume_max si)) (max_lot_size cfg)) in
  let margin :=
    match calculate_margin br symbol (sig_direction sg) lot with
    | Some m => m | None => 0 end in
  ({| lot_size := lot; risk_amount := ra; risk_percent := rp';
      max_allowed := Qle_bool ra available; sl_pips := slp; tp_pips := tpp;
      pip_value := pv; risk_reward_ratio := rr; margin_required := margin;
      max_lot_allowed := max_lot_size cfg |}, st1)
  end
  end.

(** [check_position_limits]: whether the total ceiling is reached, and
    whether the ceiling of a given symbol is reached. *)
Definition max_positions_reached (cfg : Settings) (br : Broker) : bool :=
  match get_positions br with
  | [] => false
  | ps => Nat.leb (max_open_positions cfg) (List.length ps)
  end.

Definition symbol_limit_reached (cfg : Settings) (br : Broker) (symbol : string) : bool :=
  let n := List.length (filter (String.eqb symbol) (get_positions br)) in
  Nat.ltb 0 n && Nat.leb (max_positions_per_symbol cfg) n.

(** [can_open_position]: the verdict and the tracker state after the call. *)
Definition can_open_position (cfg : Settings) (br : Broker) (now : date)
    (sg : Signal) (st : RiskState) : bool * RiskState :=
  match get_account_info br with
  | None => (false, st)
  | Some acc =>
    if max_positions_reached cfg br then (false, st)
    else if symbol_limit_reached cfg br (sig_symbol sg) then (false, st)
    else
      let '(rpar, st1) := calculate_risk_params cfg br now sg st in
      if Qlt_le_dec (free_margin acc) (margin_required rpar) then (false, st1)
      else if negb (max_allowed rpar) then (false, st1)
      else if Qlt_le_dec (lot_size rpar) (1 # 100) then (false, st1)
      else if Qlt_le_dec (risk_reward_ratio rpar) (min_risk_reward cfg) then (false, st1)
      else (true, st1)
  end.

(** [update_risk_history]: the single commit point of the counters. *)
Definition update_risk_history (br : Broker) (now : date) (symbol direction : string)
    (ra : Q) (st : RiskState) : RiskState :=
  match get_account_info br with
  | None => st
  | Some acc =>
    let bal := balance acc in
    let rp := if Qlt_le_dec 0 bal then ra / bal * 100 else 0 in
    let e := {| entry_date := now; entry_symbol := symbol; entry_direction := direction;
                entry_risk_amount := ra; entry_risk_percent := rp; entry_balance := bal |} in
    let hist := risk_history st ++ [e] in
    let hist' := if Nat.ltb 100 (List.length hist)
                 then skipn (List.length hist - 100) hist else hist in
    set_daily_weekly st hist' (daily_risk st + rp) (weekly_risk st + rp)
  end.



End Risk.

(** ** SignalGenerator (src/trading/signal_generator.py) *)
Module Signals.
Import NumPy Aggregator.

(** Python's [sub in s] on strings. *)
Definition contains (sub s : string) : bool :=
  match String.index 0 sub s with Some _ => true | None => false end.

(** [analysis_results["summary"]] fields read by [_combine_signals]. *)
Record AnalysisSummary := {
  a_signal : string;                 (* .get("signal", "neutral") *)
  a_strength : Q;                    (* .get("strength", 0) *)
  a_success_probability : Q;         (* .get("success_probability", 0) *)
  a_key_timeframes : list string     (* .get("key_timeframes", []) *)
}.

Record AnalysisResults := {
  analysis_error : bool;             (* "error" in analysis_results *)
  summary : AnalysisSummary;
  (** per timeframe: summary support_levels and resistance_levels *)
  tf_levels : list (list Q * list Q)
}.

Record PredictionResults := {
  prediction_error : bool;           (* "error" in prediction_results *)
  direction : string;                (* .get("direction", "neutral") *)
  confidence : Q                     (* .get("confidence", 0) *)
}.

Record Combined := {
  c_signal : string;
  c_strength : Q;
  c_success_probability : Q;
  c_key_timeframes : list string
}.

(** The signal dict stored in [signal_history]. *)
Record CandidateSignal := {
  signal_id : string;
  symbol : string;
  signal : string;
  entry_price : Q;
  stop_loss : npf;
  take_profit : npf;
  risk_reward : npf;
  strength : Q;
  success_probability : Q;
  timeframes : list string;
  executed : bool;
  status : string;
  execution_details : option (list (string * string));
  execution_time : option Z
}.

Definition combine_signals (an : AnalysisSummary) (pr : PredictionResults) : Combined :=
  let analysis_weight := 7 # 10 in
  let prediction_weight := 3 # 10 in
  let '(buy0, sell0) :=
    if String.eqb (a_signal an) "buy" then (a_strength an * analysis_weight, 0)
    else if String.eqb (a_signal an) "sell" then (0, a_strength an * analysis_weight)
    else (0, 0) in
  let '(buy_score, sell_score) :=
    if String.eqb (direction pr) "buy" then (buy0 + confidence pr * prediction_weight, sell0)
    else if String.eqb (direction pr) "sell" then (buy0, sell0 + confidence pr * prediction_weight)
    else (buy0, sell0) in
  let '(sig, str) :=
    if qlt (sell_score + 10) buy_score then ("buy"%string, buy_score)
    else if qlt (buy_score + 10) sell_score then ("sell"%string, sell_score)
    else ("neutral"%string, py_max buy_score sell_score / 2) in
  let prob :=
    if String.eqb sig "buy" then
      a_success_probability an * analysis_weight + confidence pr * prediction_weight
    else if String.eqb sig "sell" then
      a_success_probability an * analysis_weight + confidence pr * prediction_weight
    else 0 in
  {| c_signal := sig; c_strength := str; c_success_probability := prob;
     c_key_timeframes := a_key_timeframes an |}.

Definition pips_to_price (sym : string) (pips : Q) : Q :=
  let pip_value := if contains "JPY" sym then 1 # 100 else 1 # 10000 in
  let pip_value := if contains "XAU" sym then 1 # 10 else pip_value in
  pips * pip_value.

(** Python's [max(xs)] and [min(xs)] on a non-empty list. *)
Definition list_max (x : Q) (xs : list Q) : Q := fold_left py_max xs x.
Definition list_min (x : Q) (xs : list Q) : Q := fold_left py_min xs x.

(** Python truthiness of an optional float: [None] and [0.0] are false. *)
Definition truthy (v : option Q) : bool :=
  match v with Some x => negb (Qeq_bool x 0) | None => false end.

Definition optQ (v : option Q) : Q := match v with Some x => x | None => 0 end.

Record SignalSettings := {
  default_stop_loss_pips : Q;   (* 50 *)
  default_take_profit_pips : Q; (* 100 *)
  min_rr : Q                    (* settings["signal"].get("min_risk_reward", 1.5) *)
}.

(** [_calculate_sl_tp]; [atr] is the value of [_get_atr_value]. *)
Definition calculate_sl_tp (cfg : SignalSettings) (sym sig : string) (entry : Q)
    (an : AnalysisResults) (atr : option Q) : Q * Q :=
  match atr with
  | None =>
      let pv := pips_to_price sym 1 in
      if String.eqb sig "buy" then
        (entry - default_stop_loss_pips cfg * pv, entry + default_take_profit_pips cfg * pv)
      else
        (entry + default_stop_loss_pips cfg * pv, entry - default_take_profit_pips cfg * pv)
  | Some a =>
      let support_levels := flat_map fst (tf_levels an) in
      let resistance_levels := flat_map snd (tf_levels an) in
      let nearest_support :=
        match filter (fun s => qlt s entry) support_levels with
        | [] => None | s :: ss => Some (list_max s ss) end in
      let nearest_resistance :=
        match filter (fun r => qlt entry r) resistance_levels with
        | [] => None | r :: rs => Some (list_min r rs) end in
      let ns := optQ nearest_support in
      let nr := optQ nearest_resistance in
      let '(sl0, tp0) :=
        if String.eqb sig "buy" then
          (if truthy nearest_support && qlt (entry - ns) (a * 2)
           then ns - (1 # 10) * a else entry - a * (3 # 2),
           if truthy nearest_resistance && qlt (nr - entry) (a * 4)
           then nr else entry + a * 3)
        else
          (if truthy nearest_resistance && qlt (nr - entry) (a * 2)
           then nr + (1 # 10) * a else entry + a * (3 # 2),
           if truthy nearest_support && qlt (entry - ns) (a * 4)
           then ns else entry - a * 3) in
      let min_sl_distance := a * (1 # 2) in
      let sl :=
        if String.eqb sig "buy" && qlt (entry - sl0) min_sl_distance then entry - min_sl_distance
        else if String.eqb sig "sell" && qlt (sl0 - entry) min_sl_distance
        then entry + min_sl_distance
        else sl0 in
      let min_tp_distance := a * 1 in
      let tp :=
        if String.eqb sig "buy" && qlt (tp0 - entry) min_tp_distance then entry + min_tp_distance
        else if String.eqb sig "sell" && qlt (entry - tp0) min_tp_distance
        then entry - min_tp_distance
        else tp0 in
      (sl, tp)
  end.

Definition calculate_risk_reward (sig : string) (entry sl tp : Q) : Q :=
  let '(risk, reward) :=
    if String.eqb sig "buy" then (entry - sl, tp - entry) else (sl - entry, entry - tp) in
  if Qle_bool risk 0 then 0 else reward / risk.

(** [_calculate_sl_tp] on the value of [_get_atr_value], a numpy float
    read from a pandas frame: the products, sums and comparisons with the
    ATR follow numpy, so a NaN ATR makes every comparison false. On [None]
    or a finite ATR it agrees with [calculate_sl_tp]. *)
Definition calculate_sl_tp_np (cfg : SignalSettings) (sym sig : string) (entry : Q)
    (an : AnalysisResults) (atr : option npf) : npf * npf :=
  match atr with
  | None =>
      let pv := pips_to_price sym 1 in
      if String.eqb sig "buy" then
        (Fin (entry - default_stop_loss_pips cfg * pv),
         Fin (entry + default_take_profit_pips cfg * pv))
      else
        (Fin (entry + default_stop_loss_pips cfg * pv),
         Fin (entry - default_take_profit_pips cfg * pv))
  | Some a =>
      let support_levels := flat_map fst (tf_levels an) in
      let resistance_levels := flat_map snd (tf_levels an) in
      let nearest_support :=
        match filter (fun s => qlt s entry) support_levels with
        | [] => None | s :: ss => Some (list_max s ss) end in
      let nearest_resistance :=
        match filter (fun r => qlt entry r) resistance_levels with
        | [] => None | r :: rs => Some (list_min r rs) end in
      let ns := optQ nearest_support in
      let nr := optQ nearest_resistance in
      let e := Fin entry in
      let '(sl0, tp0) :=
        if String.eqb sig "buy" then
          (if truthy nearest_support && np_lt (Fin (entry - ns)) (np_mul a (Fin 2))
           then np_sub (Fin ns) (np_mul (Fin (1 # 10)) a)
           else np_sub e (np_mul a (Fin (3 # 2))),
           if truthy nearest_resistance && np_lt (Fin (nr - entry)) (np_mul a (Fin 4))
           then Fin nr else np_add e (np_mul a (Fin 3)))
        else
          (if truthy nearest_resistance && np_lt (Fin (nr - entry)) (np_mul a (Fin 2))
           then np_add (Fin nr) (np_mul (Fin (1 # 10)) a)
           else np_add e (np_mul a (Fin (3 # 2))),
           if truthy nearest_support && np_lt (Fin (entry - ns)) (np_mul a (Fin 4))
           then Fin ns else np_sub e (np_mul a (Fin 3))) in
      let min_sl_distance := np_mul a (Fin (1 # 2)) in
      let sl :=
        if String.eqb sig "buy" && np_lt (np_sub e sl0) min_sl_distance
        then np_sub e min_sl_distance
        else if String.eqb sig "sell" && np_lt (np_sub sl0 e) min_sl_distance
        then np_add e min_sl_distance
        else sl0 in
      let min_tp_distance := np_mul a (Fin 1) in
      let tp :=
        if String.eqb sig "buy" && np_lt (np_sub tp0 e) min_tp_distance
        then np_add e min_tp_distance
        else if String.eqb sig "sell" && np_lt (np_sub e tp0) min_tp_distance
        then np_sub e min_tp_distance
        else tp0 in
      (sl, tp)
  end.

(** [_calculate_risk_reward] on the numpy stop and target. *)
Definition calculate_risk_reward_np (sig : string) (entry : Q) (sl tp : npf) : npf :=
  let '(risk, reward) :=
    if String.eqb sig "buy" then (np_sub (Fin entry) sl, np_sub tp (Fin entry))
    else (np_sub sl (Fin entry), np_sub (Fin entry) tp) in
  if np_le risk (Fin 0) then Fin 0 else np_fdiv reward risk.

(** Append and keep the last 100 entries. *)
Definition push_history (s : CandidateSignal) (hist : list CandidateSignal) :=
  let h := hist ++ [s] in
  if Nat.ltb 100 (List.length h) then skipn (List.length h - 100) h else h.

(** [generate_signal] with the analysis and prediction results given;
    [last_price] and [atr] are the values of [_get_last_price] and
    [_get_atr_value], [fresh_id] the [uuid4] and [now] the timestamp. *)
Definition generate_signal (cfg : SignalSettings) (fresh_id sym : string)
    (an : AnalysisResults) (pr : PredictionResults)
    (last_price : option Q) (atr : option npf) (hist : list CandidateSignal)
    : option CandidateSignal * list CandidateSignal :=
  if analysis_error an || prediction_error pr then (None, hist) else
  match last_price with
  | None => (None, hist)
  | Some lp =>
      let sd := combine_signals (summary an) pr in
      if String.eqb (c_signal sd) "neutral" || qlt (c_strength sd) 40 then (None, hist) else
      let sltp := calculate_sl_tp_np cfg sym (c_signal sd) lp an atr in
      let rr := calculate_risk_reward_np (c_signal sd) lp (fst sltp) (snd sltp) in
      if np_lt rr (Fin (min_rr cfg)) then (None, hist) else
      let s := {| signal_id := fresh_id; symbol := sym; signal := c_signal sd;
                  entry_price := lp; stop_loss := fst sltp; take_profit := snd sltp;
                  risk_reward := rr; strength := c_strength sd;
                  success_probability := c_success_probability sd;
                  timeframes := c_key_timeframes sd; executed := false;
                  status := "pending"; execution_details := None;
                  execution_time := None |} in
      (Some s, push_history s hist)
  end.

Fixpoint get_signal_by_id (sid : string) (hist : list CandidateSignal) : option CandidateSignal :=
  match hist with
  | [] => None
  | s :: rest => if String.eqb (signal_id s) sid then Some s else get_signal_by_id sid rest
  end.

(** In-place update of the dict returned by [get_signal_by_id]: the first
    entry with that id. *)
Fixpoint set_first (sid : string) (f : CandidateSignal -> CandidateSignal)
    (hist : list CandidateSignal) : list CandidateSignal :=
  match hist with
  | [] => []
  | s :: rest => if String.eqb (signal_id s) sid then f s :: rest else s :: set_first sid f rest
  end.

Definition truthy_details (d : option (list (string * string))) : bool :=
  match d with Some (_ :: _) => true | _ => false end.

Definition apply_status (st : string) (details : option (list (string * string))) (now : Z)
    (s : CandidateSignal) : CandidateSignal :=
  let exec := String.eqb st "executed" && truthy_details details in
  {| signal_id := signal_id s; symbol := symbol s; signal := signal s;
     entry_price := entry_price s; stop_loss := stop_loss s; take_profit := take_profit s;
     risk_reward := risk_reward s; strength := strength s;
     success_probability := success_probability s; timeframes := timeframes s;
     executed := if exec then true else executed s;
     status := st;
     execution_details := if exec then details else execution_details s;
     execution_time := if exec then Some now else execution_time s |}.

Definition update_signal_status (sid st : string) (details : option (list (string * string)))
    (now : Z) (hist : list CandidateSignal) : bool * list CandidateSignal :=
  match get_signal_by_id sid hist with
  | None => (false, hist)
  | Some _ => (true, set_first sid (apply_status st details now) hist)
  end.

End Signals.

(** ** The Telegram confirmation handlers (communication/telegram_bot.py).
    [_confirm_signal] runs on the bot's asyncio loop; the
    [_handle_confirmation_timeout] started by [send_signal_confirmation]
    runs on a daemon [threading.Thread] of its own. Both read and write the
    generator's [signal_history] and the bot's [pending_signals] dict with
    no lock, so the runtime may switch threads between any two of their
    steps. Each handler is cut at the point where the other thread can run
    in between: [_confirm_signal] at its blocking [broker.open_position]
    call, the timeout handler at its wait loop. *)
Module Telegram.
Import Signals.

Definition Details := list (string * string).

(** The shared state: [signal_generator.signal_history] and the keys of
    [pending_signals]. *)
Record World := { store : list CandidateSignal; pending_signals : list string }.

(** [signal_id in self.pending_signals] and [del self.pending_signals[signal_id]]. *)
Definition mem_key (k : string) (ks : list string) : bool := existsb (String.eqb k) ks.
Definition remove_key (k : string) (ks : list string) : list string :=
  filter (fun x => negb (String.eqb x k)) ks.

(** [_confirm_signal]: [CStart] before [get_signal_by_id], [CBroker] once
    the status check and [can_open_position] have passed and the broker
    call is in flight, [CDone] after a return. *)
Inductive ConfirmPc := CStart | CBroker | CDone.

(** [can_open] is the answer of [can_open_position]; [result] the broker's
    reply, [None] for a dict with an "error" key. The update uses
    [signal.get("id")], the id just looked up. *)
Definition confirm_step (sid : string) (can_open : bool) (result : option Details)
    (now : Z) (pc : ConfirmPc) (w : World) : ConfirmPc * World :=
  match pc with
  | CStart =>
      match get_signal_by_id sid (store w) with
      | None => (CDone, w)
      | Some s =>
          if negb (String.eqb (status s) "pending") then (CDone, w)
          else if negb can_open then (CDone, w)
          else (CBroker, w)
      end
  | CBroker =>
      match result with
      | None => (CDone, w)
      | Some d =>
          let st := snd (update_signal_status sid "executed" (Some d) now (store w)) in
          let ks := if mem_key sid (pending_signals w)
                    then remove_key sid (pending_signals w) else pending_signals w in
          (CDone, {| store := st; pending_signals := ks |})
      end
  | CDone => (CDone, w)
  end.

(** [_handle_confirmation_timeout]: [TStart] at the first membership test,
    [TWait] once the wait loop has run out the timeout, [TDone] after a
    return. *)
Inductive TimeoutPc := TStart | TWait | TDone.

Definition timeout_step (sid : string) (now : Z) (pc : TimeoutPc) (w : World)
    : TimeoutPc * World :=
  match pc with
  | TStart => if mem_key sid (pending_signals w) then (TWait, w) else (TDone, w)
  | TWait =>
      if negb (mem_key sid (pending_signals w)) then (TDone, w) else
      match get_signal_by_id sid (store w) with
      | Some s =>
          if String.eqb (status s) "pending" then
            (TDone, {| store := snd (update_signal_status sid "expired" None now (store w));
                       pending_signals := remove_key sid (pending_signals w) |})
          else (TDone, w)
      | None => (TDone, w)
      end
  | TDone => (TDone, w)
  end.

Inductive Thread := Confirm | Timeout.

Record Sys := { cpc : ConfirmPc; tpc : TimeoutPc; world : World }.

(** One step of the thread the scheduler picks. *)
Definition step (sid : string) (can_open : bool) (result : option Details) (now : Z)
    (s : Sys) (th : Thread) : Sys :=
  match th with
  | Confirm =>
      let '(pc, w) := confirm_step sid can_open result now (cpc s) (world s) in
      {| cpc := pc; tpc := tpc s; world := w |}
  | Timeout =>
      let '(pc, w) := timeout_step sid now (tpc s) (world s) in
      {| cpc := cpc s; tpc := pc; world := w |}
  end.

Definition run (sid : string) (can_open : bool) (result : option Details) (now : Z)
    (sched : list Thread) (s : Sys) : Sys :=
  fold_left (step sid can_open result now) sched s.

(** Both handlers at their start, for the signal [sid] just sent for
    confirmation. *)
Definition init (hist : list CandidateSignal) (ks : list string) : Sys :=
  {| cpc := CStart; tpc := TStart; world := {| store := hist; pending_signals := ks |} |}.

Definition status_of (sid : string) (w : World) : option string :=
  option_map status (get_signal_by_id sid (store w)).

End Telegram.

(** ** PriceActionStrategy (src/analysis/price_action_strategy.py) *)
Module PriceAction.
Import NumPy Aggregator Signals.

(** One row of the OHLC DataFrame. *)
Record Bar := { open : Q; high : Q; low : Q; close : Q }.

Record CandlePattern := {
  cp_index : nat; cp_pattern : string; cp_signal : string; cp_strength : Q }.

Definition mk_pattern (idx : nat) (name sig : string) (str : Q) : CandlePattern :=
  {| cp_index := idx; cp_pattern := name; cp_signal := sig; cp_strength := str |}.

Definition body (b : Bar) : Q := Qabs (close b - open b).
Definition is_bullish (b : Bar) : bool := qlt (open b) (close b).

(** The single-candle branch (Doji / Hammer / Shooting Star / Marubozu). *)
Definition single_pattern (idx : nat) (c : Bar) : list CandlePattern :=
  let curr_body := body c in
  let curr_range := high c - low c in
  let upper := high c - py_max (close c) (open c) in
  let lower := py_min (close c) (open c) - low c in
  if qlt curr_body ((1 # 10) * curr_range) then [mk_pattern idx "Doji" "indecision" 50]
  else if qlt (2 * curr_body) lower && qlt upper ((3 # 10) * curr_body) then
    if is_bullish c then [mk_pattern idx "Hammer" "bullish" 70]
    else [mk_pattern idx "Hanging Man" "bearish" 70]
  else if qlt (2 * curr_body) upper && qlt lower ((3 # 10) * curr_body) then
    if is_bullish c then [mk_pattern idx "Inverted Hammer" "bullish" 60]
    else [mk_pattern idx "Shooting Star" "bearish" 70]
  else if qlt ((7 # 10) * curr_range) curr_body then
    if is_bullish c then [mk_pattern idx "Bullish Marubozu" "bullish" 80]
    else [mk_pattern idx "Bearish Marubozu" "bearish" 80]
  else [].

(** The two-candle branch (Engulfing / Harami). *)
Definition pair_pattern (idx : nat) (p c : Bar) : list CandlePattern :=
  let cb := is_bullish c in
  let pb := is_bullish p in
  if qlt (body p) (body c)
     && ((cb && negb pb && Qle_bool (open c) (close p) && Qle_bool (open p) (close c))
         || (negb cb && pb && Qle_bool (close p) (open c) && Qle_bool (close c) (open p))) then
    if cb then [mk_pattern idx "Bullish Engulfing" "bullish" 90]
    else [mk_pattern idx "Bearish Engulfing" "bearish" 90]
  else if qlt (body c) (body p)
     && ((cb && negb pb && Qle_bool (high c) (open p) && Qle_bool (close p) (low c))
         || (negb cb && pb && Qle_bool (high c) (close p) && Qle_bool (open p) (low c))) then
    if cb then [mk_pattern idx "Bullish Harami" "bullish" 60]
    else [mk_pattern idx "Bearish Harami" "bearish" 60]
  else [].

Definition dummy_bar : Bar := {| open := 0; high := 0; low := 0; close := 0 |}.

(** [sorted(patterns, key=strength, reverse=True)]: stable, descending. *)
Fixpoint insert_desc (p : CandlePattern) (l : list CandlePattern) : list CandlePattern :=
  match l with
  | [] => [p]
  | q :: rest => if qlt (cp_strength q) (cp_strength p) then p :: l else q :: insert_desc p rest
  end.

Definition sort_desc (l : list CandlePattern) : list CandlePattern :=
  fold_left (fun acc p => insert_desc p acc) l [].

(** [_identify_candle_patterns]: the last five bars, each with its
    predecessor (which exists since at least 10 bars are required). *)
Definition identify_candle_patterns (df : list Bar) : list CandlePattern :=
  let n := List.length df in
  if Nat.ltb n 10 then [] else
  let one idx :=
    let c := nth idx df dummy_bar in
    let p := nth (idx - 1) df dummy_bar in
    single_pattern idx c ++ pair_pattern idx p c in
  sort_desc (flat_map one (seq (n - 5) 5)).

Record MomentumSignal := { ms_indicator : string; ms_signal : string; ms_strength : Q }.

(** The fields of the price-action results read by [_generate_signal];
    [classic_pivots] is [pivots["classic"]] as an association list. *)
Record PAResults := {
  trend : string;
  trend_strength : Q;
  candle_patterns : list CandlePattern;
  momentum_signals : list MomentumSignal;
  patterns : list string;
  classic_pivots : list (string * Q)
}.

Fixpoint assoc (k : string) (l : list (string * Q)) : option Q :=
  match l with
  | [] => None
  | (k', v) :: rest => if String.eqb k k' then Some v else assoc k rest
  end.

Definition sumQ_map {A} (f : A -> Q) (l : list A) : Q := fold_left (fun acc x => acc + f x) l 0.

(** One pivot level: [side] is [last - level] for supports, [level - last]
    for resistances; [last] is a numpy float, so a zero last price gives
    inf or NaN, which fails [0 < _ < 0.005]. *)
Definition pivot_points (last : Q) (pivots : list (string * Q)) (name : string) (weight : Q)
    (side : Q -> Q) : Q :=
  match assoc name pivots with
  | None => 0
  | Some level =>
      let d := np_div (side level) last in
      if np_lt (Fin 0) d && np_lt d (Fin (5 # 1000)) then weight else 0
  end.

(** [_generate_signal]; [None] stands for the path that raises (an empty
    frame) and ends in [return "neutral", 0]. *)
Definition generate_scores (df : list Bar) (r : PAResults) : option (Q * Q) :=
  let buy0 := if String.eqb (trend r) "bullish" then trend_strength r / 20 else 0 in
  let sell0 := if String.eqb (trend r) "bearish" then trend_strength r / 20 else 0 in
  let buy1 := buy0 + sumQ_map (fun p => if String.eqb (cp_signal p) "bullish"
                                        then cp_strength p / 20 else 0) (candle_patterns r) in
  let sell1 := sell0 + sumQ_map (fun p => if String.eqb (cp_signal p) "bullish" then 0
                                         else if String.eqb (cp_signal p) "bearish"
                                         then cp_strength p / 20 else 0) (candle_patterns r) in
  let buy2 := buy1 + sumQ_map (fun s => if String.eqb (ms_signal s) "buy"
                                        then ms_strength s / 20 else 0) (momentum_signals r) in
  let sell2 := sell1 + sumQ_map (fun s => if String.eqb (ms_signal s) "buy" then 0
                                         else if String.eqb (ms_signal s) "sell"
                                         then ms_strength s / 20 else 0) (momentum_signals r) in
  let is_buy_pattern p := contains "Bullish" p || contains "Support" p || contains "Bottom" p in
  let is_sell_pattern p := contains "Bearish" p || contains "Resistance" p || contains "Top" p in
  let buy3 := buy2 + sumQ_map (fun p => if is_buy_pattern p then 5 # 2 else 0) (patterns r) in
  let sell3 := sell2 + sumQ_map (fun p => if is_buy_pattern p then 0
                                         else if is_sell_pattern p then 5 # 2 else 0) (patterns r) in
  match df with
  | [] => None  (* df['close'].iloc[-1] on an empty frame *)
  | _ :: _ =>
    let last_price := close (last df dummy_bar) in
    let pv := classic_pivots r in
    match pv with
    | [] => Some (buy3, sell3)
    | _ :: _ =>
      let sup n w := pivot_points last_price pv n w (fun l => last_price - l) in
      let res n w := pivot_points last_price pv n w (fun l => l - last_price) in
      Some (buy3 + sup "s1"%string (3 # 2) + sup "s2"%string 1 + sup "s3"%string (1 # 2),
            sell3 + res "r1"%string (3 # 2) + res "r2"%string 1 + res "r3"%string (1 # 2))
    end
  end.

Definition generate_signal (df : list Bar) (r : PAResults) : string * Q :=
  match generate_scores df r with
  | None => ("neutral"%string, 0)
  | Some (buy_score, sell_score) =>
      if qlt (sell_score + 3) buy_score then ("buy"%string, py_min 100 (buy_score * 10))
      else if qlt (buy_score + 3) sell_score then ("sell"%string, py_min 100 (sell_score * 10))
      else ("neutral"%string, py_max buy_score sell_score * 5)
  end.

End PriceAction.

(** ** ICTStrategy (src/analysis/ict_strategy.py) *)
Module ICT.
Import NumPy Levels Aggregator Signals PriceAction.

Record Level := {
  lv_price : Q; lv_index : nat; lv_type : string; lv_equal_points : nat; lv_strength : Q }.
(** The strengths of blocks, breakers and gaps are numpy quotients. *)
Record Block := { top : Q; bottom : Q; blk_index : nat; blk_strength : npf }.
Record Breaker := {
  br_top : Q; br_bottom : Q; br_index : nat; structure_break : string; br_strength : npf }.
Record Gap := { gap_top : Q; gap_bottom : Q; gap_index : nat; gap_size : Q; gap_strength : npf }.

Record Liquidity := { buy_side : list Level; sell_side : list Level }.
Record OrderBlocks := { ob_bullish : list Block; ob_bearish : list Block }.
Record BreakerBlocks := { bb_bullish : list Breaker; bb_bearish : list Breaker }.
Record FairValueGaps := { fvg_bullish : list Gap; fvg_bearish : list Gap }.

(** [sorted(xs, key=..., reverse=True)]: stable, descending, for the
    comparison [lt] of the key type. *)
Fixpoint insert_by {A K} (lt : K -> K -> bool) (key : A -> K) (x : A) (l : list A) : list A :=
  match l with
  | [] => [x]
  | y :: rest => if lt (key y) (key x) then x :: l else y :: insert_by lt key x rest
  end.

Definition sort_by_desc {A K} (lt : K -> K -> bool) (key : A -> K) (l : list A) : list A :=
  fold_left (fun acc x => insert_by lt key x acc) l [].

Section Frame.
Variable df : list Bar.

Definition n : nat := List.length df.
Definition row (i : nat) : Bar := nth i df dummy_bar.
Definition hi (i : nat) : Q := high (row i).
Definition lo (i : nat) : Q := low (row i).
Definition op (i : nat) : Q := open (row i).
Definition cl (i : nat) : Q := close (row i).

(** [np.mean(df['high'] - df['low'])] *)
Definition avg_range : Q := sumQ (map (fun b => high b - low b) df) / inject_Z (Z.of_nat n).

Definition last_price : Q := close (last df dummy_bar).

(** [range(a, b)] *)
Definition range (a b : nat) : list nat := seq a (b - a).

Definition swing_high (i : nat) : bool :=
  qlt (hi (i - 1)) (hi i) && qlt (hi (i - 2)) (hi i)
  && qlt (hi (i + 1)) (hi i) && qlt (hi (i + 2)) (hi i).

Definition swing_low (i : nat) : bool :=
  qlt (lo i) (lo (i - 1)) && qlt (lo i) (lo (i - 2))
  && qlt (lo i) (lo (i + 1)) && qlt (lo i) (lo (i + 2)).

Definition equal_points (sel : nat -> Q) (i : nat) : nat :=
  let base := sel i in
  List.length (filter (fun j => np_lt (np_div (Qabs (sel j - base)) base) (Fin (1 # 1000)))
                      (range (i - 50) i)).

Definition liquidity_level (sel : nat -> Q) (ty : string) (i : nat) : Level :=
  let k := equal_points sel i in
  {| lv_price := sel i; lv_index := i; lv_type := ty; lv_equal_points := k;
     lv_strength := 1 + inject_Z (Z.of_nat k) * (2 # 10) |}.

Definition find_liquidity_levels : Liquidity :=
  if Nat.ltb n 30 then {| buy_side := []; sell_side := [] |} else
  let idx := range 5 (n - 5) in
  let sells := map (liquidity_level hi "swing_high") (filter swing_high idx) in
  let buys := map (liquidity_level lo "swing_low") (filter swing_low idx) in
  {| buy_side := firstn 5 (sort_by_desc qlt lv_strength buys);
     sell_side := firstn 5 (sort_by_desc qlt lv_strength sells) |}.

Fixpoint first_some {A B} (f : A -> option B) (l : list A) : option B :=
  match l with
  | [] => None
  | x :: rest => match f x with Some y => Some y | None => first_some f rest end
  end.

Definition option_to_list {A} (o : option A) : list A :=
  match o with Some x => [x] | None => [] end.

(** One bar [i] of [_find_order_blocks]: [(bullish, bearish)] blocks. *)
Definition order_block_at (i : nat) : list Block * list Block :=
  let thr := 2 * avg_range in
  let rng := hi i - lo i in
  if qlt (op i) (cl i) && qlt thr rng then
    ([], option_to_list (first_some (fun j =>
            if qlt (cl j) (op j) && qlt (lo j) (lo i)
            then Some {| top := op j; bottom := cl j; blk_index := j;
                         blk_strength := np_div rng avg_range |}
            else None) (range (i - 3) i)))
  else if qlt (cl i) (op i) && qlt thr rng then
    (option_to_list (first_some (fun j =>
            if qlt (op j) (cl j) && qlt (hi i) (hi j)
            then Some {| top := cl j; bottom := op j; blk_index := j;
                         blk_strength := np_div rng avg_range |}
            else None) (range (i - 3) i)), [])
  else ([], []).

Definition find_order_blocks : OrderBlocks :=
  if Nat.ltb n 20 then {| ob_bullish := []; ob_bearish := [] |} else
  let found := map order_block_at (range 3 (n - 1)) in
  {| ob_bullish := firstn 3 (sort_by_desc np_lt blk_strength (flat_map fst found));
     ob_bearish := firstn 3 (sort_by_desc np_lt blk_strength (flat_map snd found)) |}.

Definition breaker_after (start : nat) (green : bool) (str : npf) : option Breaker :=
  let end_idx := Nat.min (start + 20) (n - 1) in
  first_some (fun j =>
    if green then
      if qlt (op j) (cl j)
      then Some {| br_top := cl j; br_bottom := op j; br_index := j;
                   structure_break := "lower_high"; br_strength := str |}
      else None
    else
      if qlt (cl j) (op j)
      then Some {| br_top := op j; br_bottom := cl j; br_index := j;
                   structure_break := "higher_low"; br_strength := str |}
      else None) (range start end_idx).

Definition find_breaker_blocks : BreakerBlocks :=
  if Nat.ltb n 50 then {| bb_bullish := []; bb_bearish := [] |} else
  let idx := range 5 (n - 5) in
  let highs := map (fun i => (i, hi i)) (filter swing_high idx) in
  let lows := map (fun i => (i, lo i)) (filter swing_low idx) in
  let bull := flat_map (fun '((_, ph), (i, h)) =>
                 if qlt h ph then option_to_list (breaker_after i true (np_add (Fin 1) (np_div (ph - h) ph)))
                 else []) (combine highs (tl highs)) in
  let bear := flat_map (fun '((_, pl), (i, l)) =>
                 if qlt pl l then option_to_list (breaker_after i false (np_add (Fin 1) (np_div (l - pl) pl)))
                 else []) (combine lows (tl lows)) in
  {| bb_bullish := sort_by_desc np_lt br_strength bull;
     bb_bearish := sort_by_desc np_lt br_strength bear |}.

Definition gaps_at (i : nat) : list Gap * list Gap :=
  let min_gap_size := (3 # 10) * avg_range in
  let bull :=
    if qlt (hi (i - 1)) (lo (i + 1)) then
      let g := lo (i + 1) - hi (i - 1) in
      if qlt min_gap_size g
      then [{| gap_top := lo (i + 1); gap_bottom := hi (i - 1); gap_index := i;
               gap_size := g; gap_strength := np_div g avg_range |}]
      else []
    else [] in
  let bear :=
    if qlt (hi (i + 1)) (lo (i - 1)) then
      let g := lo (i - 1) - hi (i + 1) in
      if qlt min_gap_size g
      then [{| gap_top := lo (i - 1); gap_bottom := hi (i + 1); gap_index := i;
               gap_size := g; gap_strength := np_div g avg_range |}]
      else []
    else [] in
  (bull, bear).

Definition find_fair_value_gaps : FairValueGaps :=
  if Nat.ltb n 10 then {| fvg_bullish := []; fvg_bearish := [] |} else
  let found := map gaps_at (range 1 (n - 1)) in
  {| fvg_bullish := firstn 3 (sort_by_desc np_lt gap_strength (flat_map fst found));
     fvg_bearish := firstn 3 (sort_by_desc np_lt gap_strength (flat_map snd found)) |}.

Fixpoint list_minQ (x : Q) (l : list Q) : Q :=
  match l with [] => x | y :: rest => list_minQ (py_min x y) rest end.

Fixpoint nodup_first (seen l : list string) : list string :=
  match l with
  | [] => []
  | x :: rest => if existsb (String.eqb x) seen then nodup_first seen rest
                 else x :: nodup_first (x :: seen) rest
  end.

(** [_identify_ict_patterns]; [list(set(...))] has no fixed order, it is
    modelled as the first occurrences. *)
Definition identify_ict_patterns (liq : Liquidity) (ob : OrderBlocks) (fvg : FairValueGaps)
    : list string :=
  let lp := last_price in
  let sweep :=
    if negb (match buy_side liq with [] => true | _ => false end) && Nat.ltb 100 n then
      let recent := filter (fun l => Nat.ltb (n - 60) (lv_index l)) (buy_side liq) in
      match recent with
      | a :: b :: rest =>
          let prices := map lv_price recent in
          let ranges := map (fun '(x, y) => Qabs (x - y)) (combine prices (tl prices)) in
          match ranges with
          | r :: rs => if qlt (list_minQ r rs) ((1 # 2) * avg_range)
                       then ["Liquidity Sweep Pattern (Buy Side)"%string] else []
          | [] => []
          end
      | _ => []
      end
    else [] in
  let ipda :=
    match ob_bullish ob with
    | b1 :: b2 :: rest =>
        let tops := map top (ob_bullish ob) in
        let bottoms := map bottom (ob_bullish ob) in
        let range_size := fold_left py_max (tl tops) (top b1)
                          - fold_left py_min (tl bottoms) (bottom b1) in
        if qlt range_size (2 * avg_range)
        then ["Internal Price Delivery Area (Bullish)"%string] else []
    | _ => []
    end in
  let overlaps (g : Gap) (b : Block) := Qle_bool (gap_bottom g) (top b) && Qle_bool (bottom b) (gap_top g) in
  let bull_ob_fvg := flat_map (fun g => if existsb (overlaps g) (ob_bullish ob)
                      then ["Bullish Order Block with Fair Value Gap"%string] else []) (fvg_bullish fvg) in
  let bear_ob_fvg := flat_map (fun g => if existsb (overlaps g) (ob_bearish ob)
                      then ["Bearish Order Block with Fair Value Gap"%string] else []) (fvg_bearish fvg) in
  let near (p q : Q) := np_lt (np_div (Qabs (p - q)) p) (Fin (2 # 1000)) in
  let bull_liq := flat_map (fun l => if existsb (fun b => near (lv_price l) (bottom b)) (ob_bullish ob)
                    then ["Bullish Order Block at Buy Side Liquidity"%string] else []) (buy_side liq) in
  let bear_liq := flat_map (fun l => if existsb (fun b => near (lv_price l) (top b)) (ob_bearish ob)
                    then ["Bearish Order Block at Sell Side Liquidity"%string] else []) (sell_side liq) in
  let appr_bull := if existsb (fun g => qlt lp (gap_bottom g)
                          && np_lt (np_div (gap_bottom g - lp) lp) (Fin (5 # 1000))) (fvg_bullish fvg)
                   then ["Price Approaching Bullish Fair Value Gap"%string] else [] in
  let appr_bear := if existsb (fun g => qlt (gap_top g) lp
                          && np_lt (np_div (lp - gap_top g) lp) (Fin (5 # 1000))) (fvg_bearish fvg)
                   then ["Price Approaching Bearish Fair Value Gap"%string] else [] in
  nodup_first [] (sweep ++ ipda ++ bull_ob_fvg ++ bear_ob_fvg ++ bull_liq ++ bear_liq
                  ++ appr_bull ++ appr_bear).

(** [_find_support_resistance]; ICT's [_merge_levels] has the body of
    [merge_close_levels] with threshold 0.0005. *)
Definition find_support_resistance (liq : Liquidity) (ob : OrderBlocks) : list Q * list Q :=
  let lp := last_price in
  let sup := map lv_price (filter (fun l => qlt (lv_price l) lp) (buy_side liq))
             ++ flat_map (fun b => if qlt (top b) lp then [top b; bottom b] else []) (ob_bullish ob) in
  let res := map lv_price (filter (fun l => qlt lp (lv_price l)) (sell_side liq))
             ++ flat_map (fun b => if qlt lp (bottom b) then [top b; bottom b] else []) (ob_bearish ob) in
  (merge_if_nonempty sup, merge_if_nonempty res).

Definition between (lo hi : Q) (x : npf) : bool := np_lt (Fin lo) x && np_lt x (Fin hi).

(** [_generate_signal]: the score terms in the order the loops add them
    to [buy_score] and [sell_score]. *)
Definition ict_generate_signal (liq : Liquidity) (ob : OrderBlocks) (fvg : FairValueGaps)
    (pats : list string) : string * npf :=
  let lp := last_price in
  let liq_term (d : npf) (s : Q) :=
    if between (-(5 # 1000)) (2 # 1000) d then [np_mul (Fin 2) (Fin s)]
    else if np_le (Fin (2 # 1000)) d && np_lt d (Fin (1 # 100)) then [np_mul (Fin 1) (Fin s)]
    else [] in
  let liq_buy := flat_map (fun l => liq_term (np_div (lp - lv_price l) lp) (lv_strength l))
                   (buy_side liq) in
  let liq_sell := flat_map (fun l => liq_term (np_div (lv_price l - lp) lp) (lv_strength l))
                    (sell_side liq) in
  let ob_buy := flat_map (fun b =>
        if Qle_bool (bottom b) lp && Qle_bool lp (top b) then [np_mul (Fin 3) (blk_strength b)]
        else if between 0 (5 # 1000) (np_div (lp - top b) lp)
        then [np_mul (Fin (3 # 2)) (blk_strength b)] else [])
        (ob_bullish ob) in
  let ob_sell := flat_map (fun b =>
        if Qle_bool (bottom b) lp && Qle_bool lp (top b) then [np_mul (Fin 3) (blk_strength b)]
        else if between 0 (5 # 1000) (np_div (bottom b - lp) lp)
        then [np_mul (Fin (3 # 2)) (blk_strength b)] else [])
        (ob_bearish ob) in
  let fvg_buy := flat_map (fun g =>
        if qlt lp (gap_bottom g) && np_lt (np_div (gap_bottom g - lp) lp) (Fin (5 # 1000))
        then [np_mul (Fin 2) (gap_strength g)]
        else if Qle_bool (gap_bottom g) lp && Qle_bool lp (gap_top g)
        then [np_mul (Fin 1) (gap_strength g)] else [])
        (fvg_bullish fvg) in
  let fvg_sell := flat_map (fun g =>
        if qlt (gap_top g) lp && np_lt (np_div (lp - gap_top g) lp) (Fin (5 # 1000))
        then [np_mul (Fin 2) (gap_strength g)]
        else if Qle_bool (gap_bottom g) lp && Qle_bool lp (gap_top g)
        then [np_mul (Fin 1) (gap_strength g)] else [])
        (fvg_bearish fvg) in
  let pat_buy := flat_map (fun p => if contains "Bullish" p then [Fin 2] else []) pats in
  let pat_sell := flat_map (fun p => if contains "Bullish" p then []
                                     else if contains "Bearish" p then [Fin 2] else []) pats in
  let buy_score := np_sum (liq_buy ++ ob_buy ++ fvg_buy ++ pat_buy) in
  let sell_score := np_sum (liq_sell ++ ob_sell ++ fvg_sell ++ pat_sell) in
  if np_lt (np_add sell_score (Fin 2)) buy_score
  then ("buy"%string, np_min (Fin 100) (np_mul buy_score (Fin 10)))
  else if np_lt (np_add buy_score (Fin 2)) sell_score
  then ("sell"%string, np_min (Fin 100) (np_mul sell_score (Fin 10)))
  else ("neutral"%string, Fin 0).

End Frame.

Record ICTResults := {
  liquidity_levels : Liquidity;
  order_blocks : OrderBlocks;
  breaker_blocks : BreakerBlocks;
  fair_value_gaps : FairValueGaps;
  ict_patterns : list string;
  support_levels : list Q;
  resistance_levels : list Q;
  ict_signal : string;
  ict_strength : npf
}.

(** [analyze]: [inl] is the [{"error": ...}] dict. *)
Definition analyze (df : list Bar) : string + ICTResults :=
  match df with
  | [] => inl "Veri bulunamadı"%string
  | _ :: _ =>
      let liq := find_liquidity_levels df in
      let ob := find_order_blocks df in
      let bb := find_breaker_blocks df in
      let fvg := find_fair_value_gaps df in
      let pats := identify_ict_patterns df liq ob fvg in
      let sr := find_support_resistance df liq ob in
      let sg := ict_generate_signal df liq ob fvg pats in
      inr {| liquidity_levels := liq; order_blocks := ob; breaker_blocks := bb;
             fair_value_gaps := fvg; ict_patterns := pats;
             support_levels := fst sr; resistance_levels := snd sr;
             ict_signal := fst sg; ict_strength := snd sg |}
  end.

End ICT.

(** ** Analysis engine: the rest of [_create_summary] with
    [_find_nearest_levels], [_identify_key_timeframes] and
    [_calculate_success_probability] (src/analysis/analysis_engine.py). *)
Module Summary.
Import Aggregator.

(** What the engine reads from [tf_data["summary"]] through [.get]:
    signal (default "neutral"), confidence (default "low"), support and
    resistance levels (default []). *)
Record SummaryView := {
  sv_signal : string;
  sv_confidence : string;
  sv_support_levels : list Q;
  sv_resistance_levels : list Q
}.

(** One entry of [results["timeframes"]]: its ["summary"] when present and
    the [trend] / [trend_strength] of [["analysis"]["price_action"]] when
    both keys are present. *)
Record TfData := {
  tfd_summary : option SummaryView;
  tfd_price_action : option (string * Q)
}.

(** [results["timeframes"]] in insertion order, and [results["news"]]:
    [None] when the key is absent, [Some None] when the news dict has no
    ["impact"]. *)
Record Results := {
  r_timeframes : list (string * TfData);
  r_news : option (option Q)
}.

Record Summary := {
  o_signal : string;
  o_confidence : string;
  o_strength : Q;
  o_success_probability : Q;
  o_buy_weight : Q;
  o_sell_weight : Q;
  o_news_impact : Q;
  o_nearest_support : option Q;
  o_nearest_resistance : option Q;
  o_key_timeframes : list string
}.

(** [tf in results["timeframes"]] and [results["timeframes"][tf]]. *)
Definition mem_tf (tf : string) (tfs : list (string * TfData)) : bool :=
  existsb (String.eqb tf) (map fst tfs).

Fixpoint find_tf (tf : string) (tfs : list (string * TfData)) : option TfData :=
  match tfs with
  | [] => None
  | (k, d) :: t => if String.eqb tf k then Some d else find_tf tf t
  end.

(** One iteration of the buy/sell accumulation loop. *)
Definition weigh (w : list (string * Q)) (acc : Q * Q) (item : string * TfData) : Q * Q :=
  match tfd_summary (snd item) with
  | Some s =>
      if String.eqb (sv_signal s) "buy" then (fst acc + get_weight w (fst item), snd acc)
      else if String.eqb (sv_signal s) "sell" then (fst acc, snd acc + get_weight w (fst item))
      else acc
  | None => acc
  end.

(** [results["news"]["impact"]] when both keys are present. *)
Definition news_impact_of (r : Results) : option Q :=
  match r_news r with Some (Some x) => Some x | _ => None end.

(** Python's [max(xs)] and [min(xs)] on a non-empty list. *)
Definition max_of (x : Q) (xs : list Q) : Q := fold_left py_max xs x.
Definition min_of (x : Q) (xs : list Q) : Q := fold_left py_min xs x.

(** The price loop of [_find_nearest_levels]: the last close of the first
    timeframe among H1, M15, M5, H4, D1 that is in the results and whose
    data frame ([closes tf], from the data manager) is not empty. *)
Fixpoint current_price_from (order : list string) (tfs : list (string * TfData))
    (closes : string -> list Q) : option Q :=
  match order with
  | [] => None
  | tf :: rest =>
      if mem_tf tf tfs then
        match closes tf with
        | [] => current_price_from rest tfs closes
        | cs => Some (last cs 0)
        end
      else current_price_from rest tfs closes
  end.

Definition all_levels (sel : SummaryView -> list Q) (tfs : list (string * TfData)) : list Q :=
  flat_map (fun item => match tfd_summary (snd item) with
                        | Some s => sel s | None => [] end) tfs.

Definition find_nearest_levels (r : Results) (closes : string -> list Q)
    : option Q * option Q :=
  let tfs := r_timeframes r in
  match current_price_from ["H1"; "M15"; "M5"; "H4"; "D1"]%string tfs closes with
  | None => (None, None)
  | Some price =>
      let below := filter (fun s => qlt s price) (all_levels sv_support_levels tfs) in
      let above := filter (fun x => qlt price x) (all_levels sv_resistance_levels tfs) in
      ((match below with [] => None | s :: t => Some (max_of s t) end),
       (match above with [] => None | x :: t => Some (min_of x t) end))
  end.

Definition identify_key_timeframes (r : Results) : list string :=
  map fst (filter (fun item =>
    match tfd_summary (snd item) with
    | Some s => negb (String.eqb (sv_signal s) "neutral")
                && existsb (String.eqb (sv_confidence s)) ["medium"; "high"]%string
    | None => false
    end) (r_timeframes r)).

Definition is_buy (s : string) : bool := String.eqb s "buy".
Definition is_sell (s : string) : bool := String.eqb s "sell".

Definition confirmations (signal : string) (tfs : list (string * TfData)) : nat :=
  List.length (filter (fun item => match tfd_summary (snd item) with
                                  | Some s => String.eqb (sv_signal s) signal
                                  | None => false end) tfs).

Definition news_correction (signal : string) (r : Results) : Q :=
  match r_news r with
  | None => 0
  | Some o =>
      let ni := match o with Some x => x | None => 0 end in
      if (is_buy signal && qlt 0 ni) || (is_sell signal && qlt ni 0)
      then py_min (Qabs ni * 10) 10
      else if (is_buy signal && qlt ni 0) || (is_sell signal && qlt 0 ni)
      then - py_min (Qabs ni * 10) 15
      else 0
  end.

(** The trend loop over D1 then H4, leaving at the first timeframe that has
    price-action data. *)
Fixpoint trend_correction_from (order : list string) (signal : string)
    (tfs : list (string * TfData)) : Q :=
  match order with
  | [] => 0
  | tf :: rest =>
      match find_tf tf tfs with
      | Some d =>
          match tfd_price_action d with
          | Some (trend, ts) =>
              if (is_buy signal && String.eqb trend "bullish")
                 || (is_sell signal && String.eqb trend "bearish")
              then py_min (ts * (15 # 100)) 15
              else if (is_buy signal && String.eqb trend "bearish")
                      || (is_sell signal && String.eqb trend "bullish")
              then - py_min (ts * (2 # 10)) 20
              else 0
          | None => trend_correction_from rest signal tfs
          end
      | None => trend_correction_from rest signal tfs
      end
  end.

Definition calculate_success_probability (r : Results) (signal : string) (strength : Q) : Q :=
  let bonus := py_min (inject_Z (Z.of_nat (confirmations signal (r_timeframes r))) * 5) 20 in
  let total := strength + bonus + news_correction signal r
               + trend_correction_from ["D1"; "H4"]%string signal (r_timeframes r) in
  py_max 0 (py_min total 100).

Definition create_summary (r : Results) (closes : string -> list Q) : Summary :=
  let tfs := r_timeframes r in
  let w := normalized_weights (map fst tfs) in
  let acc := fold_left (weigh w) tfs (0, 0) in
  let bw_sw := add_news_impact (news_impact_of r) (fst acc) (snd acc) in
  let bw := fst bw_sw in
  let sw := snd bw_sw in
  let '(final_signal, s) :=
    if qlt (sw + (1 # 10)) bw then ("buy"%string, bw)
    else if qlt (bw + (1 # 10)) sw then ("sell"%string, sw)
    else ("neutral"%string, py_max bw sw) in
  let strength := py_min (s * 100) 100 in
  let conf := if qlt 70 strength then "high"%string
              else if qlt 40 strength then "medium"%string
              else "low"%string in
  let nearest := find_nearest_levels r closes in
  {| o_signal := final_signal;
     o_confidence := conf;
     o_strength := strength;
     o_success_probability := calculate_success_probability r final_signal strength;
     o_buy_weight := bw * 100;
     o_sell_weight := sw * 100;
     o_news_impact := match news_impact_of r with Some x => x | None => 0 end;
     o_nearest_support := fst nearest;
     o_nearest_resistance := snd nearest;
     o_key_timeframes := identify_key_timeframes r |}.

End Summary.

(** ** Concrete analysis results for the summary theorems. *)
Module SummaryScenarios.
Import Summary.

Definition buy_view (sup res : list Q) : SummaryView :=
  {| sv_signal := "buy"; sv_confidence := "high";
     sv_support_levels := sup; sv_resistance_levels := res |}.

(** H1 and D1 both say "buy", the news impact is 0.5 and the D1 trend is
    bullish with strength 60. *)
Definition two_buys : Results :=
  {| r_timeframes :=
       [("H1"%string, {| tfd_summary := Some (buy_view [108 # 100; 112 # 100] [115 # 100]);
                         tfd_price_action := None |});
        ("D1"%string, {| tfd_summary := Some (buy_view [105 # 100] [109 # 100; 125 # 100]);
                         tfd_price_action := Some ("bullish"%string, 60) |})];
     r_news := Some (Some (1 # 2)) |}.

(** Closing prices by timeframe: only H1 has data, last close 1.10. *)
Definition h1_closes (tf : string) : list Q :=
  if String.eqb tf "H1" then [109 # 100; 110 # 100] else [].

End SummaryScenarios.

(** ** [get_signal_history] (src/trading/signal_generator.py). *)
Module SignalHistory.
Import Signals.

(** The start index of Python's slice [xs[start:]] on a list of length
    [len]: a negative start counts from the end, and both are clamped to
    [[0, len]]. *)
Definition slice_start (start : Z) (len : nat) : nat :=
  if (start <? 0)%Z then Z.to_nat (Z.max 0 (Z.of_nat len + start))
  else Nat.min (Z.to_nat start) len.

(** [self.signal_history[-limit:] if self.signal_history else []]. *)
Definition get_signal_history (limit : Z) (hist : list CandidateSignal) : list CandidateSignal :=
  match hist with
  | [] => []
  | _ => skipn (slice_start (- limit) (List.length hist)) hist
  end.

End SignalHistory.

(** ** Pip, lot, risk/reward and indicator helpers (src/core/utils.py). *)
Module Utils.
Import Aggregator Risk.

(** [pip_factor]: 100 for a symbol ending in "JPY", else 10000. *)
Definition pip_factor (symbol : string) : Q :=
  if ends_with "JPY" symbol then 100 else 10000.

Definition calculate_pips (symbol : string) (price_difference : Q) : Q :=
  price_difference * pip_factor symbol.

Definition calculate_price_from_pips (symbol : string) (pips base_price : Q) : Q :=
  base_price + pips / pip_factor symbol.

(** [calculate_lot_size]: [math.floor(lot_size * 100) / 100], at least 0.01. *)
Definition calculate_lot_size (account_balance risk_percentage stop_loss_pips
                               symbol_value_per_pip : Q) : Q :=
  let risk_amount := account_balance * (risk_percentage / 100) in
  if Qle_bool stop_loss_pips 0 || Qle_bool symbol_value_per_pip 0 then 1 # 100
  else
    let lot_size := risk_amount / (stop_loss_pips * symbol_value_per_pip) in
    let lot_size := inject_Z (Qfloor (lot_size * 100)) / 100 in
    if qlt lot_size (1 # 100) then 1 # 100 else lot_size.

(** A Python float result that may be [float('inf')]. *)
Inductive PyFloat := Finite (q : Q) | Infinity.

Definition calculate_risk_reward_ratio (entry_price stop_loss take_profit : Q) : PyFloat :=
  if Qeq_bool stop_loss entry_price then Finite 0
  else
    let '(risk, reward) :=
      if qlt entry_price take_profit
      then (Qabs (entry_price - stop_loss), Qabs (take_profit - entry_price))
      else (Qabs (entry_price - stop_loss), Qabs (entry_price - take_profit)) in
    if Qeq_bool risk 0 then Infinity else Finite (reward / risk).

(** The last [k] elements, as pandas' [rolling(window=k)...iloc[-1]] sees
    them once the series has at least [k] rows. *)
Definition lastn {A} (k : nat) (l : list A) : list A := skipn (List.length l - k) l.

Definition mean (k : nat) (xs : list Q) : Q := sumQ xs / inject_Z (Z.of_nat k).

(** The true range column of [calculate_atr]: the first row has no previous
    close, and [max(axis=1)] skips the missing values. *)
Fixpoint true_ranges (prev : option Q) (bars : list PriceAction.Bar) : list Q :=
  match bars with
  | [] => []
  | b :: rest =>
      let tr1 := PriceAction.high b - PriceAction.low b in
      let tr := match prev with
                | None => tr1
                | Some pc => Qmax (Qmax tr1 (Qabs (PriceAction.high b - pc)))
                                  (Qabs (PriceAction.low b - pc))
                end in
      tr :: true_ranges (Some (PriceAction.close b)) rest
  end.

(** [calculate_atr] for a window [period >= 1] (the callers use 14). *)
Definition calculate_atr (bars : list PriceAction.Bar) (period : nat) : Q :=
  if Nat.ltb (List.length bars) period then 0
  else mean period (lastn period (true_ranges None bars)).

(** [df['close'].diff()] without its leading NaN. *)
Fixpoint diffs (closes : list Q) : list Q :=
  match closes with
  | x :: ((y :: _) as rest) => (y - x) :: diffs rest
  | _ => []
  end.

(** [calculate_rsi] for a window [period >= 1] (the callers use 14). *)
Definition calculate_rsi (closes : list Q) (period : nat) : Q :=
  if Nat.ltb (List.length closes) (period + 1) then 50
  else
    let window := lastn period (diffs closes) in
    let avg_gain := mean period (map (fun d => if qlt 0 d then d else 0) window) in
    let avg_loss := mean period (map (fun d => - (if qlt d 0 then d else 0)) window) in
    if Qeq_bool avg_loss 0 then 100
    else
      let rs := avg_gain / avg_loss in
      100 - 100 / (1 + rs).

End Utils.

(** ** [SignalGenerator._get_atr_value] (trading/signal_generator.py). The
    price-action results never carry an "atr" key, so it always computes the
    ATR from the H1 frame of the data manager: the 14-bar rolling mean of
    the true range, whose last value is NaN while the frame has fewer than
    14 rows; an empty frame gives [None]. *)
Module SignalATR.
Import NumPy Utils.

(** [df['tr']]: [tr1 = abs(high - low)], and [tr2], [tr3] against the
    previous close, missing on the first row and skipped by [max(axis=1)]. *)
Fixpoint atr_true_ranges (prev : option Q) (bars : list PriceAction.Bar) : list Q :=
  match bars with
  | [] => []
  | b :: rest =>
      let tr1 := Qabs (PriceAction.high b - PriceAction.low b) in
      let tr := match prev with
                | None => tr1
                | Some pc => Qmax (Qmax tr1 (Qabs (PriceAction.high b - pc)))
                                  (Qabs (PriceAction.low b - pc))
                end in
      tr :: atr_true_ranges (Some (PriceAction.close b)) rest
  end.

Definition get_atr_value (h1 : list PriceAction.Bar) : option npf :=
  match h1 with
  | [] => None
  | _ => if Nat.ltb (List.length h1) 14 then Some NaN
         else Some (Fin (mean 14 (lastn 14 (atr_true_ranges None h1))))
  end.

End SignalATR.

(** ** [NewsAnalyzer._extract_currencies] (src/analysis/news_analyzer.py). *)
Module News.

Definition known_currencies : list string :=
  ["USD"; "EUR"; "GBP"; "JPY"; "AUD"; "NZD"; "CAD"; "CHF"; "XAU"; "XAG"]%string.

Definition is_known (c : string) : bool := existsb (String.eqb c) known_currencies.

Definition extract_currencies (symbol : string) : list string :=
  let n := String.length symbol in
  let quote := String.substring 3 (n - 3) symbol in
  if Nat.eqb n 6 then
    let base := String.substring 0 3 symbol in
    (if is_known base then [base] else []) ++ (if is_known quote then [quote] else [])
  else if String.prefix "XAU" symbol || String.prefix "XAG" symbol then
    (if String.prefix "XAU" symbol then ["XAU"%string] else ["XAG"%string])
    ++ (if is_known quote then [quote] else [])
  else [].

End News.

(** ** [_calculate_pivot_points] (analysis/price_action_strategy.py). *)
Module Pivots.
Import PriceAction.

(** A seven-level pivot dictionary ([pp], [s1]..[s3], [r1]..[r3]). *)
Record PivotLevels := {
  pp : Q; s1 : Q; s2 : Q; s3 : Q; r1 : Q; r2 : Q; r3 : Q }.

(** The Camarilla dictionary, which also has [s4] and [r4]. *)
Record CamarillaLevels := {
  cm_pp : Q; cm_s1 : Q; cm_s2 : Q; cm_s3 : Q; cm_s4 : Q;
  cm_r1 : Q; cm_r2 : Q; cm_r3 : Q; cm_r4 : Q }.

(** [results]: [None] is a dictionary left empty ([{}]). *)
Record PivotResults := {
  classic : option PivotLevels;
  fibonacci : option PivotLevels;
  woodie : option PivotLevels;
  camarilla : option CamarillaLevels }.

Definition empty_results : PivotResults :=
  {| classic := None; fibonacci := None; woodie := None; camarilla := None |}.

Definition calculate_pivot_points (df : list Bar) : PivotResults :=
  match df with
  | [] => empty_results
  | _ :: _ =>
    let b := last df dummy_bar in
    let high := high b in
    let low := low b in
    let close := close b in
    let pp := (high + low + close) / 3 in
    let s1 := 2 * pp - high in
    let s2 := pp - (high - low) in
    let s3 := low - 2 * (high - pp) in
    let r1 := 2 * pp - low in
    let r2 := pp + (high - low) in
    let r3 := high + 2 * (pp - low) in
    let pp_woodie := (high + low + 2 * close) / 4 in
    let range_cm := high - low in
    {| classic := Some {| pp := pp; s1 := s1; s2 := s2; s3 := s3;
                          r1 := r1; r2 := r2; r3 := r3 |};
       fibonacci := Some {| pp := pp;
                            s1 := pp - (382 # 1000) * (high - low);
                            s2 := pp - (618 # 1000) * (high - low);
                            s3 := pp - 1 * (high - low);
                            r1 := pp + (382 # 1000) * (high - low);
                            r2 := pp + (618 # 1000) * (high - low);
                            r3 := pp + 1 * (high - low) |};
       woodie := Some {| pp := pp_woodie;
                         s1 := 2 * pp_woodie - high;
                         s2 := pp_woodie - (high - low);
                         s3 := s1 - (high - low);
                         r1 := 2 * pp_woodie - low;
                         r2 := pp_woodie + (high - low);
                         r3 := r1 + (high - low) |};
       camarilla := Some {| cm_pp := pp;
                            cm_s1 := close - (range_cm * (11 # 10) / 12);
                            cm_s2 := close - (range_cm * (11 # 10) / 6);
                            cm_s3 := close - (range_cm * (11 # 10) / 4);
                            cm_s4 := close - (range_cm * (11 # 10) / 2);
                            cm_r1 := close + (range_cm * (11 # 10) / 12);
                            cm_r2 := close + (range_cm * (11 # 10) / 6);
                            cm_r3 := close + (range_cm * (11 # 10) / 4);
                            cm_r4 := close + (range_cm * (11 # 10) / 2) |} |}
  end.

(** The levels of a dictionary in ascending order
    [s3 <= s2 <= s1 <= pp <= r1 <= r2 <= r3]. *)
Definition levels_ordered (v : PivotLevels) : Prop :=
  s3 v <= s2 v /\ s2 v <= s1 v /\ s1 v <= pp v /\
  pp v <= r1 v /\ r1 v <= r2 v /\ r2 v <= r3 v.

(** The Camarilla levels in ascending order around the last close. *)
Definition camarilla_ordered (c : Q) (v : CamarillaLevels) : Prop :=
  cm_s4 v <= cm_s3 v /\ cm_s3 v <= cm_s2 v /\ cm_s2 v <= cm_s1 v /\ cm_s1 v <= c /\
  c <= cm_r1 v /\ cm_r1 v <= cm_r2 v /\ cm_r2 v <= cm_r3 v /\ cm_r3 v <= cm_r4 v.

End Pivots.

(** ** Concrete bar series for the price-action detector. *)
Module PAScenarios.
Import PriceAction.

Definition bar (o h l c : Q) : Bar := {| open := o; high := h; low := l; close := c |}.

(** Ten bars whose last five alternate bullish and bearish full-body
    candles, each engulfing the previous one. *)
Definition alternating_bars : list Bar :=
  [bar (1002 # 10) (1002 # 10) 100 100; bar (1002 # 10) (1002 # 10) 100 100;
   bar (1002 # 10) (1002 # 10) 100 100; bar (1002 # 10) (1002 # 10) 100 100;
   bar (1002 # 10) (1002 # 10) 100 100;
   bar 100 (1005 # 10) 100 (1005 # 10);
   bar (1005 # 10) (1005 # 10) (998 # 10) (998 # 10);
   bar (998 # 10) (1007 # 10) (998 # 10) (1007 # 10);
   bar (1007 # 10) (1007 # 10) (996 # 10) (996 # 10);
   bar (996 # 10) (1009 # 10) (996 # 10) (1009 # 10)].

(** RSI above 70, stochastic above 80 and CCI above 100. *)
Definition overbought : list MomentumSignal :=
  [{| ms_indicator := "RSI"; ms_signal := "sell"; ms_strength := 70 |};
   {| ms_indicator := "Stochastic"; ms_signal := "sell"; ms_strength := 60 |};
   {| ms_indicator := "CCI"; ms_signal := "sell"; ms_strength := 60 |}].

Definition alternating_results : PAResults :=
  {| trend := "sideways"; trend_strength := 0;
     candle_patterns := identify_candle_patterns alternating_bars;
     momentum_signals := overbought; patterns := []; classic_pivots := [] |}.

End PAScenarios.

(** ** Concrete bar series for the ICT detector. *)
Module ICTScenarios.
Import PriceAction PAScenarios.

(** Twelve bars: five flat bars around 100, an impulse bar to 101, then
    five bars around 101 and a last bar falling back to 100.05, just below
    the bullish fair-value gap left between bars 4 and 6. *)
Definition gap_bars : list Bar :=
  [bar 100 (1001 # 10) (999 # 10) 100; bar 100 (1001 # 10) (999 # 10) 100;
   bar 100 (1001 # 10) (999 # 10) 100; bar 100 (1001 # 10) (999 # 10) 100;
   bar 100 (1001 # 10) (999 # 10) 100;
   bar 100 101 100 101;
   bar 101 (1012 # 10) (1008 # 10) 101; bar 101 (1012 # 10) (1008 # 10) 101;
   bar 101 (1012 # 10) (1008 # 10) 101; bar 101 (1012 # 10) (1008 # 10) 101;
   bar 101 (1012 # 10) (1008 # 10) 101; bar (1008 # 10) (1008 # 10) 100 (10005 # 100)].

(** Three bars, below every minimum. *)
Definition short_bars : list Bar :=
  [bar 100 101 99 100; bar 100 102 98 101; bar 101 103 100 102].

End ICTScenarios.

(** ** Concrete signals used to exercise the SignalGenerator theorems. *)
Module SignalScenarios.
Import NumPy Signals.

Definition pending_a : CandidateSignal :=
  {| signal_id := "a"; symbol := "EURUSD"; signal := "buy"; entry_price := 11 # 10;
     stop_loss := Fin (1095 # 1000); take_profit := Fin (111 # 100); risk_reward := Fin 2;
     strength := 80;
     success_probability := 73; timeframes := []; executed := false;
     status := "pending"; execution_details := None; execution_time := None |}.

Definition ticket : option (list (string * string)) := Some [("ticket"%string, "1"%string)].

Definition default_signal_settings : SignalSettings :=
  {| default_stop_loss_pips := 50; default_take_profit_pips := 100; min_rr := 3 # 2 |}.

Definition buy_analysis : AnalysisResults :=
  {| analysis_error := false;
     summary := {| a_signal := "buy"; a_strength := 80; a_success_probability := 70;
                   a_key_timeframes := ["H1"%string; "H4"%string] |};
     tf_levels := [] |}.

Definition buy_prediction : PredictionResults :=
  {| prediction_error := false; direction := "buy"; confidence := 80 |}.

End SignalScenarios.

(** ** Concrete scenarios used to exercise the theorems. *)
Module Scenarios.
Import Calendar Risk.

Definition oct15 : date := {| year := 2026; month := 10; day := 15 |}.
Definition oct16 : date := {| year := 2026; month := 10; day := 16 |}.

Definition eurusd_info : SymbolInfo :=
  {| contract_size := 100000; digits := 5; volume_min := 1 # 100; volume_max := 100 |}.

Definition broker_10k : Broker :=
  {| get_account_info := Some {| balance := 10000; free_margin := 10000 |};
     get_symbol_info := fun _ => Some eurusd_info;
     calculate_margin := fun _ _ _ => Some 100;
     get_positions := [] |}.

Definition default_settings : Settings :=
  {| max_risk_percent := 2; max_daily_risk_percent := 5; max_weekly_risk_percent := 10;
     max_lot_size := 1; max_open_positions := 5; max_positions_per_symbol := 2;
     min_risk_reward := 3 # 2 |}.

Definition eurusd_buy : Signal :=
  {| sig_symbol := "EURUSD"; sig_direction := "buy"; entry_price := 11000 # 10000;
     stop_loss := 10950 # 10000; take_profit := 11100 # 10000; success_probability := 85 |}.

(** Spec example: 4% of the daily 5% already used, reset on [oct16]. *)
Definition used_4_percent : RiskState :=
  {| risk_history := []; daily_risk := 4; weekly_risk := 4;
     last_reset_day := oct16; last_reset_week := 42 |}.

Definition reset_oct15 : RiskState :=
  {| risk_history := []; daily_risk := 3; weekly_risk := 7;
     last_reset_day := oct15; last_reset_week := 42 |}.

End Scenarios.

(** * Properties *)

Module LevelsFacts.
Import NumPy Levels.

Lemma close_nonzero t a b : ~ a == 0 -> close t a b = Qle_bool (Qabs (b - a) / a) t.
Proof.
  intro Ha. unfold close, np_div.
  destruct (Qeq_bool a 0) eqn:E; [apply Qeq_bool_iff in E; contradiction | reflexivity].
Qed.

Lemma close_zero t a b : a == 0 -> close t a b = false.
Proof.
  intro Ha. unfold close, np_div.
  assert (E : Qeq_bool a 0 = true) by (apply Qeq_bool_iff; exact Ha). rewrite E.
  assert (E2 : Qle_bool 0 (Qabs (b - a)) = true) by (apply Qle_bool_iff, Qabs_nonneg).
  rewrite E2. destruct (negb (Qle_bool (Qabs (b - a)) 0)); reflexivity.
Qed.

Lemma close_false_of_far t a b : t < Qabs (b - a) / a -> close t a b = false.
Proof.
  intro H. destruct (Qeq_dec a 0) as [Ha|Ha]; [apply close_zero, Ha|].
  rewrite (close_nonzero t a b Ha).
  destruct (Qle_bool (Qabs (b - a) / a) t) eqn:E; [|reflexivity].
  apply Qle_bool_iff in E. exfalso. apply (Qlt_not_le _ _ H E).
Qed.

Lemma close_false_iff t a b : 0 < a -> (close t a b = false <-> t < Qabs (b - a) / a).
Proof.
  intro Hp. assert (Ha : ~ a == 0) by (intro H; rewrite H in Hp; discriminate).
  split; [|apply close_false_of_far].
  rewrite (close_nonzero t a b Ha).
  intro H. apply Qnot_le_lt. intro H'. apply Qle_bool_iff in H'. congruence.
Qed.

Lemma ascending_cons y l :
  ascending l -> (forall z, In z l -> y <= z) -> ascending (y :: l).
Proof.
  intros Ha Hz. destruct l as [|x t]; simpl; [exact I|].
  split; [apply Hz; left; reflexivity | exact Ha].
Qed.

Lemma ascending_tail y l : ascending (y :: l) -> ascending l.
Proof. destruct l; simpl; tauto. Qed.

Lemma ascending_all y l : ascending (y :: l) -> forall z, In z l -> y <= z.
Proof.
  revert y. induction l as [|x t IH]; intros y Ha z Hz; [destruct Hz|].
  destruct Ha as [Hyx Ht]. destruct Hz as [<-|Hz]; [exact Hyx|].
  apply Qle_trans with x; [exact Hyx|]. exact (IH x Ht z Hz).
Qed.

Lemma insert_in x l z : In z (insert_level x l) -> z = x \/ In z l.
Proof.
  induction l as [|y t IH]; simpl.
  - intros [H|[]]. left; symmetry; exact H.
  - destruct (Qle_bool x y); simpl.
    + intros [H|H]; [left; symmetry; exact H | right; exact H].
    + intros [H|H]; [right; left; exact H|].
      destruct (IH H) as [H'|H']; [left; exact H' | right; right; exact H'].
Qed.

Lemma insert_ascending x l : ascending l -> ascending (insert_level x l).
Proof.
  induction l as [|y t IH]; intros Ha; simpl; [exact I|].
  destruct (Qle_bool x y) eqn:E.
  - apply Qle_bool_iff in E. split; assumption.
  - apply ascending_cons.
    + apply IH. exact (ascending_tail _ _ Ha).
    + intros z Hz. destruct (insert_in _ _ _ Hz) as [->|Hz'].
      * apply Qlt_le_weak. apply Qnot_le_lt. intro H.
        apply Qle_bool_iff in H. congruence.
      * exact (ascending_all _ _ Ha z Hz').
Qed.

Lemma sort_ascending l : ascending (sort_levels l).
Proof. induction l; simpl; [exact I|]. apply insert_ascending; assumption. Qed.

Lemma sort_in l z : In z (sort_levels l) -> In z l.
Proof.
  induction l as [|x t IH]; simpl; [tauto|].
  intro H. destruct (insert_in _ _ _ H) as [->|H']; [left; reflexivity|].
  right. exact (IH H').
Qed.

Lemma sort_id l : ascending l -> sort_levels l = l.
Proof.
  induction l as [|x t IH]; intros Ha; simpl; [reflexivity|].
  rewrite (IH (ascending_tail _ _ Ha)).
  destruct t as [|y t']; simpl; [reflexivity|].
  destruct Ha as [Hxy _]. apply Qle_bool_iff in Hxy. rewrite Hxy. reflexivity.
Qed.

Lemma div_le_mono a b c : 0 < c -> a <= b -> a / c <= b / c.
Proof.
  intros Hc Hab. unfold Qdiv. apply Qmult_le_compat_r; [exact Hab|].
  apply Qinv_le_0_compat. apply Qlt_le_weak. exact Hc.
Qed.

Lemma far_mono t last l h :
  0 < last -> last <= l -> l <= h ->
  t < Qabs (l - last) / last -> t < Qabs (h - last) / last.
Proof.
  intros Hp H1 H2 Ht. apply Qlt_le_trans with (Qabs (l - last) / last); [exact Ht|].
  apply div_le_mono; [exact Hp|].
  rewrite (Qabs_pos (l - last)) by lra. rewrite (Qabs_pos (h - last)) by lra. lra.
Qed.

Lemma avg_bounds a b : a <= b -> a <= (a + b) / 2 /\ (a + b) / 2 <= b.
Proof. intro H. unfold Qdiv. change (/ 2) with (1 # 2). split; lra. Qed.

Lemma merge_from_spec t rest : forall last,
  0 < last -> ascending (last :: rest) ->
  ascending (merge_from t last rest) /\ separated t (merge_from t last rest)
  /\ head_at_least last (merge_from t last rest).
Proof.
  induction rest as [|l rest' IH]; intros last Hp Ha.
  - simpl. split; [exact I|]. split; [exact I|]. apply Qle_refl.
  - destruct Ha as [Hll Ha']. simpl.
    destruct (close t last l) eqn:E.
    + destruct (avg_bounds _ _ Hll) as [Av1 Av2].
      assert (Hm : 0 < (last + l) / 2) by lra.
      assert (Ham : ascending ((last + l) / 2 :: rest')).
      { destruct rest' as [|r rr]; [exact I|]. destruct Ha' as [Hlr Hrr].
        split; [lra | exact Hrr]. }
      destruct (IH _ Hm Ham) as [A [S H]]. split; [exact A|]. split; [exact S|].
      destruct (merge_from t ((last + l) / 2) rest') as [|h tl]; [destruct H|].
      simpl in *. lra.
    + apply (close_false_iff t last l Hp) in E.
      destruct (IH l ltac:(lra) Ha') as [A [S H]].
      destruct (merge_from t l rest') as [|h tl] eqn:Em; [destruct H|].
      simpl in H. split; [|split].
      * simpl. split; [lra | exact A].
      * simpl. split; [|exact S]. exact (far_mono t last l h Hp Hll H E).
      * simpl. apply Qle_refl.
Qed.

Lemma merge_from_separated t rest : forall x,
  separated t (x :: rest) -> merge_from t x rest = x :: rest.
Proof.
  induction rest as [|l rest' IH]; intros x Hs; simpl; [reflexivity|].
  destruct Hs as [Hx Hs'].
  assert (E : close t x l = false) by (apply close_false_of_far; exact Hx).
  rewrite E, (IH l Hs'). reflexivity.
Qed.

(** Spec example: [1.1000, 1.1003, 1.1050] with tolerance 0.05%. *)
Example merge_levels_example :
  merge_levels [11000 # 10000; 11003 # 10000; 11050 # 10000]
  = [((11000 # 10000) + (11003 # 10000)) / 2; 11050 # 10000].
Proof. reflexivity. Qed.

(** C5: for any list of (positive) price levels and any tolerance, the
    output of [merge_close_levels] is ascending, every two adjacent output
    levels are farther apart than the tolerance (relative to the lower one),
    and merging the output again returns it unchanged. *)
Theorem merge_close_levels_spec (levels : list Q) (threshold : Q)
  (Hpos : Forall (fun x => 0 < x) levels) :
  ascending (merge_close_levels levels threshold)
  /\ separated threshold (merge_close_levels levels threshold)
  /\ merge_close_levels (merge_close_levels levels threshold) threshold
     = merge_close_levels levels threshold.
Proof.
  unfold merge_close_levels at 1 2 4 5.
  pose proof (sort_ascending levels) as Hs.
  destruct (sort_levels levels) as [|first rest] eqn:E.
  - split; [exact I|]. split; [exact I|]. reflexivity.
  - assert (Hf : 0 < first).
    { assert (Hin : In first levels) by (apply sort_in; rewrite E; left; reflexivity).
      rewrite Forall_forall in Hpos. exact (Hpos first Hin). }
    destruct (merge_from_spec threshold rest first Hf Hs) as [A [S _]].
    split; [exact A|]. split; [exact S|].
    unfold merge_close_levels. rewrite (sort_id _ A).
    destruct (merge_from threshold first rest) as [|h tl]; [reflexivity|].
    apply merge_from_separated. exact S.
Qed.

Lemma merge_close_levels_spec_witness :
  Forall (fun x => 0 < x) [11000 # 10000; 11003 # 10000; 11050 # 10000]
  /\ merge_close_levels (merge_close_levels [11000 # 10000; 11003 # 10000; 11050 # 10000] (5 # 10000)) (5 # 10000)
     = merge_close_levels [11000 # 10000; 11003 # 10000; 11050 # 10000] (5 # 10000).
Proof.
  assert (H : Forall (fun x => 0 < x) [11000 # 10000; 11003 # 10000; 11050 # 10000])
    by (repeat constructor).
  split; [exact H|].
  exact (proj2 (proj2 (merge_close_levels_spec _ (5 # 10000) H))).
Defined.

End LevelsFacts.

Module AggregatorFacts.
Import Levels Aggregator.

Definition detector (sig : string) (str : Q) : DetectorResult :=
  {| signal := sig; strength := str; support_levels := [];
     resistance_levels := []; patterns := [] |}.

(** Spec example: signals {buy, buy, sell}, strengths {80, 60, 50}. *)
Example create_timeframe_summary_example :
  let s := create_timeframe_summary (detector "buy" 80) (detector "buy" 60)
                                    (detector "sell" 50) in
  tf_signal s = "buy"%string /\ confidence s = "medium"%string
  /\ tf_strength s == 190 # 3.
Proof. vm_compute. split; [reflexivity|]. split; [reflexivity|]. reflexivity. Qed.

(** C6 (as stated, refuted): three detectors that all agree on "neutral"
    agree unanimously, yet the confidence tier is "low", not "high". *)
Lemma create_timeframe_summary_unanimous_neutral_not_high :
  let d := detector "neutral" 0 in
  (signal d = signal d /\ signal d = signal d)
  /\ confidence (create_timeframe_summary d d d) = "low"%string
  /\ confidence (create_timeframe_summary d d d) <> "high"%string.
Proof. vm_compute. split; [split; reflexivity|]. split; [reflexivity|]. discriminate. Qed.

Lemma count_signal_three (x a b c : string) :
  count_signal x [a; b; c] = 3%nat <-> a = x /\ b = x /\ c = x.
Proof.
  unfold count_signal. simpl.
  destruct (String.eqb_spec x a) as [<-|Ha]; destruct (String.eqb_spec x b) as [<-|Hb];
    destruct (String.eqb_spec x c) as [<-|Hc]; simpl;
    split; intro H; try discriminate; try tauto; try reflexivity;
    destruct H as [H1 [H2 H3]]; congruence.
Qed.

(** C6 (amended): the direction is "buy" iff more detectors say "buy" than
    "sell", "sell" iff more say "sell" than "buy", and "neutral" iff the
    two counts are equal (neutral signals do not vote); the tier is "high"
    iff all three say "buy" or all three say "sell", "medium" iff otherwise
    exactly two say "buy" or exactly two say "sell", and "low" iff neither
    count is 3 or 2; the strength is the mean of the three detector
    strengths. *)
Theorem create_timeframe_summary_spec (ict smc pa : DetectorResult) :
  let sigs := [signal ict; signal smc; signal pa] in
  let s := create_timeframe_summary ict smc pa in
  (tf_signal s = "buy"%string
     <-> (count_signal "sell" sigs < count_signal "buy" sigs)%nat)
  /\ (tf_signal s = "sell"%string
     <-> (count_signal "buy" sigs < count_signal "sell" sigs)%nat)
  /\ (confidence s = "high"%string
     <-> (signal ict = "buy" /\ signal smc = "buy" /\ signal pa = "buy")%string
         \/ (signal ict = "sell" /\ signal smc = "sell" /\ signal pa = "sell")%string)
  /\ (tf_signal s = "neutral"%string
     <-> count_signal "buy" sigs = count_signal "sell" sigs)
  /\ (confidence s = "medium"%string
     <-> confidence s <> "high"%string
         /\ (count_signal "buy" sigs = 2 \/ count_signal "sell" sigs = 2)%nat)
  /\ (confidence s = "low"%string
     <-> (count_signal "buy" sigs <> 3 /\ count_signal "sell" sigs <> 3
          /\ count_signal "buy" sigs <> 2 /\ count_signal "sell" sigs <> 2)%nat)
  /\ tf_strength s == (strength ict + strength smc + strength pa) / 3.
Proof.
  intros sigs s.
  rewrite <- (count_signal_three "buy"), <- (count_signal_three "sell").
  unfold s, create_timeframe_summary. cbn zeta. fold sigs. simpl tf_signal. simpl confidence.
  simpl tf_strength.
  set (nb := count_signal "buy" sigs). set (ns := count_signal "sell" sigs).
  split; [|split; [|split; [|split; [|split; [|split]]]]].
  - destruct (Nat.ltb_spec ns nb) as [L1|L1]; [split; auto|].
    destruct (Nat.ltb nb ns); split; intro H; try discriminate; lia.
  - destruct (Nat.ltb_spec ns nb) as [L1|L1].
    + split; intro H; [discriminate | lia].
    + destruct (Nat.ltb_spec nb ns) as [L2|L2]; split; intro H;
        try discriminate; try lia; reflexivity.
  - destruct (Nat.eqb_spec nb 3); destruct (Nat.eqb_spec ns 3); simpl;
      [split; auto..|].
    destruct (Nat.eqb nb 2 || Nat.eqb ns 2); split; intro H;
      try discriminate; destruct H; contradiction.
  - destruct (Nat.ltb_spec ns nb) as [L1|L1].
    + split; intro H; [discriminate | lia].
    + destruct (Nat.ltb_spec nb ns) as [L2|L2]; split; intro H;
        try discriminate; try lia; reflexivity.
  - destruct (Nat.eqb_spec nb 3); destruct (Nat.eqb_spec ns 3); simpl;
      try (split; [discriminate | intros [H _]; contradiction H; reflexivity]).
    destruct (Nat.eqb_spec nb 2); destruct (Nat.eqb_spec ns 2); simpl;
      split; intro H; try discriminate; try tauto;
      try (split; [discriminate | tauto]); destruct H as [_ [H|H]]; contradiction.
  - destruct (Nat.eqb_spec nb 3); destruct (Nat.eqb_spec ns 3); simpl;
      [split; [discriminate | tauto]..|].
    destruct (Nat.eqb_spec nb 2); destruct (Nat.eqb_spec ns 2); simpl;
      split; intro H; try discriminate; try tauto; reflexivity.
  - reflexivity.
Qed.

Lemma lookup_map_values (g : string -> Q -> Q) k m :
  lookup k (map (fun '(tf, w) => (tf, g tf w)) m)
  = match lookup k m with Some w => Some (g k w) | None => None end.
Proof.
  induction m as [|[k' w] m IH]; simpl; [reflexivity|].
  destruct (String.eqb_spec k k') as [->|_]; [reflexivity | exact IH].
Qed.

Lemma get_weight_nonneg tf : 0 <= get_weight timeframe_weights tf.
Proof.
  unfold get_weight; simpl.
  repeat match goal with |- context [if ?b then _ else _] => destruct b end;
    unfold Qle; simpl; lia.
Qed.

Lemma get_weight_known_pos tf :
  In tf (map fst timeframe_weights) -> 0 < get_weight timeframe_weights tf.
Proof.
  simpl. intros [<-|[<-|[<-|[<-|[<-|[]]]]]]; reflexivity.
Qed.

Lemma sumQ_nonneg_pos keys :
  (exists k, In k keys /\ 0 < get_weight timeframe_weights k) ->
  0 < sumQ (map (get_weight timeframe_weights) keys).
Proof.
  induction keys as [|k ks IH]; intros [k0 [Hin Hp]]; [destruct Hin|].
  simpl. destruct Hin as [->|Hin].
  - assert (0 <= sumQ (map (get_weight timeframe_weights) ks)).
    { clear. induction ks as [|x t IH]; simpl; [apply Qle_refl|].
      pose proof (get_weight_nonneg x). lra. }
    lra.
  - pose proof (get_weight_nonneg k). specialize (IH (ex_intro _ k0 (conj Hin Hp))). lra.
Qed.

Lemma sumQ_ext (f g : string -> Q) l :
  (forall x, In x l -> f x == g x) -> sumQ (map f l) == sumQ (map g l).
Proof.
  induction l as [|x t IH]; intro H; simpl; [reflexivity|].
  rewrite (H x (or_introl eq_refl)), IH; [reflexivity|].
  intros y Hy. apply H. right. exact Hy.
Qed.

Lemma sumQ_div (f : string -> Q) l c :
  ~ c == 0 -> sumQ (map (fun x => f x / c) l) == sumQ (map f l) / c.
Proof.
  intro Hc. induction l as [|x t IH]; simpl.
  - field. exact Hc.
  - rewrite IH. field. exact Hc.
Qed.

(** C7: for any non-empty set of known timeframes present in the results,
    the renormalised weights of the present timeframes sum to 1. *)
Theorem normalized_weights_sum_one (keys : list string)
  (Hne : keys <> [])
  (Hknown : Forall (fun tf => In tf (map fst timeframe_weights)) keys) :
  sumQ (map (get_weight (normalized_weights keys)) keys) == 1.
Proof.
  assert (Ht : 0 < total_weight keys).
  { unfold total_weight. apply sumQ_nonneg_pos.
    destruct keys as [|k ks]; [contradiction|]. exists k. split; [left; reflexivity|].
    apply get_weight_known_pos. inversion Hknown; assumption. }
  assert (Htn : ~ total_weight keys == 0).
  { intro H. rewrite H in Ht. apply (Qlt_irrefl 0 Ht). }
  transitivity (sumQ (map (fun tf => get_weight timeframe_weights tf / total_weight keys) keys)).
  - apply sumQ_ext. intros x Hx.
    unfold normalized_weights. destruct (Qlt_le_dec 0 (total_weight keys)) as [_|Hle];
      [|exfalso; apply (Qlt_not_le _ _ Ht Hle)].
    unfold get_weight at 1.
    rewrite (lookup_map_values
               (fun tf w => if existsb (String.eqb tf) keys then w / total_weight keys else w)).
    assert (E : existsb (String.eqb x) keys = true).
    { apply existsb_exists. exists x. split; [exact Hx | apply String.eqb_refl]. }
    rewrite E. unfold get_weight. destruct (lookup x timeframe_weights); [reflexivity|].
    field. exact Htn.
  - rewrite sumQ_div by exact Htn. fold (total_weight keys). field. exact Htn.
Qed.

Lemma normalized_weights_sum_one_witness :
  ["H1"; "D1"]%string <> []
  /\ Forall (fun tf => In tf (map fst timeframe_weights)) ["H1"; "D1"]%string
  /\ sumQ (map (get_weight (normalized_weights ["H1"; "D1"]%string)) ["H1"; "D1"]%string) == 1.
Proof.
  assert (H1 : ["H1"; "D1"]%string <> []) by discriminate.
  assert (H2 : Forall (fun tf => In tf (map fst timeframe_weights)) ["H1"; "D1"]%string).
  { repeat constructor; simpl; tauto. }
  split; [exact H1|]. split; [exact H2|].
  exact (normalized_weights_sum_one _ H1 H2).
Defined.

(** C4 (as stated, refuted): for an impact of 5 the term added to the buy
    weight is 0.1, not min(0.1 * |5|, 1.0) = 0.5. *)
Lemma add_news_impact_term_is_not_min_scaled :
  fst (add_news_impact (Some 5) 0 0) == 1 # 10
  /\ ~ fst (add_news_impact (Some 5) 0 0) == 0 + py_min ((1 # 10) * Qabs 5) 1.
Proof. vm_compute. split; [reflexivity | discriminate]. Qed.

Lemma py_min_le_r a b : py_min a b <= b.
Proof.
  unfold py_min. destruct (Qle_bool a b) eqn:E; [apply Qle_bool_iff; exact E | apply Qle_refl].
Qed.

Lemma py_min_pos a b : 0 < a -> 0 < b -> 0 < py_min a b.
Proof. unfold py_min. destruct (Qle_bool a b); auto. Qed.

Lemma py_min_ext a a' b : a == a' -> py_min a b == py_min a' b.
Proof.
  unfold py_min. intro H. destruct (Qle_bool a b) eqn:E1; destruct (Qle_bool a' b) eqn:E2;
    try exact H; try reflexivity.
  - apply Qle_bool_iff in E1. rewrite H in E1. apply Qle_bool_iff in E1. congruence.
  - apply Qle_bool_iff in E2. rewrite <- H in E2. apply Qle_bool_iff in E2. congruence.
Qed.

(** C4 (amended): for a non-zero impact the added term is
    0.1 * min(|impact|, 1.0), so it lies in (0, 0.1]; it goes to the buy
    weight for a positive impact and to the sell weight for a negative one,
    and the other side is left unchanged. *)
Theorem add_news_impact_spec (impact bw sw : Q) (Hnz : ~ impact == 0) :
  let term := (1 # 10) * py_min (Qabs impact) 1 in
  0 < term /\ term <= 1 # 10
  /\ (0 < impact -> fst (add_news_impact (Some impact) bw sw) == bw + term
                    /\ snd (add_news_impact (Some impact) bw sw) == sw)
  /\ (impact < 0 -> fst (add_news_impact (Some impact) bw sw) == bw
                    /\ snd (add_news_impact (Some impact) bw sw) == sw + term).
Proof.
  intro term.
  assert (Ha : 0 < Qabs impact).
  { destruct (Qlt_le_dec 0 impact) as [H|H].
    - rewrite Qabs_pos; lra.
    - rewrite Qabs_neg by exact H. destruct (Qeq_dec impact 0); [contradiction|].
      assert (impact < 0) by (apply Qle_lteq in H; destruct H; [assumption|contradiction]).
      lra. }
  split; [|split; [|split]].
  - unfold term. pose proof (py_min_pos (Qabs impact) 1 Ha ltac:(reflexivity)). lra.
  - unfold term. pose proof (py_min_le_r (Qabs impact) 1). lra.
  - intro Hp. unfold add_news_impact.
    destruct (Qlt_le_dec 0 impact) as [_|H]; [|exfalso; apply (Qlt_not_le _ _ Hp H)].
    simpl. split; [|reflexivity]. unfold term.
    rewrite (py_min_ext (Qabs impact) impact 1) by (apply Qabs_pos; lra). reflexivity.
  - intro Hn. unfold add_news_impact.
    destruct (Qlt_le_dec 0 impact) as [H|_]; [exfalso; lra|].
    destruct (Qlt_le_dec impact 0) as [_|H]; [|exfalso; apply (Qlt_not_le _ _ Hn H)].
    simpl. split; reflexivity.
Qed.

Lemma add_news_impact_spec_witness :
  ~ (5 : Q) == 0 /\ fst (add_news_impact (Some 5) 0 0) == 0 + (1 # 10) * py_min (Qabs 5) 1.
Proof.
  assert (H : ~ (5 : Q) == 0) by discriminate.
  split; [exact H|].
  exact (proj1 (proj1 (proj2 (proj2 (add_news_impact_spec 5 0 0 H))) ltac:(reflexivity))).
Defined.

End AggregatorFacts.

Module RiskFacts.
Import Calendar Aggregator Risk LevelsFacts AggregatorFacts.








(** Spec example: balance 10000, 4% of 5% used, full 2% requested: the
    risk amount is capped to the remaining 1% (100 units). *)
Example calculate_risk_params_capped :
  risk_amount (fst (calculate_risk_params Scenarios.default_settings Scenarios.broker_10k
                      Scenarios.oct16 Scenarios.eurusd_buy Scenarios.used_4_percent)) == 100.
Proof. vm_compute. reflexivity. Qed.


(** C9: a query on a new calendar day resets the daily counter to 0 and,
    within the same ISO week number, leaves the weekly counter unchanged;
    the weekly counter is reset only when the ISO week number differs from
    the one of the last weekly reset; nothing is reset outside a query: the
    commit adds the same percentage to both counters and keeps the reset
    marks. *)
Theorem update_risk_tracking_lazy_resets (now : date) (st : RiskState) :
  (date_eqb now (last_reset_day st) = false ->
     daily_risk (update_risk_tracking now st) = 0
     /\ (get_week_number now = last_reset_week st ->
         weekly_risk (update_risk_tracking now st) = weekly_risk st))
  /\ (date_eqb now (last_reset_day st) = true ->
     daily_risk (update_risk_tracking now st) = daily_risk st)
  /\ (weekly_risk (update_risk_tracking now st) <> weekly_risk st ->
     get_week_number now <> last_reset_week st)
  /\ (forall br t sym dir ra,
        let st' := update_risk_history br t sym dir ra st in
        last_reset_day st' = last_reset_day st
        /\ last_reset_week st' = last_reset_week st
        /\ daily_risk st' - daily_risk st == weekly_risk st' - weekly_risk st).
Proof.
  unfold update_risk_tracking.
  split; [|split; [|split]].
  - intro E. rewrite E. simpl.
    destruct (Z.eqb_spec (get_week_number now) (last_reset_week st)) as [Hw|Hw]; simpl;
      split; try reflexivity; intro H; contradiction.
  - intro E. rewrite E. simpl.
    destruct (Z.eqb_spec (get_week_number now) (last_reset_week st)); reflexivity.
  - intros Hne Heq. apply Hne.
    destruct (negb (date_eqb now (last_reset_day st))); simpl;
      rewrite Heq, Z.eqb_refl; reflexivity.
  - intros br t sym dir ra. unfold update_risk_history.
    destruct (get_account_info br); simpl; [|split; [|split]; [reflexivity|reflexivity|ring]].
    split; [reflexivity|]. split; [reflexivity|]. ring.
Qed.

Lemma update_risk_tracking_lazy_resets_witness :
  date_eqb Scenarios.oct16 (last_reset_day Scenarios.reset_oct15) = false
  /\ get_week_number Scenarios.oct16 = last_reset_week Scenarios.reset_oct15
  /\ daily_risk (update_risk_tracking Scenarios.oct16 Scenarios.reset_oct15) = 0
  /\ weekly_risk (update_risk_tracking Scenarios.oct16 Scenarios.reset_oct15)
     = weekly_risk Scenarios.reset_oct15.
Proof.
  assert (E1 : date_eqb Scenarios.oct16 (last_reset_day Scenarios.reset_oct15) = false)
    by reflexivity.
  assert (E2 : get_week_number Scenarios.oct16 = last_reset_week Scenarios.reset_oct15)
    by reflexivity.
  destruct (proj1 (update_risk_tracking_lazy_resets Scenarios.oct16 Scenarios.reset_oct15) E1)
    as [H3 H4].
  split; [exact E1|]. split; [exact E2|]. split; [exact H3 | exact (H4 E2)].
Defined.

End RiskFacts.

Module SignalFacts.
Import NumPy Aggregator Signals.

Lemma get_set_first (sid sid' : string) (f : CandidateSignal -> CandidateSignal)
    (hist : list CandidateSignal) :
  (forall s, signal_id (f s) = signal_id s) ->
  get_signal_by_id sid (set_first sid' f hist)
  = if String.eqb sid' sid then option_map f (get_signal_by_id sid hist)
    else get_signal_by_id sid hist.
Proof.
  intro Hf. induction hist as [|s rest IH]; simpl.
  - destruct (String.eqb sid' sid); reflexivity.
  - destruct (String.eqb_spec (signal_id s) sid') as [E|E].
    + simpl. rewrite Hf, E.
      destruct (String.eqb_spec sid' sid) as [E'|E']; [reflexivity|].
      destruct (String.eqb_spec (signal_id s) sid) as [E2|E2]; [congruence|reflexivity].
    + simpl. rewrite IH.
      destruct (String.eqb_spec (signal_id s) sid) as [E2|E2];
        destruct (String.eqb_spec sid' sid) as [E3|E3]; try reflexivity; congruence.
Qed.

Lemma apply_status_id st d t s : signal_id (apply_status st d t s) = signal_id s.
Proof. reflexivity. Qed.

Lemma get_signal_by_id_some sid hist s :
  get_signal_by_id sid hist = Some s -> signal_id s = sid.
Proof.
  induction hist as [|r rest IH]; simpl; [discriminate|].
  destruct (String.eqb_spec (signal_id r) sid); [congruence | exact IH].
Qed.

(** Raw [update_signal_status] on an executed signal: it reports success
    and the status becomes "expired". *)
Example update_signal_status_overwrites_terminal :
  let h := [{| signal_id := "a"; symbol := "EURUSD"; signal := "buy"; entry_price := 1;
               stop_loss := Fin 1; take_profit := Fin 1; risk_reward := Fin 2; strength := 80;
               success_probability := 70; timeframes := []; executed := true;
               status := "executed"; execution_details := Some [("ticket"%string, "1"%string)];
               execution_time := Some 0%Z |}] in
  fst (update_signal_status "a" "expired" None 1 h) = true
  /\ option_map status (get_signal_by_id "a" (snd (update_signal_status "a" "expired" None 1 h)))
     = Some "expired"%string.
Proof. split; reflexivity. Qed.

Lemma combine_signals_cases an pr :
  c_signal (combine_signals an pr) = "buy"%string
  \/ c_signal (combine_signals an pr) = "sell"%string
  \/ c_signal (combine_signals an pr) = "neutral"%string.
Proof.
  unfold combine_signals.
  repeat match goal with |- context [if ?b then _ else _] => destruct b end; simpl; auto.
Qed.

Lemma qlt_false a b : qlt a b = false -> b <= a.
Proof. unfold qlt. intro H. apply Qle_bool_imp_le. destruct (Qle_bool b a); easy. Qed.

Lemma qlt_true a b : qlt a b = true -> a < b.
Proof.
  unfold qlt. intro H. apply Qnot_le_lt. intro Hle.
  apply Qle_bool_iff in Hle. rewrite Hle in H. discriminate.
Qed.

Lemma qlt_complete a b : a < b -> qlt a b = true.
Proof.
  unfold qlt. intro H. destruct (Qle_bool b a) eqn:E; [|reflexivity].
  apply Qle_bool_iff in E. exfalso. apply (Qlt_not_le _ _ H E).
Qed.

Lemma calculate_sl_tp_np_agrees cfg sym sig entry an atr :
  calculate_sl_tp_np cfg sym sig entry an (option_map Fin atr)
  = (Fin (fst (calculate_sl_tp cfg sym sig entry an atr)),
     Fin (snd (calculate_sl_tp cfg sym sig entry an atr))).
Proof.
  destruct atr as [a|].
  2:{ unfold calculate_sl_tp_np, calculate_sl_tp. destruct (String.eqb sig "buy"); reflexivity. }
  unfold calculate_sl_tp_np, calculate_sl_tp, qlt. cbv zeta.
  cbn [option_map np_lt np_mul np_sub np_add].
  repeat (cbn [np_lt np_mul np_sub np_add fst snd];
    match goal with |- context [if ?b then _ else _] =>
      lazymatch b with context [if _ then _ else _] => fail | _ => destruct b end end).
  all: reflexivity.
Qed.

Lemma calculate_risk_reward_np_agrees sig entry sl tp :
  calculate_risk_reward_np sig entry (Fin sl) (Fin tp)
  = Fin (calculate_risk_reward sig entry sl tp).
Proof.
  unfold calculate_risk_reward_np, calculate_risk_reward.
  destruct (String.eqb sig "buy"); cbn [np_sub np_le np_fdiv];
  match goal with |- context [Qle_bool ?r 0] =>
    destruct (Qle_bool r 0) eqn:E; [reflexivity|];
    unfold np_div; destruct (Qeq_bool r 0) eqn:E2; [|reflexivity];
    apply Qeq_bool_iff in E2; rewrite E2 in E; discriminate
  end.
Qed.

Lemma calculate_sl_tp_np_nan cfg sym sig entry an :
  calculate_sl_tp_np cfg sym sig entry an (Some NaN) = (NaN, NaN).
Proof.
  unfold calculate_sl_tp_np. cbv zeta. cbn [np_lt np_mul np_sub np_add].
  rewrite !andb_false_r.
  destruct (String.eqb sig "buy"); cbn [np_lt np_mul np_sub np_add np_neg];
    rewrite ?andb_false_r; destruct (String.eqb sig "sell"); reflexivity.
Qed.

Lemma calculate_risk_reward_np_nan sig entry :
  calculate_risk_reward_np sig entry NaN NaN = NaN.
Proof. unfold calculate_risk_reward_np. destruct (String.eqb sig "buy"); reflexivity. Qed.

Lemma np_lt_fin_false x m :
  np_lt x (Fin m) = false -> x = NaN \/ np_le (Fin m) x = true.
Proof.
  destruct x as [q| | |]; cbn; intro H.
  - right. destruct (Qle_bool m q); [reflexivity | discriminate].
  - right. reflexivity.
  - discriminate.
  - left. reflexivity.
Qed.

(** C8 (code bug): the risk/reward filter lets through a signal whose ATR
    is NaN. With 1 to 13 rows in the H1 frame [_get_atr_value] returns NaN;
    [_calculate_sl_tp] then returns a NaN stop loss and take profit (every
    comparison with NaN is false, every sum with it NaN),
    [_calculate_risk_reward] a NaN ratio ([nan <= 0] is false and
    [nan / nan] is NaN), and [nan < min_risk_reward] is false. So every
    non-neutral blend of strength at least 40 is emitted, with a risk/reward
    that is not at least the configured minimum. *)
Theorem generate_signal_nan_atr_bypasses_min_rr (cfg : SignalSettings) (fid sym : string)
    (an : AnalysisResults) (pr : PredictionResults) (entry : Q)
    (h1 : list PriceAction.Bar) (hist : list CandidateSignal)
    (Han : analysis_error an = false) (Hpr : prediction_error pr = false)
    (Hdir : c_signal (combine_signals (summary an) pr) <> "neutral"%string)
    (Hstr : 40 <= c_strength (combine_signals (summary an) pr))
    (Hh1 : (1 <= List.length h1 < 14)%nat) :
  SignalATR.get_atr_value h1 = Some NaN
  /\ exists c,
       fst (generate_signal cfg fid sym an pr (Some entry) (SignalATR.get_atr_value h1) hist)
       = Some c
       /\ (signal c = "buy"%string \/ signal c = "sell"%string)
       /\ stop_loss c = NaN /\ take_profit c = NaN /\ risk_reward c = NaN
       /\ np_le (Fin (min_rr cfg)) (risk_reward c) = false.
Proof.
  assert (Hatr : SignalATR.get_atr_value h1 = Some NaN).
  { unfold SignalATR.get_atr_value. destruct h1 as [|b t]; [simpl in Hh1; lia|].
    replace (Nat.ltb (List.length (b :: t)) 14) with true; [reflexivity|].
    symmetry. apply Nat.ltb_lt. lia. }
  split; [exact Hatr|]. rewrite Hatr.
  unfold generate_signal. rewrite Han, Hpr. cbn [orb].
  set (sd := combine_signals (summary an) pr) in *.
  replace (String.eqb (c_signal sd) "neutral" || qlt (c_strength sd) 40) with false.
  2:{ symmetry. apply orb_false_iff. split; [apply String.eqb_neq, Hdir|].
      unfold qlt. apply Qle_bool_iff in Hstr. rewrite Hstr. reflexivity. }
  rewrite calculate_sl_tp_np_nan. cbn [fst snd]. rewrite calculate_risk_reward_np_nan.
  cbn. eexists. split; [reflexivity|]. cbn.
  split; [|repeat split].
  destruct (combine_signals_cases (summary an) pr) as [H|[H|H]];
    [left; exact H | right; exact H | contradiction].
Qed.

Lemma generate_signal_nan_atr_bypasses_min_rr_witness :
  exists c,
    fst (generate_signal SignalScenarios.default_signal_settings "b" "EURUSD"
           SignalScenarios.buy_analysis SignalScenarios.buy_prediction (Some (11 # 10))
           (SignalATR.get_atr_value ICTScenarios.short_bars) [])
    = Some c /\ risk_reward c = NaN.
Proof.
  assert (H1 : analysis_error SignalScenarios.buy_analysis = false) by reflexivity.
  assert (H2 : prediction_error SignalScenarios.buy_prediction = false) by reflexivity.
  assert (H3 : c_signal (combine_signals (summary SignalScenarios.buy_analysis)
                           SignalScenarios.buy_prediction) <> "neutral"%string)
    by (vm_compute; discriminate).
  assert (H4 : 40 <= c_strength (combine_signals (summary SignalScenarios.buy_analysis)
                                   SignalScenarios.buy_prediction))
    by (apply Qle_bool_iff; vm_compute; reflexivity).
  assert (H5 : (1 <= List.length ICTScenarios.short_bars < 14)%nat) by (vm_compute; lia).
  destruct (generate_signal_nan_atr_bypasses_min_rr SignalScenarios.default_signal_settings
              "b" "EURUSD" SignalScenarios.buy_analysis SignalScenarios.buy_prediction
              (11 # 10) ICTScenarios.short_bars [] H1 H2 H3 H4 H5)
    as [_ [c [Hc [_ [_ [_ [Hr _]]]]]]].
  exists c. split; [exact Hc | exact Hr].
Defined.

(** Every emitted signal has direction "buy" or "sell", blended strength
    at least 40, and a risk/reward that is at least the configured minimum
    or NaN; with no ATR or a finite one it is a number at least the
    minimum. A neutral or weak blend, or a ratio below the minimum, gives
    no signal. *)
Theorem generate_signal_emits_only_qualified (cfg : SignalSettings) (fid sym : string)
    (an : AnalysisResults) (pr : PredictionResults) (lp : option Q) (atr : option npf)
    (hist : list CandidateSignal) :
  (forall c h', generate_signal cfg fid sym an pr lp atr hist = (Some c, h') ->
     (signal c = "buy"%string \/ signal c = "sell"%string)
     /\ 40 <= strength c
     /\ (risk_reward c = NaN \/ np_le (Fin (min_rr cfg)) (risk_reward c) = true)
     /\ ((forall x, atr = Some x -> exists a, x = Fin a) ->
         exists r, risk_reward c = Fin r /\ min_rr cfg <= r))
  /\ (c_signal (combine_signals (summary an) pr) = "neutral"%string
      \/ c_strength (combine_signals (summary an) pr) < 40 ->
      fst (generate_signal cfg fid sym an pr lp atr hist) = None)
  /\ (forall entry, lp = Some entry ->
      let sd := combine_signals (summary an) pr in
      let sltp := calculate_sl_tp_np cfg sym (c_signal sd) entry an atr in
      np_lt (calculate_risk_reward_np (c_signal sd) entry (fst sltp) (snd sltp))
            (Fin (min_rr cfg)) = true ->
      fst (generate_signal cfg fid sym an pr lp atr hist) = None).
Proof.
  unfold generate_signal.
  destruct (analysis_error an || prediction_error pr).
  { split; [discriminate|]. split; intros; reflexivity. }
  destruct lp as [entry|].
  2:{ split; [discriminate|]. split; [reflexivity|]. intros e He. discriminate He. }
  set (sd := combine_signals (summary an) pr).
  split; [|split].
  - intros c h'.
    destruct (String.eqb (c_signal sd) "neutral" || qlt (c_strength sd) 40) eqn:E1;
      [discriminate|].
    apply orb_false_iff in E1. destruct E1 as [E1 E2].
    destruct (np_lt _ (Fin (min_rr cfg))) eqn:E3; [discriminate|].
    intro H. inversion H; subst; clear H. cbn [signal strength risk_reward].
    split; [|split; [|split]].
    + apply String.eqb_neq in E1.
      destruct (combine_signals_cases (summary an) pr) as [H|[H|H]];
        [left; exact H | right; exact H | contradiction].
    + apply qlt_false, E2.
    + exact (np_lt_fin_false _ _ E3).
    + intro Hfin.
      assert (Ha : atr = option_map Fin (match atr with Some (Fin a) => Some a | _ => None end)).
      { destruct atr as [x|]; [|reflexivity].
        destruct (Hfin x eq_refl) as [a ->]. reflexivity. }
      rewrite Ha in E3 |- *. rewrite calculate_sl_tp_np_agrees in E3 |- *.
      cbn [fst snd] in E3 |- *. rewrite calculate_risk_reward_np_agrees in E3 |- *.
      eexists. split; [reflexivity|].
      cbn in E3. apply Qle_bool_iff. destruct (Qle_bool _ _); [reflexivity | discriminate].
  - intros [H|H].
    + rewrite H. reflexivity.
    + rewrite (qlt_complete _ _ H), orb_true_r. reflexivity.
  - intros e He. injection He as <-. cbv zeta. intro H.
    destruct (String.eqb (c_signal sd) "neutral" || qlt (c_strength sd) 40); [reflexivity|].
    rewrite H. reflexivity.
Qed.

Lemma generate_signal_emits_only_qualified_witness :
  exists c h',
    generate_signal SignalScenarios.default_signal_settings "b" "EURUSD"
      SignalScenarios.buy_analysis SignalScenarios.buy_prediction (Some (11 # 10)) None []
    = (Some c, h')
    /\ exists r, risk_reward c = Fin r
                 /\ min_rr SignalScenarios.default_signal_settings <= r.
Proof.
  eexists. eexists. split; [vm_compute; reflexivity|].
  refine (proj2 (proj2 (proj2 (proj1 (generate_signal_emits_only_qualified
                   SignalScenarios.default_signal_settings "b" "EURUSD"
                   SignalScenarios.buy_analysis SignalScenarios.buy_prediction
                   (Some (11 # 10)) None []) _ _ _))) _).
  - vm_compute. reflexivity.
  - intros x Hx. discriminate Hx.
Defined.

End SignalFacts.

Module TelegramFacts.
Import Signals SignalFacts Telegram.

Lemma get_after_update sid st d now hist s :
  get_signal_by_id sid hist = Some s ->
  get_signal_by_id sid (snd (update_signal_status sid st d now hist))
  = Some (apply_status st d now s).
Proof.
  intro Hs. unfold update_signal_status. rewrite Hs. cbn [snd].
  rewrite get_set_first by apply apply_status_id. rewrite String.eqb_refl, Hs. reflexivity.
Qed.

Lemma mem_key_in k ks : In k ks -> mem_key k ks = true.
Proof.
  intro H. unfold mem_key. apply existsb_exists. exists k. split; [exact H | apply String.eqb_refl].
Qed.

Lemma mem_key_removed k ks : mem_key k (remove_key k ks) = false.
Proof.
  unfold mem_key, remove_key. induction ks as [|x t IH]; [reflexivity|].
  cbn [filter]. destruct (String.eqb_spec x k) as [->|E]; [exact IH|].
  cbn [negb existsb]. rewrite IH, orb_false_r. apply String.eqb_neq. congruence.
Qed.

(** C2 (code bug): the check-then-act of the two handlers is not atomic.
    Take a pending signal that is still in [pending_signals]. The user
    confirms it: [_confirm_signal] finds it "pending" and calls the broker.
    While that call is in flight the timeout thread finds the id still in
    [pending_signals] and the status still "pending", sets it to "expired"
    and drops the id. The broker call then returns and [_confirm_signal]
    calls [update_signal_status(id, "executed", ...)] without a second
    check: the terminal status "expired" becomes "executed". Run one after
    the other, the timeout handler finds the id gone and "executed" stays. *)
Theorem confirm_timeout_race_changes_terminal_status (sid : string) (d : Details) (now : Z)
    (hist : list CandidateSignal) (s : CandidateSignal) (ks : list string)
    (Hs : get_signal_by_id sid hist = Some s)
    (Hp : status s = "pending"%string) (Hk : In sid ks) :
  let s1 := run sid true (Some d) now [Confirm; Timeout; Timeout] (init hist ks) in
  let s2 := run sid true (Some d) now [Confirm] s1 in
  status_of sid (world s1) = Some "expired"%string
  /\ status_of sid (world s2) = Some "executed"%string
  /\ status_of sid (world (run sid true (Some d) now [Confirm; Confirm; Timeout; Timeout]
                              (init hist ks))) = Some "executed"%string.
Proof.
  pose proof (mem_key_in _ _ Hk) as Hm.
  set (hx := snd (update_signal_status sid "expired" None now hist)).
  set (he := snd (update_signal_status sid "executed" (Some d) now hist)).
  set (k' := remove_key sid ks).
  assert (A1 : step sid true (Some d) now (init hist ks) Confirm
               = {| cpc := CBroker; tpc := TStart;
                    world := {| store := hist; pending_signals := ks |} |}).
  { unfold step, confirm_step, init. cbn [cpc tpc world store]. rewrite Hs, Hp. reflexivity. }
  assert (A2 : step sid true (Some d) now
                 {| cpc := CBroker; tpc := TStart;
                    world := {| store := hist; pending_signals := ks |} |} Timeout
               = {| cpc := CBroker; tpc := TWait;
                    world := {| store := hist; pending_signals := ks |} |}).
  { unfold step, timeout_step. cbn [cpc tpc world pending_signals]. rewrite Hm. reflexivity. }
  assert (A3 : step sid true (Some d) now
                 {| cpc := CBroker; tpc := TWait;
                    world := {| store := hist; pending_signals := ks |} |} Timeout
               = {| cpc := CBroker; tpc := TDone;
                    world := {| store := hx; pending_signals := k' |} |}).
  { unfold step, timeout_step. cbn [cpc tpc world store pending_signals].
    rewrite Hm, Hs, Hp. reflexivity. }
  assert (A4 : step sid true (Some d) now
                 {| cpc := CBroker; tpc := TDone;
                    world := {| store := hx; pending_signals := k' |} |} Confirm
               = {| cpc := CDone; tpc := TDone;
                    world := {| store := snd (update_signal_status sid "executed" (Some d) now hx);
                                pending_signals := k' |} |}).
  { unfold step, confirm_step. cbn [cpc tpc world store pending_signals].
    unfold k'. rewrite mem_key_removed. reflexivity. }
  assert (B2 : step sid true (Some d) now
                 {| cpc := CBroker; tpc := TStart;
                    world := {| store := hist; pending_signals := ks |} |} Confirm
               = {| cpc := CDone; tpc := TStart;
                    world := {| store := he; pending_signals := k' |} |}).
  { unfold step, confirm_step. cbn [cpc tpc world store pending_signals].
    rewrite Hm. reflexivity. }
  assert (B3 : forall pc, step sid true (Some d) now
                 {| cpc := CDone; tpc := pc;
                    world := {| store := he; pending_signals := k' |} |} Timeout
               = {| cpc := CDone; tpc := TDone;
                    world := {| store := he; pending_signals := k' |} |}).
  { intro pc. unfold step, timeout_step. cbn [cpc tpc world store pending_signals].
    destruct pc; [unfold k'; rewrite mem_key_removed | unfold k'; rewrite mem_key_removed |];
      reflexivity. }
  cbv zeta. unfold run. cbn [fold_left].
  rewrite A1, A2, A3, A4, B2, !B3.
  unfold status_of. cbn [world store].
  unfold hx, he. rewrite !(get_after_update _ _ _ _ _ _ Hs).
  rewrite (get_after_update _ _ _ _ _ _ (get_after_update _ _ _ _ _ _ Hs)).
  split; [|split]; reflexivity.
Qed.

Lemma confirm_timeout_race_changes_terminal_status_witness :
  let s1 := run "a" true (Some [("ticket"%string, "1"%string)]) 5%Z [Confirm; Timeout; Timeout]
              (init [SignalScenarios.pending_a] ["a"%string]) in
  status_of "a" (world s1) = Some "expired"%string
  /\ status_of "a" (world (run "a" true (Some [("ticket"%string, "1"%string)]) 5%Z [Confirm] s1))
     = Some "executed"%string.
Proof.
  assert (H1 : get_signal_by_id "a" [SignalScenarios.pending_a] = Some SignalScenarios.pending_a)
    by reflexivity.
  assert (H2 : status SignalScenarios.pending_a = "pending"%string) by reflexivity.
  assert (H3 : In "a"%string ["a"%string]) by (left; reflexivity).
  destruct (confirm_timeout_race_changes_terminal_status "a" [("ticket"%string, "1"%string)] 5%Z
              [SignalScenarios.pending_a] SignalScenarios.pending_a ["a"%string] H1 H2 H3)
    as [A [B _]].
  split; [exact A | exact B].
Defined.

End TelegramFacts.

Module PAFacts.
Import Aggregator PriceAction PAScenarios.

(** The directional branches clamp the strength to at most 100. *)

(** C3 (price-action detector, neutral branch): on ten bars whose last
    five alternate engulfing full-body candles (three bullish, two
    bearish) with RSI, stochastic and CCI overbought, the buy score is 25.5
    and the sell score 26.5; the neutral branch returns
    [max(buy, sell) * 5 = 132.5], above 100. *)
Theorem pa_generate_signal_neutral_exceeds_100 :
  fst (generate_signal alternating_bars alternating_results) = "neutral"%string
  /\ snd (generate_signal alternating_bars alternating_results) == 265 # 2
  /\ 100 < snd (generate_signal alternating_bars alternating_results).
Proof. vm_compute. split; [reflexivity|]. split; [reflexivity|reflexivity]. Qed.

End PAFacts.

Module ICTFacts.
Import NumPy PriceAction ICT ICTScenarios.

Definition no_liquidity : Liquidity := {| buy_side := []; sell_side := [] |}.
Definition no_order_blocks : OrderBlocks := {| ob_bullish := []; ob_bearish := [] |}.
Definition no_breakers : BreakerBlocks := {| bb_bullish := []; bb_bearish := [] |}.
Definition no_gaps : FairValueGaps := {| fvg_bullish := []; fvg_bearish := [] |}.

Lemma find_liquidity_levels_short df : (n df < 30)%nat -> find_liquidity_levels df = no_liquidity.
Proof. intro H. unfold find_liquidity_levels. apply Nat.ltb_lt in H. rewrite H. reflexivity. Qed.

Lemma find_order_blocks_short df : (n df < 20)%nat -> find_order_blocks df = no_order_blocks.
Proof. intro H. unfold find_order_blocks. apply Nat.ltb_lt in H. rewrite H. reflexivity. Qed.

Lemma find_breaker_blocks_short df : (n df < 50)%nat -> find_breaker_blocks df = no_breakers.
Proof. intro H. unfold find_breaker_blocks. apply Nat.ltb_lt in H. rewrite H. reflexivity. Qed.

Lemma find_fair_value_gaps_short df : (n df < 10)%nat -> find_fair_value_gaps df = no_gaps.
Proof. intro H. unfold find_fair_value_gaps. apply Nat.ltb_lt in H. rewrite H. reflexivity. Qed.

(** Twelve bars, below the order-block (20), liquidity (30) and breaker
    (50) minimums: [analyze] still reports a bullish fair-value gap, the
    pattern "Price Approaching Bullish Fair Value Gap" and a buy signal of
    strength 55. *)
Example ict_analyze_gap_below_liquidity_minimum :
  (n gap_bars < 20)%nat
  /\ match analyze gap_bars with
     | inr r => fvg_bullish (fair_value_gaps r) <> []
                /\ ict_patterns r = ["Price Approaching Bullish Fair Value Gap"%string]
                /\ ict_signal r = "buy"%string
                /\ match ict_strength r with Fin q => q == 55 | _ => False end
     | inl _ => False
     end.
Proof.
  split; [apply Nat.ltb_lt; reflexivity|].
  vm_compute. split; [discriminate|]. split; [reflexivity|]. split; reflexivity.
Qed.

(** C10 (as the code has it): each sub-feature of the ICT detector is
    empty below its own minimum (liquidity 30, order blocks 20, breaker
    blocks 50, fair-value gaps 10 bars); a non-empty series with fewer than
    10 bars gives empty structures, no pattern, no support or resistance
    and a neutral signal of strength 0; an empty series gives the error
    result. *)
Theorem ict_analyze_below_minimums (df : list Bar) :
  analyze [] = inl "Veri bulunamadı"%string
  /\ ((n df < 30)%nat -> find_liquidity_levels df = no_liquidity)
  /\ ((n df < 20)%nat -> find_order_blocks df = no_order_blocks)
  /\ ((n df < 50)%nat -> find_breaker_blocks df = no_breakers)
  /\ ((n df < 10)%nat -> find_fair_value_gaps df = no_gaps)
  /\ (df <> [] -> (n df < 10)%nat ->
      analyze df = inr {| liquidity_levels := no_liquidity; order_blocks := no_order_blocks;
                          breaker_blocks := no_breakers; fair_value_gaps := no_gaps;
                          ict_patterns := []; support_levels := []; resistance_levels := [];
                          ict_signal := "neutral"; ict_strength := Fin 0 |}).
Proof.
  split; [reflexivity|].
  split; [apply find_liquidity_levels_short|].
  split; [apply find_order_blocks_short|].
  split; [apply find_breaker_blocks_short|].
  split; [apply find_fair_value_gaps_short|].
  intros Hne Hn. destruct df as [|b rest]; [contradiction Hne; reflexivity|].
  unfold analyze.
  rewrite (find_liquidity_levels_short (b :: rest)) by lia.
  rewrite (find_order_blocks_short (b :: rest)) by lia.
  rewrite (find_breaker_blocks_short (b :: rest)) by lia.
  rewrite (find_fair_value_gaps_short (b :: rest)) by lia.
  reflexivity.
Qed.

Lemma ict_analyze_below_minimums_witness :
  short_bars <> [] /\ (n short_bars < 10)%nat
  /\ analyze short_bars
     = inr {| liquidity_levels := no_liquidity; order_blocks := no_order_blocks;
              breaker_blocks := no_breakers; fair_value_gaps := no_gaps;
              ict_patterns := []; support_levels := []; resistance_levels := [];
              ict_signal := "neutral"; ict_strength := Fin 0 |}.
Proof.
  assert (H1 : short_bars <> []) by discriminate.
  assert (H2 : (n short_bars < 10)%nat) by (apply Nat.ltb_lt; reflexivity).
  split; [exact H1|]. split; [exact H2|].
  exact (proj2 (proj2 (proj2 (proj2 (proj2 (ict_analyze_below_minimums short_bars))))) H1 H2).
Defined.

End ICTFacts.

(** ** Shared facts on Python's [min] and [max] and on [qlt]. *)
Module PyFacts.
Import Aggregator.

Lemma pymin_cases a b : (py_min a b = a /\ a <= b) \/ (py_min a b = b /\ b < a).
Proof.
  unfold py_min. destruct (Qle_bool a b) eqn:E.
  - left. split; [reflexivity | apply Qle_bool_iff; exact E].
  - right. split; [reflexivity|]. apply Qnot_le_lt. intro H.
    apply Qle_bool_iff in H. congruence.
Qed.

Lemma pymax_cases a b : (py_max a b = a /\ b <= a) \/ (py_max a b = b /\ a < b).
Proof.
  unfold py_max. destruct (Qle_bool b a) eqn:E.
  - left. split; [reflexivity | apply Qle_bool_iff; exact E].
  - right. split; [reflexivity|]. apply Qnot_le_lt. intro H.
    apply Qle_bool_iff in H. congruence.
Qed.

Lemma pymin_le_l a b : py_min a b <= a.
Proof. destruct (pymin_cases a b) as [[-> _]|[-> H]]; lra. Qed.

Lemma pymin_le_r a b : py_min a b <= b.
Proof. destruct (pymin_cases a b) as [[-> H]|[-> _]]; lra. Qed.

Lemma pymin_glb a b c : c <= a -> c <= b -> c <= py_min a b.
Proof. destruct (pymin_cases a b) as [[-> _]|[-> _]]; auto. Qed.

Lemma pymax_ge_l a b : a <= py_max a b.
Proof. destruct (pymax_cases a b) as [[-> H]|[-> H]]; lra. Qed.

Lemma pymax_ge_r a b : b <= py_max a b.
Proof. destruct (pymax_cases a b) as [[-> H]|[-> H]]; lra. Qed.

Lemma pymax_lub a b c : a <= c -> b <= c -> py_max a b <= c.
Proof. destruct (pymax_cases a b) as [[-> _]|[-> _]]; auto. Qed.

(** [max(0, min(x, hi))] lies in [[0, hi]]. *)
Lemma clamp_bounds x hi : 0 <= hi -> 0 <= py_max 0 (py_min x hi) <= hi.
Proof.
  intro H. split; [apply pymax_ge_l|]. apply pymax_lub; [exact H | apply pymin_le_r].
Qed.

Lemma qlt_spec a b : qlt a b = true <-> a < b.
Proof.
  unfold qlt. split; intro H.
  - apply Qnot_le_lt. intro Hle. apply Qle_bool_iff in Hle. rewrite Hle in H. discriminate.
  - destruct (Qle_bool b a) eqn:E; [|reflexivity].
    apply Qle_bool_iff in E. exfalso. apply (Qlt_not_le _ _ H E).
Qed.

Lemma qlt_spec_false a b : qlt a b = false <-> b <= a.
Proof.
  unfold qlt. split; intro H.
  - apply Qle_bool_imp_le. destruct (Qle_bool b a); easy.
  - apply Qle_bool_iff in H. rewrite H. reflexivity.
Qed.

(** Python's [max] and [min] of a list return one of its elements, bound
    every element, and are monotone in the start value. *)
Lemma fold_pymax_ge xs : forall x, x <= fold_left py_max xs x.
Proof.
  induction xs as [|y t IH]; intro x; simpl; [apply Qle_refl|].
  eapply Qle_trans; [apply pymax_ge_l | apply IH].
Qed.

Lemma fold_pymax_mono xs : forall x y, x <= y -> fold_left py_max xs x <= fold_left py_max xs y.
Proof.
  induction xs as [|z t IH]; intros x y H; simpl; [exact H|].
  apply IH. apply pymax_lub; [eapply Qle_trans; [exact H | apply pymax_ge_l] | apply pymax_ge_r].
Qed.

Lemma fold_pymax_upper xs : forall x z, In z xs -> z <= fold_left py_max xs x.
Proof.
  induction xs as [|y t IH]; intros x z Hz; [destruct Hz|]. simpl.
  destruct Hz as [->|Hz]; [|apply IH; exact Hz].
  eapply Qle_trans; [apply pymax_ge_r | apply fold_pymax_ge].
Qed.

Lemma fold_pymax_in xs : forall x, In (fold_left py_max xs x) (x :: xs).
Proof.
  induction xs as [|y t IH]; intro x; simpl; [left; reflexivity|].
  destruct (pymax_cases x y) as [[-> _]|[-> _]].
  - destruct (IH x) as [H|H]; [left; exact H | right; right; exact H].
  - right. exact (IH y).
Qed.

Lemma fold_pymin_le xs : forall x, fold_left py_min xs x <= x.
Proof.
  induction xs as [|y t IH]; intro x; simpl; [apply Qle_refl|].
  eapply Qle_trans; [apply IH | apply pymin_le_l].
Qed.

Lemma fold_pymin_lower xs : forall x z, In z xs -> fold_left py_min xs x <= z.
Proof.
  induction xs as [|y t IH]; intros x z Hz; [destruct Hz|]. simpl.
  destruct Hz as [->|Hz]; [|apply IH; exact Hz].
  eapply Qle_trans; [apply fold_pymin_le | apply pymin_le_r].
Qed.

Lemma fold_pymin_in xs : forall x, In (fold_left py_min xs x) (x :: xs).
Proof.
  induction xs as [|y t IH]; intro x; simpl; [left; reflexivity|].
  destruct (pymin_cases x y) as [[-> _]|[-> _]].
  - destruct (IH x) as [H|H]; [left; exact H | right; right; exact H].
  - right. exact (IH y).
Qed.

End PyFacts.

Module SummaryFacts.
Import Aggregator Summary AggregatorFacts PyFacts.

Lemma normalized_weight_nonneg keys tf : 0 <= get_weight (normalized_weights keys) tf.
Proof.
  unfold normalized_weights.
  destruct (Qlt_le_dec 0 (total_weight keys)) as [Ht|_]; [|apply get_weight_nonneg].
  unfold get_weight.
  rewrite (lookup_map_values
             (fun tf w => if existsb (String.eqb tf) keys then w / total_weight keys else w)).
  pose proof (get_weight_nonneg tf) as Hw. unfold get_weight in Hw.
  destruct (lookup tf timeframe_weights) as [w|]; [|apply Qle_refl].
  destruct (existsb (String.eqb tf) keys); [|exact Hw].
  apply Qle_shift_div_l; [exact Ht|]. rewrite Qmult_0_l. exact Hw.
Qed.

(** The renormalised weights of the known timeframes present sum to 1. *)
Lemma normalized_weights_total (keys : list string) :
  keys <> [] -> Forall (fun tf => In tf (map fst timeframe_weights)) keys ->
  sumQ (map (get_weight (normalized_weights keys)) keys) == 1.
Proof.
  intros Hne Hknown.
  assert (Ht : 0 < total_weight keys).
  { unfold total_weight. apply sumQ_nonneg_pos.
    destruct keys as [|k ks]; [contradiction|]. exists k. split; [left; reflexivity|].
    apply get_weight_known_pos. inversion Hknown; assumption. }
  assert (Htn : ~ total_weight keys == 0).
  { intro H. rewrite H in Ht. apply (Qlt_irrefl 0 Ht). }
  transitivity (sumQ (map (fun tf => get_weight timeframe_weights tf / total_weight keys) keys)).
  - apply sumQ_ext. intros x Hx.
    unfold normalized_weights. destruct (Qlt_le_dec 0 (total_weight keys)) as [_|Hle];
      [|exfalso; apply (Qlt_not_le _ _ Ht Hle)].
    unfold get_weight at 1.
    rewrite (lookup_map_values
               (fun tf w => if existsb (String.eqb tf) keys then w / total_weight keys else w)).
    assert (E : existsb (String.eqb x) keys = true).
    { apply existsb_exists. exists x. split; [exact Hx | apply String.eqb_refl]. }
    rewrite E. unfold get_weight. destruct (lookup x timeframe_weights); [reflexivity|].
    field. exact Htn.
  - rewrite sumQ_div by exact Htn. fold (total_weight keys). field. exact Htn.
Qed.

Lemma fold_weigh_nonneg w tfs :
  (forall tf, 0 <= get_weight w tf) ->
  forall acc, 0 <= fst acc -> 0 <= snd acc ->
  0 <= fst (fold_left (weigh w) tfs acc) /\ 0 <= snd (fold_left (weigh w) tfs acc).
Proof.
  intro Hw. induction tfs as [|[tf d] t IH]; intros acc H1 H2; simpl; [auto|].
  apply IH; unfold weigh; simpl;
    destruct (tfd_summary d) as [s|]; try assumption;
    destruct (String.eqb (sv_signal s) "buy"); simpl;
    try (destruct (String.eqb (sv_signal s) "sell"); simpl);
    try assumption; pose proof (Hw tf); lra.
Qed.

Lemma fold_weigh_all_buy w tfs :
  Forall (fun it => exists s, tfd_summary (snd it) = Some s /\ sv_signal s = "buy"%string) tfs ->
  forall acc,
  fst (fold_left (weigh w) tfs acc) == fst acc + sumQ (map (get_weight w) (map fst tfs))
  /\ snd (fold_left (weigh w) tfs acc) == snd acc.
Proof.
  induction tfs as [|[tf d] t IH]; intros Hall acc; cbn [fold_left map fst sumQ].
  - split; [ring | reflexivity].
  - inversion Hall as [|? ? [s [Hs Hb]] Hrest]; subst. simpl in Hs.
    assert (Ew : weigh w acc (tf, d) = (fst acc + get_weight w tf, snd acc)).
    { unfold weigh. simpl. rewrite Hs, Hb. reflexivity. }
    destruct (IH Hrest (weigh w acc (tf, d))) as [E1 E2].
    rewrite Ew in E1, E2 |- *. cbn [fst snd] in E1, E2 |- *.
    rewrite E1, E2. split; [ring | reflexivity].
Qed.

Lemma add_news_impact_nonneg news bw sw :
  0 <= bw -> 0 <= sw ->
  0 <= fst (add_news_impact news bw sw) /\ 0 <= snd (add_news_impact news bw sw).
Proof.
  intros H1 H2. unfold add_news_impact. destruct news as [x|]; [|auto].
  destruct (Qlt_le_dec 0 x) as [Hx|Hx]; simpl.
  - split; [|exact H2].
    assert (0 <= py_min x 1) by (apply pymin_glb; [lra | discriminate]). lra.
  - destruct (Qlt_le_dec x 0); simpl; [|auto]. split; [exact H1|].
    assert (0 <= py_min (Qabs x) 1) by (apply pymin_glb; [apply Qabs_nonneg | discriminate]).
    lra.
Qed.

Lemma confirmations_all_buy tfs :
  Forall (fun it => exists s, tfd_summary (snd it) = Some s /\ sv_signal s = "buy"%string) tfs ->
  confirmations "buy" tfs = List.length tfs.
Proof.
  unfold confirmations. induction 1 as [|[tf d] t [s [Hs Hb]] _ IH]; simpl; [reflexivity|].
  simpl in Hs. rewrite Hs, Hb. simpl. rewrite IH. reflexivity.
Qed.

Lemma trend_correction_buy_lower order tfs :
  Forall (fun it => forall t ts, tfd_price_action (snd it) = Some (t, ts) -> 0 <= ts) tfs ->
  -20 <= trend_correction_from order "buy" tfs.
Proof.
  intro Hts. induction order as [|tf rest IH]; simpl; [discriminate|].
  destruct (find_tf tf tfs) as [d|] eqn:Ef; [|exact IH].
  destruct (tfd_price_action d) as [[t ts]|] eqn:Ep; [|exact IH].
  assert (Hd : 0 <= ts).
  { clear IH. induction tfs as [|[k d'] tl IHt]; simpl in Ef; [discriminate|].
    inversion Hts as [|? ? Hh Ht]; subst.
    destruct (String.eqb tf k); [injection Ef as <-; exact (Hh _ _ Ep)|].
    exact (IHt Ht Ef). }
  unfold is_buy, is_sell; simpl.
  destruct (String.eqb t "bullish").
  - apply pymin_glb; [|discriminate]. lra.
  - simpl. destruct (String.eqb t "bearish"); simpl; [|discriminate].
    pose proof (pymin_le_r (ts * (2 # 10)) 20). lra.
Qed.

Lemma news_correction_buy_nonneg r :
  (forall x, news_impact_of r = Some x -> 0 <= x) -> 0 <= news_correction "buy" r.
Proof.
  unfold news_impact_of, news_correction. intro Hn.
  destruct (r_news r) as [[x|]|]; [|vm_compute; discriminate|apply Qle_refl].
  specialize (Hn x eq_refl). unfold is_buy, is_sell; simpl.
  destruct (qlt 0 x) eqn:E; simpl.
  - apply pymin_glb; [|discriminate].
    assert (0 <= Qabs x) by apply Qabs_nonneg. lra.
  - destruct (qlt x 0) eqn:E2; simpl; [|apply Qle_refl].
    apply qlt_spec in E2. lra.
Qed.

(** The weights, the strength and the success probability of the summary
    lie in their ranges for every input, and a directional signal needs a
    lead of more than 10 points of weight. *)
Theorem create_summary_bounds (r : Results) (closes : string -> list Q) :
  let o := create_summary r closes in
  0 <= o_buy_weight o /\ 0 <= o_sell_weight o
  /\ 0 <= o_strength o <= 100
  /\ 0 <= o_success_probability o <= 100
  /\ (o_signal o = "buy"%string -> o_sell_weight o + 10 < o_buy_weight o)
  /\ (o_signal o = "sell"%string -> o_buy_weight o + 10 < o_sell_weight o).
Proof.
  intro o. unfold o, create_summary. clear o.
  set (w := normalized_weights _).
  destruct (fold_weigh_nonneg w (r_timeframes r) (normalized_weight_nonneg _) (0, 0)
              (Qle_refl 0) (Qle_refl 0)) as [A1 A2].
  set (acc := fold_left _ _ _) in *.
  destruct (add_news_impact_nonneg (news_impact_of r) _ _ A1 A2) as [B1 B2].
  set (bw := fst (add_news_impact _ _ _)) in *.
  set (sw := snd (add_news_impact _ _ _)) in *.
  assert (Hs : forall s, 0 <= s -> 0 <= py_min (s * 100) 100 <= 100).
  { intros s H. split; [apply pymin_glb; [lra | discriminate] | apply pymin_le_r]. }
  destruct (qlt (sw + (1 # 10)) bw) eqn:E1;
    [|destruct (qlt (bw + (1 # 10)) sw) eqn:E2];
    cbn [o_signal o_buy_weight o_sell_weight o_strength o_success_probability];
    (split; [lra|]); (split; [lra|]);
    (split; [apply Hs; first [lra | eapply Qle_trans; [exact B1 | apply pymax_ge_l]]|]);
    (split; [apply clamp_bounds; discriminate|]);
    split; intro Hsig; try discriminate.
  - apply qlt_spec in E1. lra.
  - apply qlt_spec in E2. lra.
Qed.

(** When every timeframe of the results is a known one and says "buy",
    with no negative news impact and non-negative trend strengths, the
    summary signal is "buy" with strength 100 and high confidence, and the
    success probability is at least 85. *)
Theorem create_summary_unanimous_buy (r : Results) (closes : string -> list Q)
  (Hne : r_timeframes r <> [])
  (Hknown : Forall (fun it => In (fst it) (map fst timeframe_weights)) (r_timeframes r))
  (Hbuy : Forall (fun it => exists s, tfd_summary (snd it) = Some s
                                   /\ sv_signal s = "buy"%string) (r_timeframes r))
  (Hnews : forall x, news_impact_of r = Some x -> 0 <= x)
  (Htrend : Forall (fun it => forall t ts, tfd_price_action (snd it) = Some (t, ts) -> 0 <= ts)
                   (r_timeframes r)) :
  let o := create_summary r closes in
  o_signal o = "buy"%string /\ o_strength o == 100 /\ o_confidence o = "high"%string
  /\ 85 <= o_success_probability o.
Proof.
  intro o. unfold o, create_summary. clear o.
  set (w := normalized_weights _).
  destruct (fold_weigh_all_buy w _ Hbuy (0, 0)) as [F1 F2].
  assert (Hsum : sumQ (map (get_weight w) (map fst (r_timeframes r))) == 1).
  { apply normalized_weights_total.
    - destruct (r_timeframes r); [contradiction | discriminate].
    - apply Forall_map. exact Hknown. }
  set (acc := fold_left _ _ _) in *. cbn [fst snd] in F1, F2.
  rewrite Hsum in F1.
  assert (Hbw : 1 <= fst (add_news_impact (news_impact_of r) (fst acc) (snd acc))
                /\ snd (add_news_impact (news_impact_of r) (fst acc) (snd acc)) == 0).
  { unfold add_news_impact. destruct (news_impact_of r) as [x|] eqn:En.
    - specialize (Hnews x eq_refl).
      destruct (Qlt_le_dec 0 x) as [Hx|Hx]; cbn [fst snd].
      + assert (0 <= py_min x 1) by (apply pymin_glb; [lra | discriminate]). lra.
      + destruct (Qlt_le_dec x 0); [lra|]. cbn [fst snd]. lra.
    - cbn [fst snd]. lra. }
  set (bw := fst (add_news_impact _ _ _)) in *.
  set (sw := snd (add_news_impact _ _ _)) in *.
  destruct Hbw as [Hb Hs].
  assert (E1 : qlt (sw + (1 # 10)) bw = true) by (apply qlt_spec; lra).
  rewrite E1.
  assert (Hstr : py_min (bw * 100) 100 == 100).
  { destruct (pymin_cases (bw * 100) 100) as [[-> H]|[-> _]]; [lra | reflexivity]. }
  cbn [o_signal o_strength o_confidence o_success_probability].
  split; [reflexivity|]. split; [exact Hstr|].
  assert (E3 : qlt 70 (py_min (bw * 100) 100) = true) by (apply qlt_spec; rewrite Hstr; reflexivity).
  rewrite E3. split; [reflexivity|].
  unfold calculate_success_probability.
  rewrite confirmations_all_buy by exact Hbuy.
  assert (Hbonus : 5 <= py_min (inject_Z (Z.of_nat (List.length (r_timeframes r))) * 5) 20).
  { apply pymin_glb; [|discriminate].
    destruct (r_timeframes r) as [|x t]; [contradiction|].
    cbn [List.length]. rewrite Nat2Z.inj_succ, <- Z.add_1_r, inject_Z_plus.
    assert (0 <= inject_Z (Z.of_nat (List.length t))).
    { change 0 with (inject_Z 0). rewrite <- Zle_Qle. lia. }
    change (inject_Z 1) with 1. lra. }
  pose proof (news_correction_buy_nonneg r Hnews) as Hn.
  pose proof (trend_correction_buy_lower ["D1"; "H4"]%string _ Htrend) as Ht.
  eapply Qle_trans; [|apply pymax_ge_r].
  apply pymin_glb; [|discriminate]. rewrite Hstr. lra.
Qed.

Lemma max_of_greatest s t z : In z (s :: t) -> z <= max_of s t.
Proof.
  unfold max_of. intros [<-|H]; [apply fold_pymax_ge | apply fold_pymax_upper; exact H].
Qed.

Lemma min_of_least s t z : In z (s :: t) -> min_of s t <= z.
Proof.
  unfold min_of. intros [<-|H]; [apply fold_pymin_le | apply fold_pymin_lower; exact H].
Qed.

(** Once a current price is found, the nearest support is the greatest
    collected support strictly below the price (none when no support is
    below it), and the nearest resistance is the least collected resistance
    strictly above the price (none when no resistance is above it). *)
Theorem find_nearest_levels_spec (r : Results) (closes : string -> list Q) (price : Q)
  (Hprice : current_price_from ["H1"; "M15"; "M5"; "H4"; "D1"]%string (r_timeframes r) closes
            = Some price) :
  let sup := all_levels sv_support_levels (r_timeframes r) in
  let res := all_levels sv_resistance_levels (r_timeframes r) in
  match fst (find_nearest_levels r closes) with
  | Some s => In s sup /\ s < price /\ (forall s', In s' sup -> s' < price -> s' <= s)
  | None => forall s', In s' sup -> price <= s'
  end
  /\ match snd (find_nearest_levels r closes) with
     | Some x => In x res /\ price < x /\ (forall x', In x' res -> price < x' -> x <= x')
     | None => forall x', In x' res -> x' <= price
     end.
Proof.
  intros sup res. unfold find_nearest_levels. rewrite Hprice. fold sup res.
  cbn [fst snd]. split.
  - destruct (filter (fun s => qlt s price) sup) as [|s t] eqn:Ef.
    + intros s' Hs'. apply qlt_spec_false.
      destruct (qlt s' price) eqn:E; [|reflexivity].
      assert (In s' (filter (fun s => qlt s price) sup)) by (apply filter_In; auto).
      rewrite Ef in H. destruct H.
    + assert (Hin : In (max_of s t) (filter (fun s => qlt s price) sup)).
      { rewrite Ef. apply fold_pymax_in. }
      apply filter_In in Hin as [Hin Hlt]. apply qlt_spec in Hlt.
      split; [exact Hin|]. split; [exact Hlt|].
      intros s' Hs' Hlt'. apply max_of_greatest. rewrite <- Ef.
      apply filter_In. split; [exact Hs' | apply qlt_spec; exact Hlt'].
  - destruct (filter (fun x => qlt price x) res) as [|x t] eqn:Ef.
    + intros x' Hx'. apply qlt_spec_false.
      destruct (qlt price x') eqn:E; [|reflexivity].
      assert (In x' (filter (fun x => qlt price x) res)) by (apply filter_In; auto).
      rewrite Ef in H. destruct H.
    + assert (Hin : In (min_of x t) (filter (fun x => qlt price x) res)).
      { rewrite Ef. apply fold_pymin_in. }
      apply filter_In in Hin as [Hin Hlt]. apply qlt_spec in Hlt.
      split; [exact Hin|]. split; [exact Hlt|].
      intros x' Hx' Hlt'. apply min_of_least. rewrite <- Ef.
      apply filter_In. split; [exact Hx' | apply qlt_spec; exact Hlt'].
Qed.

Lemma create_summary_unanimous_buy_witness :
  let r := SummaryScenarios.two_buys in
  let c := SummaryScenarios.h1_closes in
  o_signal (create_summary r c) = "buy"%string
  /\ o_strength (create_summary r c) == 100
  /\ o_confidence (create_summary r c) = "high"%string
  /\ 85 <= o_success_probability (create_summary r c).
Proof.
  intros r c.
  assert (H1 : r_timeframes r <> []) by discriminate.
  assert (H2 : Forall (fun it => In (fst it) (map fst timeframe_weights)) (r_timeframes r)).
  { repeat constructor; simpl; tauto. }
  assert (H3 : Forall (fun it => exists s, tfd_summary (snd it) = Some s
                                        /\ sv_signal s = "buy"%string) (r_timeframes r)).
  { repeat constructor; eexists; split; reflexivity. }
  assert (H4 : forall x, news_impact_of r = Some x -> 0 <= x).
  { intros x Hx. injection Hx as <-. discriminate. }
  assert (H5 : Forall (fun it => forall t ts, tfd_price_action (snd it) = Some (t, ts) -> 0 <= ts)
                 (r_timeframes r)).
  { repeat constructor; simpl; intros t ts Hts; [discriminate|].
    injection Hts as _ <-. discriminate. }
  exact (create_summary_unanimous_buy r c H1 H2 H3 H4 H5).
Defined.

Lemma find_nearest_levels_spec_witness :
  current_price_from ["H1"; "M15"; "M5"; "H4"; "D1"]%string
    (r_timeframes SummaryScenarios.two_buys) SummaryScenarios.h1_closes = Some (110 # 100)
  /\ find_nearest_levels SummaryScenarios.two_buys SummaryScenarios.h1_closes
     = (Some (108 # 100), Some (115 # 100))
  /\ In (108 # 100) (all_levels sv_support_levels (r_timeframes SummaryScenarios.two_buys)).
Proof.
  assert (H : current_price_from ["H1"; "M15"; "M5"; "H4"; "D1"]%string
                (r_timeframes SummaryScenarios.two_buys) SummaryScenarios.h1_closes
              = Some (110 # 100)) by reflexivity.
  split; [exact H|]. split; [vm_compute; reflexivity|].
  pose proof (find_nearest_levels_spec _ _ _ H) as S. cbv zeta in S.
  assert (E : fst (find_nearest_levels SummaryScenarios.two_buys SummaryScenarios.h1_closes)
              = Some (108 # 100)) by reflexivity.
  destruct S as [S _]. rewrite E in S. exact (proj1 S).
Defined.

End SummaryFacts.

Module RiskExtras.
Import Calendar Aggregator Risk PyFacts.


Lemma cap_risk_within available ra0 rp bal :
  fst (cap_risk available ra0 rp bal) <= available.
Proof.
  unfold cap_risk. destruct (Qlt_le_dec available ra0); cbn [fst]; lra.
Qed.

(** [calculate_risk_params] always reports [max_allowed = True]: when the
    requested risk exceeds the remaining daily or weekly budget it is first
    cut down to that budget, even when the budget is exhausted (zero or
    negative), so the "max risk reached" check of [can_open_position] can
    never reject a trade. *)
Theorem calculate_risk_params_max_allowed cfg br now sg st :
  max_allowed (fst (calculate_risk_params cfg br now sg st)) = true.
Proof.
  unfold calculate_risk_params.
  destruct (get_account_info br) as [acc|]; [|reflexivity].
  destruct (get_symbol_info br (sig_symbol sg)) as [si|]; [|reflexivity].
  destruct (qlt _ _ && Qeq_bool _ _); [reflexivity|].
  cbn [fst max_allowed]. apply Qle_bool_iff. apply cap_risk_within.
Qed.


(** [can_open_position] approves a trade exactly when the account is
    readable, neither position limit is reached, the free margin covers the
    required margin, the lot is at least 0.01 and the risk/reward ratio
    reaches [min_risk_reward]; the daily and weekly budgets never play a
    part in the verdict. *)
Theorem can_open_position_iff cfg br now sg st :
  let p := fst (calculate_risk_params cfg br now sg st) in
  fst (can_open_position cfg br now sg st) = true <->
  exists acc, get_account_info br = Some acc
    /\ max_positions_reached cfg br = false
    /\ symbol_limit_reached cfg br (sig_symbol sg) = false
    /\ margin_required p <= free_margin acc
    /\ 1 # 100 <= lot_size p
    /\ min_risk_reward cfg <= risk_reward_ratio p.
Proof.
  intro p. unfold p. clear p.
  pose proof (calculate_risk_params_max_allowed cfg br now sg st) as Hmax.
  unfold can_open_position.
  destruct (get_account_info br) as [acc|];
    [|split; [discriminate | intros [a [Ha _]]; discriminate]].
  destruct (max_positions_reached cfg br) eqn:E1;
    [split; [discriminate | intros [a [Ha [H _]]]; discriminate]|].
  destruct (symbol_limit_reached cfg br (sig_symbol sg)) eqn:E2;
    [split; [discriminate | intros [a [Ha [_ [H _]]]]; discriminate]|].
  destruct (calculate_risk_params cfg br now sg st) as [rpar st1]. cbn [fst] in *.
  rewrite Hmax. cbn [negb].
  split.
  - intro H. exists acc. split; [reflexivity|]. split; [reflexivity|]. split; [reflexivity|].
    destruct (Qlt_le_dec (free_margin acc) (margin_required rpar)); [discriminate|].
    destruct (Qlt_le_dec (lot_size rpar) (1 # 100)); [discriminate|].
    destruct (Qlt_le_dec (risk_reward_ratio rpar) (min_risk_reward cfg)); [discriminate|].
    auto.
  - intros [a [Ha [_ [_ [H1 [H2 H3]]]]]]. injection Ha as <-.
    destruct (Qlt_le_dec (free_margin acc) (margin_required rpar)); [exfalso; lra|].
    destruct (Qlt_le_dec (lot_size rpar) (1 # 100)); [exfalso; lra|].
    destruct (Qlt_le_dec (risk_reward_ratio rpar) (min_risk_reward cfg)); [exfalso; lra|].
    reflexivity.
Qed.

Lemma skipn_suffix {A} (k : nat) (l : list A) : exists pre, l = pre ++ skipn k l.
Proof. exists (firstn k l). symmetry. apply firstn_skipn. Qed.

(** [update_risk_history] with a readable account appends one entry for the
    trade (its date, symbol and risk amount) and keeps exactly the last
    100 entries of the extended history ([[-100:]]: the whole history while
    it is shorter, exactly 100 entries once the old one had 100 or more);
    both counters grow by the entry's risk percent, which is 0 when
    the balance is not positive. *)
Theorem update_risk_history_bounded br now symbol direction ra st acc
  (Ha : get_account_info br = Some acc) :
  let st' := update_risk_history br now symbol direction ra st in
  exists pre e,
    risk_history st ++ [e] = pre ++ risk_history st'
    /\ risk_history st'
       = skipn (List.length (risk_history st) + 1 - 100) (risk_history st ++ [e])
    /\ (List.length (risk_history st') <= 100)%nat
    /\ ((100 <= List.length (risk_history st))%nat -> List.length (risk_history st') = 100%nat)
    /\ ((List.length (risk_history st) < 100)%nat -> pre = [])
    /\ entry_date e = now /\ entry_symbol e = symbol /\ entry_risk_amount e = ra
    /\ daily_risk st' == daily_risk st + entry_risk_percent e
    /\ weekly_risk st' == weekly_risk st + entry_risk_percent e
    /\ (balance acc <= 0 -> entry_risk_percent e == 0).
Proof.
  intro st'. unfold st', update_risk_history. rewrite Ha. clear st'.
  set (e := {| entry_date := now; entry_symbol := symbol; entry_direction := direction;
               entry_risk_amount := ra; entry_risk_percent := _; entry_balance := _ |}).
  set (hist := risk_history st ++ [e]).
  assert (Hlen : List.length hist = S (List.length (risk_history st))).
  { unfold hist. rewrite length_app. simpl. lia. }
  destruct (Nat.ltb 100 (List.length hist)) eqn:E.
  - apply Nat.ltb_lt in E. destruct (skipn_suffix (List.length hist - 100) hist) as [pre Hpre].
    exists pre, e. cbn [risk_history daily_risk weekly_risk set_daily_weekly].
    split; [exact Hpre|].
    split; [f_equal; rewrite Hlen; lia|].
    split; [rewrite length_skipn; lia|]. split; [intro; rewrite length_skipn; lia|].
    split; [intro; lia|].
    do 3 (split; [reflexivity|]). split; [reflexivity|]. split; [reflexivity|].
    intro Hb. unfold e. cbn [entry_risk_percent].
    destruct (Qlt_le_dec 0 (balance acc)); [exfalso; lra | reflexivity].
  - apply Nat.ltb_ge in E. exists [], e. cbn [risk_history daily_risk weekly_risk set_daily_weekly].
    split; [reflexivity|].
    split; [replace (List.length (risk_history st) + 1 - 100)%nat with 0%nat by lia; reflexivity|].
    split; [exact E|]. split; [intro; lia|]. split; [reflexivity|].
    do 3 (split; [reflexivity|]). split; [reflexivity|]. split; [reflexivity|].
    intro Hb. unfold e. cbn [entry_risk_percent].
    destruct (Qlt_le_dec 0 (balance acc)); [exfalso; lra | reflexivity].
Qed.


Lemma update_risk_history_bounded_witness :
  (List.length (risk_history (update_risk_history Scenarios.broker_10k Scenarios.oct16
     "EURUSD" "buy" 100 Scenarios.used_4_percent)) <= 100)%nat
  /\ daily_risk (update_risk_history Scenarios.broker_10k Scenarios.oct16
     "EURUSD" "buy" 100 Scenarios.used_4_percent) == 5.
Proof.
  assert (Ha : get_account_info Scenarios.broker_10k
               = Some {| balance := 10000; free_margin := 10000 |}) by reflexivity.
  destruct (update_risk_history_bounded Scenarios.broker_10k Scenarios.oct16 "EURUSD" "buy" 100
              Scenarios.used_4_percent _ Ha) as [pre [e [_ [_ [Hl _]]]]].
  split; [exact Hl | vm_compute; reflexivity].
Defined.

End RiskExtras.

Module SignalExtras.
Import Aggregator Signals PyFacts SignalHistory.

(** With an ATR value [a], [_calculate_sl_tp] puts the stop of a buy at
    least [a/2] below the entry and its target at least [a] above it, and
    mirrors this for a sell, whatever the nearby levels are. *)
Theorem calculate_sl_tp_min_distances cfg sym sig entry an a :
  let r := calculate_sl_tp cfg sym sig entry an (Some a) in
  (sig = "buy"%string -> fst r <= entry - a * (1 # 2) /\ entry + a * 1 <= snd r)
  /\ (sig = "sell"%string -> entry + a * (1 # 2) <= fst r /\ snd r <= entry - a * 1).
Proof.
  intro r. unfold r, calculate_sl_tp. clear r. cbv zeta.
  match goal with |- context [let '(x, y) := ?p in _] => destruct p as [sl0 tp0] end.
  split; intros ->; cbn [String.eqb Ascii.eqb Bool.eqb andb fst snd].
  - destruct (qlt (entry - sl0) (a * (1 # 2))) eqn:E1;
    [|apply qlt_spec_false in E1];
    (split; [|destruct (qlt (tp0 - entry) (a * 1)) eqn:E2; [|apply qlt_spec_false in E2]]); lra.
  - destruct (qlt (sl0 - entry) (a * (1 # 2))) eqn:E1;
    [|apply qlt_spec_false in E1];
    (split; [|destruct (qlt (entry - tp0) (a * 1)) eqn:E2; [|apply qlt_spec_false in E2]]); lra.
Qed.

Lemma pips_to_price_one_pos sym : 0 < pips_to_price sym 1.
Proof. unfold pips_to_price. destruct (contains "XAU" sym), (contains "JPY" sym); reflexivity. Qed.

Theorem calculate_sl_tp_default_rr cfg sym sig entry an
  (Hsl : 0 < default_stop_loss_pips cfg)
  (Hdir : sig = "buy"%string \/ sig = "sell"%string) :
  let r := calculate_sl_tp cfg sym sig entry an None in
  calculate_risk_reward sig entry (fst r) (snd r)
  == default_take_profit_pips cfg / default_stop_loss_pips cfg.
Proof.
  intro r. unfold r, calculate_sl_tp, calculate_risk_reward. clear r. cbv zeta.
  pose proof (pips_to_price_one_pos sym) as Hp.
  set (pv := pips_to_price sym 1) in *.
  set (sl := default_stop_loss_pips cfg) in *. set (tp := default_take_profit_pips cfg).
  assert (Hr : 0 < sl * pv) by (apply Qmult_lt_0_compat; assumption).
  destruct Hdir as [->| ->]; cbn [String.eqb Ascii.eqb Bool.eqb andb fst snd].
  - assert (E : Qle_bool (entry - (entry - sl * pv)) 0 = false).
    { destruct (Qle_bool _ _) eqn:E; [|reflexivity]. apply Qle_bool_iff in E. lra. }
    rewrite E. field. repeat split; intro H; lra.
  - assert (E : Qle_bool (entry + sl * pv - entry) 0 = false).
    { destruct (Qle_bool _ _) eqn:E; [|reflexivity]. apply Qle_bool_iff in E. lra. }
    rewrite E. field. repeat split; intro H; lra.
Qed.

Lemma push_history_shape s hist :
  (List.length (push_history s hist) <= 100)%nat
  /\ exists k, push_history s hist = skipn k hist ++ [s].
Proof.
  unfold push_history. rewrite length_app. cbn [List.length].
  destruct (Nat.ltb 100 (List.length hist + 1)) eqn:E.
  - apply Nat.ltb_lt in E. split; [rewrite length_skipn, length_app; simpl; lia|].
    exists (List.length (hist ++ [s]) - 100)%nat. rewrite skipn_app, length_app. simpl.
    replace (List.length hist + 1 - 100 - List.length hist)%nat with 0%nat by lia.
    reflexivity.
  - apply Nat.ltb_ge in E. split; [rewrite length_app; simpl; lia|].
    exists 0%nat. reflexivity.
Qed.

Lemma in_skipn_map {A B} (f : A -> B) k (l : list A) x :
  In x (map f (skipn k l)) -> In x (map f l).
Proof.
  intro H. rewrite <- (firstn_skipn k l), map_app. apply in_or_app. right. exact H.
Qed.

Lemma get_signal_by_id_app sid l1 l2 :
  ~ In sid (map signal_id l1) -> get_signal_by_id sid (l1 ++ l2) = get_signal_by_id sid l2.
Proof.
  induction l1 as [|x t IH]; intro H; simpl; [reflexivity|].
  destruct (String.eqb_spec (signal_id x) sid) as [E|E].
  - exfalso. apply H. left. exact E.
  - apply IH. intro H'. apply H. right. exact H'.
Qed.

(** [generate_signal] leaves the history alone when it emits nothing; an
    emitted signal is a pending, unexecuted signal with the fresh id, stored
    last in a history of at most 100 entries that keeps a suffix of the old
    one, and it is found again by [get_signal_by_id] when the id was not in
    use. *)
Theorem generate_signal_stored cfg fid sym an pr lp atr hist :
  let res := generate_signal cfg fid sym an pr lp atr hist in
  match fst res with
  | None => snd res = hist
  | Some s =>
      signal_id s = fid /\ status s = "pending"%string /\ executed s = false
      /\ (List.length (snd res) <= 100)%nat
      /\ (exists k, snd res = skipn k hist ++ [s])
      /\ (~ In fid (map signal_id hist) -> get_signal_by_id fid (snd res) = Some s)
  end.
Proof.
  intro res. unfold res, generate_signal. clear res.
  destruct (analysis_error an || prediction_error pr); [reflexivity|].
  destruct lp as [lp|]; [|reflexivity].
  destruct (String.eqb _ "neutral" || qlt _ 40); [reflexivity|].
  destruct (NumPy.np_lt _ (NumPy.Fin (min_rr cfg))); [reflexivity|].
  cbn [fst snd signal_id status executed].
  match goal with |- context [push_history ?s hist] => set (sg := s) end.
  destruct (push_history_shape sg hist) as [Hl [k Hk]].
  split; [reflexivity|]. split; [reflexivity|]. split; [reflexivity|].
  split; [exact Hl|]. split; [exists k; exact Hk|].
  intro Hfresh. rewrite Hk, get_signal_by_id_app.
  - simpl. rewrite String.eqb_refl. reflexivity.
  - intro H. apply Hfresh. exact (in_skipn_map _ _ _ _ H).
Qed.

Lemma set_first_length sid f hist : List.length (set_first sid f hist) = List.length hist.
Proof.
  induction hist as [|s t IH]; simpl; [reflexivity|].
  destruct (String.eqb (signal_id s) sid); simpl; [reflexivity | rewrite IH; reflexivity].
Qed.

(** [update_signal_status] on an unknown id reports failure and changes
    nothing. On a known id it reports success, keeps the length of the
    history and every other id's signal, and the signal found under the id
    afterwards has the new status; it is marked executed only if it already
    was or the new status is "executed" with non-empty details. *)
Theorem update_signal_status_spec sid st d now hist :
  let r := update_signal_status sid st d now hist in
  match get_signal_by_id sid hist with
  | None => r = (false, hist)
  | Some s =>
      fst r = true
      /\ List.length (snd r) = List.length hist
      /\ (forall sid', sid' <> sid -> get_signal_by_id sid' (snd r) = get_signal_by_id sid' hist)
      /\ exists s', get_signal_by_id sid (snd r) = Some s'
          /\ signal_id s' = signal_id s /\ status s' = st
          /\ (executed s' = true
              <-> executed s = true \/ (st = "executed"%string /\ truthy_details d = true))
  end.
Proof.
  intro r. unfold r, update_signal_status. clear r.
  destruct (get_signal_by_id sid hist) as [s|] eqn:Eg; [|reflexivity].
  cbn [fst snd]. split; [reflexivity|]. split; [apply set_first_length|].
  split.
  - intros sid' Hne. rewrite SignalFacts.get_set_first by apply SignalFacts.apply_status_id.
    destruct (String.eqb_spec sid sid') as [E|_]; [congruence | reflexivity].
  - exists (apply_status st d now s).
    rewrite SignalFacts.get_set_first by apply SignalFacts.apply_status_id.
    rewrite String.eqb_refl, Eg. split; [reflexivity|]. split; [reflexivity|].
    split; [reflexivity|]. unfold apply_status. cbn [executed].
    destruct (String.eqb_spec st "executed") as [->|Hst]; cbn [andb];
      destruct (truthy_details d), (executed s); cbn; intuition congruence.
Qed.

(** [get_signal_history limit] returns a suffix of the history: the last
    [min(limit, len)] signals for a positive limit, the whole history for
    [limit = 0] (Python's [xs[-0:]]), and all but the first [-limit]
    signals for a negative limit. *)
Theorem get_signal_history_spec (limit : Z) (hist : list CandidateSignal) :
  let r := get_signal_history limit hist in
  (exists pre, hist = pre ++ r)
  /\ ((0 < limit)%Z -> List.length r = Nat.min (Z.to_nat limit) (List.length hist))
  /\ (limit = 0%Z -> r = hist)
  /\ ((limit < 0)%Z -> List.length r = (List.length hist - Z.to_nat (- limit))%nat).
Proof.
  intro r. unfold r, get_signal_history. clear r.
  destruct hist as [|x t]; [split; [exists []; reflexivity | repeat split; intros; simpl; lia]|].
  set (l := x :: t). split.
  - exists (firstn (slice_start (- limit) (List.length l)) l). symmetry. apply firstn_skipn.
  - rewrite length_skipn. unfold slice_start.
    split; [|split]; intro H.
    + assert (E : (- limit <? 0)%Z = true) by (apply Z.ltb_lt; lia). rewrite E. lia.
    + subst limit. simpl. reflexivity.
    + assert (E : (- limit <? 0)%Z = false) by (apply Z.ltb_ge; lia). rewrite E. lia.
Qed.

(** With analysis strength and success probability and prediction
    confidence in [[0, 100]], the blended strength and success probability
    of [_combine_signals] are in [[0, 100]] too. *)
Theorem combine_signals_bounds an pr
  (Hs : 0 <= a_strength an <= 100)
  (Hp : 0 <= a_success_probability an <= 100)
  (Hc : 0 <= confidence pr <= 100) :
  0 <= c_strength (combine_signals an pr) <= 100
  /\ 0 <= c_success_probability (combine_signals an pr) <= 100.
Proof.
  unfold combine_signals.
  repeat match goal with |- context [if ?b then _ else _] => destruct b end;
    cbn [c_strength c_success_probability];
    repeat match goal with |- context [py_max ?x ?y] =>
      destruct (pymax_cases x y) as [[-> ?]|[-> ?]] end;
    unfold Qdiv; change (Qinv 2) with (1 # 2); split; split; lra.
Qed.

Lemma calculate_sl_tp_default_rr_witness :
  let cfg := SignalScenarios.default_signal_settings in
  let r := calculate_sl_tp cfg "EURUSD" "buy" (11 # 10) SignalScenarios.buy_analysis None in
  calculate_risk_reward "buy" (11 # 10) (fst r) (snd r) == 2.
Proof.
  intros cfg r. unfold r.
  assert (H1 : 0 < default_stop_loss_pips cfg) by reflexivity.
  assert (H2 : "buy"%string = "buy"%string \/ "buy"%string = "sell"%string) by (left; reflexivity).
  rewrite (calculate_sl_tp_default_rr cfg "EURUSD" "buy" (11 # 10) SignalScenarios.buy_analysis H1 H2).
  reflexivity.
Defined.

Lemma combine_signals_bounds_witness :
  0 <= c_strength (combine_signals (summary SignalScenarios.buy_analysis)
                     SignalScenarios.buy_prediction) <= 100.
Proof.
  assert (H1 : 0 <= a_strength (summary SignalScenarios.buy_analysis) <= 100)
    by (split; discriminate).
  assert (H2 : 0 <= a_success_probability (summary SignalScenarios.buy_analysis) <= 100)
    by (split; discriminate).
  assert (H3 : 0 <= confidence SignalScenarios.buy_prediction <= 100) by (split; discriminate).
  exact (proj1 (combine_signals_bounds _ _ H1 H2 H3)).
Defined.

End SignalExtras.

Module UtilsFacts.
Import Aggregator Risk PyFacts Utils News.

Lemma pip_factor_pos sym : 0 < pip_factor sym.
Proof. unfold pip_factor. destruct (ends_with "JPY" sym); reflexivity. Qed.

(** Converting a price difference to pips and back, or pips to a price and
    back, gives the starting value again, for every symbol. *)
Theorem pips_round_trip (symbol : string) (base p pips : Q) :
  calculate_price_from_pips symbol (calculate_pips symbol (p - base)) base == p
  /\ calculate_pips symbol (calculate_price_from_pips symbol pips base - base) == pips.
Proof.
  unfold calculate_price_from_pips, calculate_pips.
  pose proof (pip_factor_pos symbol) as H.
  assert (Hn : ~ pip_factor symbol == 0) by (intro E; rewrite E in H; discriminate).
  split; field; exact Hn.
Qed.

Lemma mean_nonneg k xs : Forall (fun x => 0 <= x) xs -> 0 <= mean k xs.
Proof.
  intro H. unfold mean.
  assert (0 <= sumQ xs).
  { induction H as [|x t Hx _ IH]; simpl; [apply Qle_refl | lra]. }
  unfold Qdiv. apply Qmult_le_0_compat; [exact H0|].
  apply Qinv_le_0_compat. change 0 with (inject_Z 0). rewrite <- Zle_Qle. lia.
Qed.

(** [calculate_lot_size] returns at least 0.01, a whole number of
    hundredths; with positive stop and pip value it is the raw size
    [risk / (stop_loss_pips * value_per_pip)] rounded down to 0.01, raised
    to 0.01 when below. *)
Theorem calculate_lot_size_spec bal rp slp pv :
  let lot := calculate_lot_size bal rp slp pv in
  1 # 100 <= lot /\ (exists z, lot == inject_Z z / 100)
  /\ (0 < slp -> 0 < pv ->
      let raw := bal * (rp / 100) / (slp * pv) in
      raw - (1 # 100) < lot /\ lot <= py_max (1 # 100) raw).
Proof.
  intro lot. unfold lot, calculate_lot_size. clear lot.
  destruct (Qle_bool slp 0 || Qle_bool pv 0) eqn:E.
  - split; [apply Qle_refl|]. split; [exists 1%Z; reflexivity|].
    intros H1 H2. exfalso. apply orb_true_iff in E as [E|E]; apply Qle_bool_iff in E; lra.
  - set (raw := bal * (rp / 100) / (slp * pv)).
    pose proof (Qfloor_le (raw * 100)) as F1.
    pose proof (Qlt_floor (raw * 100)) as F2.
    rewrite inject_Z_plus in F2. change (inject_Z 1) with 1 in F2.
    set (z := Qfloor (raw * 100)) in *.
    destruct (qlt (inject_Z z / 100) (1 # 100)) eqn:Q1.
    + apply qlt_spec in Q1.
      split; [apply Qle_refl|]. split; [exists 1%Z; reflexivity|].
      intros _ _. cbv zeta. split.
      * assert (inject_Z z < 1).
        { apply Qmult_lt_r with (z := 1 # 100); [reflexivity|].
          setoid_replace (inject_Z z * (1 # 100)) with (inject_Z z / 100) by field. exact Q1. }
        assert (Hz : (z <= 0)%Z).
        { apply Z.lt_succ_r. change (Z.succ 0) with 1%Z. rewrite Zlt_Qlt. exact H. }
        assert (inject_Z z <= 0) by (change 0 with (inject_Z 0); rewrite <- Zle_Qle; exact Hz).
        lra.
      * apply pymax_ge_l.
    + apply qlt_spec_false in Q1.
      split; [exact Q1|]. split; [exists z; reflexivity|].
      intros _ _. cbv zeta. split.
      * setoid_replace (inject_Z z / 100) with (inject_Z z * (1 # 100)) by field. lra.
      * eapply Qle_trans; [|apply pymax_ge_r].
        setoid_replace (inject_Z z / 100) with (inject_Z z * (1 # 100)) by field. lra.
Qed.

(** [calculate_risk_reward_ratio] never returns [float('inf')]: the
    zero-risk case is caught by the equality test first. The ratio is
    never negative. *)
Theorem calculate_risk_reward_ratio_finite entry sl tp :
  exists q, calculate_risk_reward_ratio entry sl tp = Finite q /\ 0 <= q.
Proof.
  unfold calculate_risk_reward_ratio.
  destruct (Qeq_bool sl entry) eqn:E; [exists 0; split; [reflexivity | apply Qle_refl]|].
  assert (Hne : ~ Qabs (entry - sl) == 0).
  { intro H. apply Qabs_case with (x := entry - sl) (P := fun y => ~ y == 0) in H; [exact H | |];
      clear H; intros _ H; apply Qeq_bool_neq in E; apply E; lra. }
  destruct (qlt entry tp);
    (rewrite (proj2 (Qeq_bool_false _ _) Hne) || (destruct (Qeq_bool (Qabs (entry - sl)) 0) eqn:E2;
       [apply Qeq_bool_iff in E2; contradiction|]));
    eexists; (split; [reflexivity|]);
    apply Qle_shift_div_l; try (pose proof (Qabs_nonneg (entry - sl)); lra);
    rewrite Qmult_0_l; apply Qabs_nonneg.
Qed.

Lemma true_ranges_length prev bars : List.length (true_ranges prev bars) = List.length bars.
Proof.
  revert prev. induction bars as [|b t IH]; intro prev; simpl; [reflexivity | rewrite IH; reflexivity].
Qed.

Lemma true_ranges_ge prev bars :
  Forall2 (fun tr b => PriceAction.high b - PriceAction.low b <= tr) (true_ranges prev bars) bars.
Proof.
  revert prev. induction bars as [|b t IH]; intro prev; simpl; constructor; [|apply IH].
  destruct prev as [pc|]; [|apply Qle_refl].
  eapply Qle_trans; [|apply Q.le_max_l]. apply Q.le_max_l.
Qed.

Lemma Forall2_skipn {A B} (R : A -> B -> Prop) k l1 l2 :
  Forall2 R l1 l2 -> Forall2 R (skipn k l1) (skipn k l2).
Proof.
  revert l1 l2. induction k as [|k IH]; intros l1 l2 H; [exact H|].
  destruct H; simpl; [constructor | apply IH; exact H0].
Qed.

Lemma sumQ_Forall2_le {B} (f : B -> Q) xs (bs : list B) :
  Forall2 (fun x b => f b <= x) xs bs -> sumQ (map f bs) <= sumQ xs.
Proof. induction 1; simpl; [apply Qle_refl | lra]. Qed.

Lemma mean_le k xs ys : sumQ xs <= sumQ ys -> mean k xs <= mean k ys.
Proof.
  intro H. unfold mean, Qdiv. apply Qmult_le_compat_r; [exact H|].
  apply Qinv_le_0_compat. change 0 with (inject_Z 0). rewrite <- Zle_Qle. lia.
Qed.

(** Once the series has [period >= 1] bars, [calculate_atr] is at least the
    mean bar range (high - low) of the last [period] bars, whatever the bars
    are; that mean is not negative when every bar has [low <= high]. *)
Theorem calculate_atr_bounds (bars : list PriceAction.Bar) (period : nat)
  (Hp : (1 <= period)%nat)
  (Hlen : (period <= List.length bars)%nat) :
  let avg_range := mean period (lastn period
                     (map (fun b => PriceAction.high b - PriceAction.low b) bars)) in
  avg_range <= calculate_atr bars period
  /\ (Forall (fun b => PriceAction.low b <= PriceAction.high b) bars -> 0 <= avg_range).
Proof.
  intro avg_range. unfold avg_range, lastn. clear avg_range.
  rewrite length_map, skipn_map. split.
  2:{ intro Hvalid. apply mean_nonneg. apply Forall_forall. intros x Hx.
    apply in_map_iff in Hx as [b [<- Hb]].
    assert (Hb' : In b bars).
    { rewrite <- (firstn_skipn (List.length bars - period) bars).
      apply in_or_app. right. exact Hb. }
    rewrite Forall_forall in Hvalid. specialize (Hvalid b Hb'). lra. }
  - unfold calculate_atr.
    assert (E : Nat.ltb (List.length bars) period = false) by (apply Nat.ltb_ge; exact Hlen).
    rewrite E. apply mean_le. unfold lastn. rewrite true_ranges_length.
    apply sumQ_Forall2_le. apply Forall2_skipn. apply true_ranges_ge.
Qed.

Lemma sumQ_map_nonneg {A} (f : A -> Q) l : (forall x, 0 <= f x) -> 0 <= sumQ (map f l).
Proof.
  intro H. induction l as [|x t IH]; simpl; [apply Qle_refl|]. pose proof (H x). lra.
Qed.

(** For a window [period >= 1], [calculate_rsi] lies in [[0, 100]]. *)
Theorem calculate_rsi_bounds (closes : list Q) (period : nat) (Hp : (1 <= period)%nat) :
  0 <= calculate_rsi closes period <= 100.
Proof.
  unfold calculate_rsi.
  destruct (Nat.ltb (List.length closes) (period + 1)); [split; discriminate|].
  set (w := lastn period (diffs closes)).
  assert (Hg : 0 <= mean period (map (fun d => if qlt 0 d then d else 0) w)).
  { apply mean_nonneg. apply Forall_forall. intros x Hx. apply in_map_iff in Hx as [d [<- _]].
    destruct (qlt 0 d) eqn:E; [apply qlt_spec in E; lra | apply Qle_refl]. }
  assert (Hl : 0 <= mean period (map (fun d => - (if qlt d 0 then d else 0)) w)).
  { apply mean_nonneg. apply Forall_forall. intros x Hx. apply in_map_iff in Hx as [d [<- _]].
    destruct (qlt d 0) eqn:E; [apply qlt_spec in E; lra | lra]. }
  set (g := mean period (map (fun d => if qlt 0 d then d else 0) w)) in *.
  set (l := mean period (map (fun d => - (if qlt d 0 then d else 0)) w)) in *.
  destruct (Qeq_bool l 0) eqn:E; [split; discriminate|].
  apply Qeq_bool_neq in E.
  assert (Hlp : 0 < l) by (apply Qle_lteq in Hl as [Hl|Hl]; [exact Hl | symmetry in Hl; contradiction]).
  assert (Hrs : 0 <= g / l) by (apply Qle_shift_div_l; [exact Hlp | lra]).
  assert (H1 : 0 < 1 + g / l) by lra.
  assert (Hd : 0 <= 100 / (1 + g / l)) by (apply Qle_shift_div_l; [exact H1 | lra]).
  assert (Hd2 : 100 / (1 + g / l) <= 100).
  { apply Qle_shift_div_r; [exact H1|]. nra. }
  cbv zeta. split; lra.
Qed.

(** [_extract_currencies] returns at most two codes, all from the known
    list, and none for a symbol that is neither six characters long nor a
    metal (XAU, XAG) symbol. *)
Theorem extract_currencies_known (symbol : string) :
  (List.length (extract_currencies symbol) <= 2)%nat
  /\ Forall (fun c => is_known c = true) (extract_currencies symbol)
  /\ (String.length symbol <> 6%nat -> String.prefix "XAU" symbol = false ->
      String.prefix "XAG" symbol = false -> extract_currencies symbol = []).
Proof.
  unfold extract_currencies. split; [|split].
  - destruct (Nat.eqb _ 6); [|destruct (String.prefix "XAU" symbol || String.prefix "XAG" symbol);
      [destruct (String.prefix "XAU" symbol)|]];
    repeat match goal with |- context [if is_known ?c then _ else _] => destruct (is_known c) end;
    simpl; lia.
  - destruct (Nat.eqb _ 6); [|destruct (String.prefix "XAU" symbol || String.prefix "XAG" symbol);
      [destruct (String.prefix "XAU" symbol)|]];
    repeat match goal with |- context [if is_known ?c then _ else _] => destruct (is_known c) eqn:? end;
    simpl; repeat constructor; assumption.
  - intros H1 H2 H3. apply Nat.eqb_neq in H1. rewrite H1, H2, H3. reflexivity.
Qed.

Lemma calculate_atr_bounds_witness :
  0 <= calculate_atr PAScenarios.alternating_bars 3.
Proof.
  assert (H1 : (1 <= 3)%nat) by lia.
  assert (H2 : (3 <= List.length PAScenarios.alternating_bars)%nat) by (vm_compute; lia).
  assert (H3 : Forall (fun b => PriceAction.low b <= PriceAction.high b)
                 PAScenarios.alternating_bars) by (repeat constructor; discriminate).
  destruct (calculate_atr_bounds _ _ H1 H2) as [B A].
  exact (Qle_trans _ _ _ (A H3) B).
Defined.

Lemma calculate_rsi_bounds_witness :
  0 <= calculate_rsi [1; 2; 3; 2; 4] 3 <= 100.
Proof.
  assert (H : (1 <= 3)%nat) by lia.
  exact (calculate_rsi_bounds [1; 2; 3; 2; 4] 3 H).
Defined.

End UtilsFacts.

Module PAExtras.
Import Aggregator PriceAction Pivots PyFacts.

Lemma insert_desc_perm p l : Permutation (insert_desc p l) (p :: l).
Proof.
  induction l as [|q l IH]; cbn [insert_desc]; [auto|].
  destruct (qlt (cp_strength q) (cp_strength p)); [auto|].
  eapply perm_trans; [apply perm_skip, IH | apply perm_swap].
Qed.

Lemma sort_desc_perm l : Permutation (sort_desc l) l.
Proof.
  unfold sort_desc.
  assert (G : forall acc, Permutation (fold_left (fun acc p => insert_desc p acc) l acc) (l ++ acc)).
  { induction l as [|a l IH]; intros acc; cbn [fold_left app]; [auto|].
    eapply perm_trans; [apply IH|].
    eapply perm_trans; [apply Permutation_app_head, insert_desc_perm|].
    apply Permutation_sym, Permutation_middle. }
  rewrite <- (app_nil_r l) at 2. apply G.
Qed.

Lemma insert_desc_hd x p l :
  HdRel (fun a b : CandlePattern => cp_strength b <= cp_strength a) x l -> (fun a b : CandlePattern => cp_strength b <= cp_strength a) x p -> HdRel (fun a b : CandlePattern => cp_strength b <= cp_strength a) x (insert_desc p l).
Proof.
  intros Hh Hp; destruct l as [|q l]; cbn [insert_desc].
  - constructor; exact Hp.
  - destruct (qlt (cp_strength q) (cp_strength p)); constructor; [exact Hp|].
    inversion Hh; assumption.
Qed.

Lemma insert_desc_sorted p l : Sorted (fun a b : CandlePattern => cp_strength b <= cp_strength a) l -> Sorted (fun a b : CandlePattern => cp_strength b <= cp_strength a) (insert_desc p l).
Proof.
  induction l as [|q l IH]; intros Hs; cbn [insert_desc].
  - repeat constructor.
  - case_eq (qlt (cp_strength q) (cp_strength p)); intros Hq.
    + constructor; [exact Hs|]. constructor. apply qlt_spec in Hq. cbv beta. lra.
    + inversion Hs; subst. constructor; [apply IH; assumption|].
      apply insert_desc_hd; [assumption|].
      apply qlt_spec_false in Hq. exact Hq.
Qed.

Lemma sort_desc_sorted l : Sorted (fun a b : CandlePattern => cp_strength b <= cp_strength a) (sort_desc l).
Proof.
  unfold sort_desc.
  assert (G : forall acc, Sorted (fun a b : CandlePattern => cp_strength b <= cp_strength a) acc ->
            Sorted (fun a b : CandlePattern => cp_strength b <= cp_strength a) (fold_left (fun acc p => insert_desc p acc) l acc)).
  { induction l as [|a l IH]; intros acc Ha; cbn [fold_left]; [exact Ha|].
    apply IH, insert_desc_sorted, Ha. }
  apply G. constructor.
Qed.

Lemma single_pattern_spec idx c :
  (List.length (single_pattern idx c) <= 1)%nat /\
  Forall (fun p => cp_index p = idx /\ 50 <= cp_strength p <= 90) (single_pattern idx c).
Proof.
  unfold single_pattern.
  repeat match goal with |- context [if ?b then _ else _] => destruct b end;
  (split; [cbn; lia | repeat constructor; cbn; lra]).
Qed.

Lemma pair_pattern_spec idx p c :
  (List.length (pair_pattern idx p c) <= 1)%nat /\
  Forall (fun q => cp_index q = idx /\ 50 <= cp_strength q <= 90) (pair_pattern idx p c).
Proof.
  unfold pair_pattern.
  repeat match goal with |- context [if ?b then _ else _] => destruct b end;
  (split; [cbn; lia | repeat constructor; cbn; lra]).
Qed.

Lemma length_flat_map_le {A B} (f : A -> list B) k l :
  (forall x, List.length (f x) <= k)%nat -> (List.length (flat_map f l) <= k * List.length l)%nat.
Proof.
  intros Hf; induction l as [|a l IH]; cbn [flat_map List.length]; [lia|].
  rewrite length_app. specialize (Hf a). lia.
Qed.

(** [_identify_candle_patterns] reports nothing for fewer than 10 bars;
    otherwise at most 10 patterns (one single-candle and one two-candle
    pattern per bar), sorted by descending strength, each about one of the
    last five bars and with a strength between 50 and 90. *)
Theorem identify_candle_patterns_spec (df : list Bar) :
  let ps := identify_candle_patterns df in
  ((List.length df < 10)%nat -> ps = []) /\
  (List.length ps <= 10)%nat /\
  Sorted (fun a b : CandlePattern => cp_strength b <= cp_strength a) ps /\
  Forall (fun p => (List.length df - 5 <= cp_index p < List.length df)%nat /\
                   50 <= cp_strength p <= 90) ps.
Proof.
  cbv zeta. unfold identify_candle_patterns.
  destruct (Nat.ltb_spec (List.length df) 10) as [Hlt | Hge].
  { split; [reflexivity|]. split; [cbn; lia|]. split; constructor. }
  split; [lia|].
  set (one := fun idx : nat =>
        single_pattern idx (nth idx df dummy_bar) ++
        pair_pattern idx (nth (idx - 1) df dummy_bar) (nth idx df dummy_bar)).
  pose proof (sort_desc_perm (flat_map one (seq (List.length df - 5) 5))) as Hperm.
  split; [|split; [apply sort_desc_sorted|]].
  - rewrite (Permutation_length Hperm).
    assert (H := length_flat_map_le one 2 (seq (List.length df - 5) 5)).
    rewrite length_seq in H. apply Nat.le_trans with (2 * 5)%nat; [|lia].
    apply H. intros x. unfold one. rewrite length_app.
    destruct (single_pattern_spec x (nth x df dummy_bar)) as [H1 _].
    destruct (pair_pattern_spec x (nth (x - 1) df dummy_bar) (nth x df dummy_bar)) as [H2 _].
    lia.
  - apply Forall_forall. intros p Hp.
    apply (Permutation_in _ Hperm) in Hp.
    apply in_flat_map in Hp as [x [Hx Hp]].
    apply in_seq in Hx.
    unfold one in Hp. apply in_app_or in Hp as [Hp | Hp].
    + destruct (single_pattern_spec x (nth x df dummy_bar)) as [_ H1].
      rewrite Forall_forall in H1. destruct (H1 p Hp) as [-> Hs]. split; [lia | exact Hs].
    + destruct (pair_pattern_spec x (nth (x - 1) df dummy_bar) (nth x df dummy_bar)) as [_ H2].
      rewrite Forall_forall in H2. destruct (H2 p Hp) as [-> Hs]. split; [lia | exact Hs].
Qed.

(** [_calculate_pivot_points] leaves all four dictionaries empty for an
    empty frame; otherwise, when the last bar's close lies between its low
    and its high, the classic, Fibonacci and Woodie levels are each in
    ascending order [s3 <= s2 <= s1 <= pp <= r1 <= r2 <= r3], the Camarilla
    levels are ascending around the close, and the classic, Fibonacci and
    Camarilla dictionaries share the same pivot [pp]. *)
Theorem calculate_pivot_points_ordered (df : list Bar)
    (Hlow : low (last df dummy_bar) <= close (last df dummy_bar))
    (Hhigh : close (last df dummy_bar) <= high (last df dummy_bar)) :
  (df = [] -> calculate_pivot_points df = empty_results) /\
  (df <> [] ->
   exists c f w m,
     calculate_pivot_points df =
       {| classic := Some c; fibonacci := Some f; woodie := Some w; camarilla := Some m |} /\
     levels_ordered c /\ levels_ordered f /\ levels_ordered w /\
     camarilla_ordered (close (last df dummy_bar)) m /\
     pp f == pp c /\ cm_pp m == pp c).
Proof.
  split; [intros ->; reflexivity|].
  intros Hne. destruct df as [|b0 rest]; [congruence|].
  eexists _, _, _, _. split; [reflexivity|].
  unfold levels_ordered, camarilla_ordered; cbn [pp s1 s2 s3 r1 r2 r3 cm_pp cm_s1 cm_s2 cm_s3 cm_s4
    cm_r1 cm_r2 cm_r3 cm_r4].
  unfold Qdiv.
  change (/ 3) with (1 # 3). change (/ 4) with (1 # 4). change (/ 12) with (1 # 12).
  change (/ 6) with (1 # 6). change (/ 2) with (1 # 2).
  repeat split; try reflexivity; lra.
Qed.

Lemma calculate_pivot_points_ordered_witness :
  exists c f w m,
    calculate_pivot_points PAScenarios.alternating_bars =
      {| classic := Some c; fibonacci := Some f; woodie := Some w; camarilla := Some m |} /\
    levels_ordered c /\ levels_ordered f /\ levels_ordered w /\
    camarilla_ordered (close (last PAScenarios.alternating_bars dummy_bar)) m /\
    pp f == pp c /\ cm_pp m == pp c.
Proof.
  assert (H1 : low (last PAScenarios.alternating_bars dummy_bar)
               <= close (last PAScenarios.alternating_bars dummy_bar))
    by (vm_compute; discriminate).
  assert (H2 : close (last PAScenarios.alternating_bars dummy_bar)
               <= high (last PAScenarios.alternating_bars dummy_bar))
    by (vm_compute; discriminate).
  destruct (calculate_pivot_points_ordered _ H1 H2) as [_ H].
  apply H. discriminate.
Defined.


End PAExtras.

Module ICTExtras.
Import NumPy Levels Aggregator PriceAction ICT PyFacts.

Section SortBy.
Context {A K : Type} (lt : K -> K -> bool) (le : K -> K -> Prop) (ok : K -> Prop)
  (key : A -> K).
(** [lt] orders the keys that are [ok] (no NaN) totally. *)
Hypothesis lt_le : forall u v, lt u v = true -> le u v.
Hypothesis nlt_le : forall u v, ok u -> ok v -> lt u v = false -> le v u.

Lemma insert_by_perm x l : Permutation (insert_by lt key x l) (x :: l).
Proof.
  induction l as [|y l IH]; cbn [insert_by]; [auto|].
  destruct (lt (key y) (key x)); [auto|].
  eapply perm_trans; [apply perm_skip, IH | apply perm_swap].
Qed.

Lemma sort_by_desc_perm l : Permutation (sort_by_desc lt key l) l.
Proof.
  unfold sort_by_desc.
  assert (G : forall acc, Permutation (fold_left (fun acc x => insert_by lt key x acc) l acc) (l ++ acc)).
  { induction l as [|a l IH]; intros acc; cbn [fold_left app]; [auto|].
    eapply perm_trans; [apply IH|].
    eapply perm_trans; [apply Permutation_app_head, insert_by_perm|].
    apply Permutation_sym, Permutation_middle. }
  rewrite <- (app_nil_r l) at 2. apply G.
Qed.

Lemma insert_by_hd z x l :
  HdRel (fun a b => le (key b) (key a)) z l -> le (key x) (key z) ->
  HdRel (fun a b => le (key b) (key a)) z (insert_by lt key x l).
Proof.
  intros Hh Hx; destruct l as [|y l]; cbn [insert_by].
  - constructor; exact Hx.
  - destruct (lt (key y) (key x)); constructor; [exact Hx|].
    inversion Hh; assumption.
Qed.

Lemma insert_by_sorted x l :
  ok (key x) -> Forall (fun a => ok (key a)) l ->
  Sorted (fun a b => le (key b) (key a)) l ->
  Sorted (fun a b => le (key b) (key a)) (insert_by lt key x l).
Proof.
  intros Hx. induction l as [|y l IH]; intros Hok Hs; cbn [insert_by].
  - repeat constructor.
  - inversion Hok as [|? ? Hy Hl]; subst.
    case_eq (lt (key y) (key x)); intros Hq.
    + constructor; [exact Hs|]. constructor. apply lt_le, Hq.
    + inversion Hs; subst. constructor; [apply IH; assumption|].
      apply insert_by_hd; [assumption|].
      apply nlt_le; assumption.
Qed.

Lemma sort_by_desc_sorted l :
  Forall (fun a => ok (key a)) l ->
  Sorted (fun a b => le (key b) (key a)) (sort_by_desc lt key l).
Proof.
  unfold sort_by_desc. intros Hl.
  assert (G : forall acc, Forall (fun a => ok (key a)) acc ->
            Sorted (fun a b => le (key b) (key a)) acc ->
            Sorted (fun a b => le (key b) (key a))
              (fold_left (fun acc x => insert_by lt key x acc) l acc)).
  { induction l as [|a l IH]; intros acc Hacc Ha; cbn [fold_left]; [exact Ha|].
    inversion Hl; subst. apply IH; [assumption| |].
    - apply Forall_forall. intros z Hz.
      apply (Permutation_in _ (insert_by_perm a acc)) in Hz.
      destruct Hz as [<-|Hz]; [assumption|]. rewrite Forall_forall in Hacc. exact (Hacc z Hz).
    - apply insert_by_sorted; assumption. }
  apply G; constructor.
Qed.

Lemma sorted_firstn (R : A -> A -> Prop) k l : Sorted R l -> Sorted R (firstn k l).
Proof.
  revert l; induction k as [|k IH]; intros l Hs; [constructor|].
  destruct l as [|x l]; [constructor|]. cbn [firstn].
  inversion Hs; subst. constructor; [apply IH; assumption|].
  destruct k; [constructor|]. destruct l as [|y l]; [constructor|].
  cbn [firstn]. constructor. inversion H2; assumption.
Qed.

(** The top [k] of a stably sorted list: at most [k], sorted, and drawn
    from the input. *)
Lemma top_k_spec (P : A -> Prop) k l :
  Forall (fun a => ok (key a)) l -> Forall P l ->
  (List.length (firstn k (sort_by_desc lt key l)) <= k)%nat /\
  Sorted (fun a b => le (key b) (key a)) (firstn k (sort_by_desc lt key l)) /\
  Forall P (firstn k (sort_by_desc lt key l)).
Proof.
  intros Hok HP. split; [rewrite length_firstn; lia|].
  split; [apply sorted_firstn, sort_by_desc_sorted, Hok|].
  assert (HP' : Forall P (sort_by_desc lt key l)).
  { apply Forall_forall. intros x Hx.
    apply (Permutation_in _ (sort_by_desc_perm l)) in Hx.
    rewrite Forall_forall in HP. exact (HP x Hx). }
  rewrite <- (firstn_skipn k (sort_by_desc lt key l)) in HP'.
  apply Forall_app in HP' as [H _]. exact H.
Qed.
End SortBy.

Lemma true_forall {B} (l : list B) : Forall (fun _ => True) l.
Proof. apply Forall_forall. auto. Qed.

Lemma qlt_le_true u v : qlt u v = true -> u <= v.
Proof. intro H. apply qlt_spec in H. lra. Qed.

Lemma qlt_false_le u v : True -> True -> qlt u v = false -> v <= u.
Proof. intros _ _ H. apply qlt_spec_false in H. exact H. Qed.

Lemma np_lt_le u v : np_lt u v = true -> np_le u v = true.
Proof.
  destruct u, v; cbn [np_lt np_le]; try discriminate; try reflexivity.
  intro H. apply negb_true_iff in H. apply Qle_bool_iff. apply Qlt_le_weak, Qnot_le_lt.
  intro H'. apply Qle_bool_iff in H'. congruence.
Qed.

Lemma np_nlt_le u v : u <> NaN -> v <> NaN -> np_lt u v = false -> np_le v u = true.
Proof.
  destruct u, v; cbn [np_lt np_le]; intros Hu Hv H;
    try discriminate; try reflexivity; try (contradiction Hu; reflexivity);
    try (contradiction Hv; reflexivity).
  apply negb_false_iff in H. exact H.
Qed.

Lemma np_div_not_nan num den : ~ (num == 0 /\ den == 0) -> np_div num den <> NaN.
Proof.
  intros Hn. unfold np_div.
  destruct (Qeq_bool den 0) eqn:Ed; [|discriminate].
  apply Qeq_bool_iff in Ed.
  destruct (Qle_bool num 0) eqn:E1; cbn [negb]; [|discriminate].
  destruct (Qle_bool 0 num) eqn:E2; cbn [negb]; [|discriminate].
  apply Qle_bool_iff in E1, E2. exfalso. apply Hn. split; [lra | exact Ed].
Qed.

Lemma in_range a b i : In i (range a b) -> (a <= i < b)%nat.
Proof. unfold range. intros H. apply in_seq in H. lia. Qed.


Lemma first_some_some {B C} (f : B -> option C) l y :
  first_some f l = Some y -> exists x, In x l /\ f x = Some y.
Proof.
  induction l as [|x l IH]; cbn [first_some]; [discriminate|].
  destruct (f x) eqn:E.
  - intros [= <-]. exists x. split; [left; reflexivity | exact E].
  - intros H. destruct (IH H) as [z [Hz Hf]]. exists z. split; [right; exact Hz | exact Hf].
Qed.

Lemma equal_points_le sel i : (equal_points sel i <= 50)%nat.
Proof.
  unfold equal_points. eapply Nat.le_trans; [apply filter_length_le|].
  unfold range. rewrite length_seq. lia.
Qed.

Lemma liquidity_strength_bounds k : (k <= 50)%nat ->
  1 <= 1 + inject_Z (Z.of_nat k) * (2 # 10) <= 11.
Proof.
  intros Hk.
  assert (H0 : 0 <= inject_Z (Z.of_nat k)) by (change 0 with (inject_Z 0); rewrite <- Zle_Qle; lia).
  assert (H1 : inject_Z (Z.of_nat k) <= 50) by (change 50 with (inject_Z 50); rewrite <- Zle_Qle; lia).
  split; lra.
Qed.

Definition bull_block_ok (df : list Bar) (b : Block) : Prop :=
  bottom b = op df (blk_index b) /\ top b = cl df (blk_index b) /\
  bottom b < top b /\
  exists i, (blk_index b < i <= blk_index b + 3)%nat /\ (i < n df - 1)%nat /\
    cl df i < op df i /\ 2 * avg_range df < hi df i - lo df i /\
    hi df i < hi df (blk_index b) /\
    blk_strength b = np_div (hi df i - lo df i) (avg_range df).

Definition bear_block_ok (df : list Bar) (b : Block) : Prop :=
  top b = op df (blk_index b) /\ bottom b = cl df (blk_index b) /\
  bottom b < top b /\
  exists i, (blk_index b < i <= blk_index b + 3)%nat /\ (i < n df - 1)%nat /\
    op df i < cl df i /\ 2 * avg_range df < hi df i - lo df i /\
    lo df (blk_index b) < lo df i /\
    blk_strength b = np_div (hi df i - lo df i) (avg_range df).

Lemma order_blocks_found (df : list Bar) :
  let found := map (order_block_at df) (range 3 (n df - 1)) in
  Forall (bull_block_ok df) (flat_map fst found) /\ Forall (bear_block_ok df) (flat_map snd found).
Proof.
  intro found. split.
  - apply Forall_forall. intros x Hx. apply in_flat_map in Hx as [p [Hp Hx]].
    unfold found in Hp. apply in_map_iff in Hp as [i [<- Hi]]. apply in_range in Hi.
    unfold order_block_at in Hx.
    destruct (qlt (op df i) (cl df i) && qlt (2 * avg_range df) (hi df i - lo df i)) eqn:E1;
      [cbn [fst] in Hx; destruct Hx|].
    destruct (qlt (cl df i) (op df i) && qlt (2 * avg_range df) (hi df i - lo df i)) eqn:E2;
      [|cbn [fst] in Hx; destruct Hx].
    cbn [fst] in Hx. apply andb_true_iff in E2 as [E2 E3].
    destruct (first_some _ _) as [y|] eqn:Ef; [|destruct Hx].
    destruct Hx as [<-|[]].
    apply first_some_some in Ef as [j [Hj Hf]]. apply in_range in Hj.
    destruct (qlt (op df j) (cl df j) && qlt (hi df i) (hi df j)) eqn:E4; [|discriminate].
    injection Hf as <-. apply andb_true_iff in E4 as [E4 E5].
    unfold bull_block_ok. cbn [bottom top blk_index blk_strength].
    apply qlt_spec in E2, E3, E4, E5.
    split; [reflexivity|]. split; [reflexivity|]. split; [exact E4|].
    exists i. repeat split; try lia; try assumption.
  - apply Forall_forall. intros x Hx. apply in_flat_map in Hx as [p [Hp Hx]].
    unfold found in Hp. apply in_map_iff in Hp as [i [<- Hi]]. apply in_range in Hi.
    unfold order_block_at in Hx.
    destruct (qlt (op df i) (cl df i) && qlt (2 * avg_range df) (hi df i - lo df i)) eqn:E1.
    2:{ destruct (qlt (cl df i) (op df i) && qlt (2 * avg_range df) (hi df i - lo df i));
        cbn [snd] in Hx; destruct Hx. }
    cbn [snd] in Hx. apply andb_true_iff in E1 as [E1 E3].
    destruct (first_some _ _) as [y|] eqn:Ef; [|destruct Hx].
    destruct Hx as [<-|[]].
    apply first_some_some in Ef as [j [Hj Hf]]. apply in_range in Hj.
    destruct (qlt (cl df j) (op df j) && qlt (lo df j) (lo df i)) eqn:E4; [|discriminate].
    injection Hf as <-. apply andb_true_iff in E4 as [E4 E5].
    unfold bear_block_ok. cbn [bottom top blk_index blk_strength].
    apply qlt_spec in E1, E3, E4, E5.
    split; [reflexivity|]. split; [reflexivity|]. split; [exact E4|].
    exists i. repeat split; try lia; try assumption.
Qed.

Lemma block_strength_not_nan df b :
  (exists i, 2 * avg_range df < hi df i - lo df i
             /\ blk_strength b = np_div (hi df i - lo df i) (avg_range df)) ->
  blk_strength b <> NaN.
Proof.
  intros [i [H1 ->]]. apply np_div_not_nan. intros [H2 H3].
  rewrite H3 in H1. lra.
Qed.

Lemma bull_block_not_nan df b : bull_block_ok df b -> blk_strength b <> NaN.
Proof.
  intros [_ [_ [_ [i [_ [_ [_ [H1 [_ H2]]]]]]]]].
  apply (block_strength_not_nan df). exists i. split; assumption.
Qed.

Lemma bear_block_not_nan df b : bear_block_ok df b -> blk_strength b <> NaN.
Proof.
  intros [_ [_ [_ [i [_ [_ [_ [H1 [_ H2]]]]]]]]].
  apply (block_strength_not_nan df). exists i. split; assumption.
Qed.

Lemma find_order_blocks_forall (df : list Bar) :
  Forall (bull_block_ok df) (ob_bullish (find_order_blocks df)) /\
  Forall (bear_block_ok df) (ob_bearish (find_order_blocks df)) /\
  (List.length (ob_bullish (find_order_blocks df)) <= 3)%nat /\
  Sorted (fun a b => np_le (blk_strength b) (blk_strength a) = true)
    (ob_bullish (find_order_blocks df)) /\
  (List.length (ob_bearish (find_order_blocks df)) <= 3)%nat /\
  Sorted (fun a b => np_le (blk_strength b) (blk_strength a) = true)
    (ob_bearish (find_order_blocks df)).
Proof.
  unfold find_order_blocks.
  destruct (Nat.ltb (n df) 20).
  { cbn [ob_bullish ob_bearish List.length]. repeat split; try lia; constructor. }
  cbn [ob_bullish ob_bearish].
  destruct (order_blocks_found df) as [FA FB].
  destruct (top_k_spec np_lt (fun u v => np_le u v = true) (fun u => u <> NaN) blk_strength
              np_lt_le np_nlt_le (bull_block_ok df) 3
              (flat_map fst (map (order_block_at df) (range 3 (n df - 1))))) as [A1 [A2 A3]];
    [eapply Forall_impl; [|exact FA]; apply bull_block_not_nan | exact FA|].
  destruct (top_k_spec np_lt (fun u v => np_le u v = true) (fun u => u <> NaN) blk_strength
              np_lt_le np_nlt_le (bear_block_ok df) 3
              (flat_map snd (map (order_block_at df) (range 3 (n df - 1))))) as [B1 [B2 B3]];
    [eapply Forall_impl; [|exact FB]; apply bear_block_not_nan | exact FB|].
  repeat split; assumption.
Qed.

Lemma find_liquidity_levels_forall (df : list Bar) :
  Forall (fun l => swing_high df (lv_index l) = true /\ lv_price l = hi df (lv_index l) /\
                   lv_type l = "swing_high"%string /\ (5 <= lv_index l < n df - 5)%nat /\
                   (lv_equal_points l <= 50)%nat /\
                   lv_strength l = 1 + inject_Z (Z.of_nat (lv_equal_points l)) * (2 # 10) /\
                   1 <= lv_strength l <= 11) (sell_side (find_liquidity_levels df)) /\
  Forall (fun l => swing_low df (lv_index l) = true /\ lv_price l = lo df (lv_index l) /\
                   lv_type l = "swing_low"%string /\ (5 <= lv_index l < n df - 5)%nat /\
                   (lv_equal_points l <= 50)%nat /\
                   lv_strength l = 1 + inject_Z (Z.of_nat (lv_equal_points l)) * (2 # 10) /\
                   1 <= lv_strength l <= 11) (buy_side (find_liquidity_levels df)).
Proof.
  unfold find_liquidity_levels.
  destruct (Nat.ltb (n df) 30); [split; constructor|].
  cbn [sell_side buy_side].
  match goal with |- Forall ?P _ /\ Forall ?Q _ =>
    assert (HA := top_k_spec qlt Qle (fun _ => True) lv_strength qlt_le_true qlt_false_le P 5
      (map (liquidity_level (hi df) "swing_high") (filter (swing_high df) (range 5 (n df - 5))))
      (true_forall _));
    assert (HB := top_k_spec qlt Qle (fun _ => True) lv_strength qlt_le_true qlt_false_le Q 5
      (map (liquidity_level (lo df) "swing_low") (filter (swing_low df) (range 5 (n df - 5))))
      (true_forall _)) end.
  split; [apply HA | apply HB].
  - apply Forall_forall. intros x Hx. apply in_map_iff in Hx as [i [<- Hi]].
    apply filter_In in Hi as [Hi Hs]. apply in_range in Hi.
    unfold liquidity_level. cbn [lv_index lv_price lv_type lv_equal_points lv_strength].
    pose proof (equal_points_le (hi df) i).
    repeat split; try assumption; try reflexivity; try lia;
      apply liquidity_strength_bounds; assumption.
  - apply Forall_forall. intros x Hx. apply in_map_iff in Hx as [i [<- Hi]].
    apply filter_In in Hi as [Hi Hs]. apply in_range in Hi.
    unfold liquidity_level. cbn [lv_index lv_price lv_type lv_equal_points lv_strength].
    pose proof (equal_points_le (lo df) i).
    repeat split; try assumption; try reflexivity; try lia;
      apply liquidity_strength_bounds; assumption.
Qed.

Lemma find_liquidity_levels_shape (df : list Bar) :
  let liq := find_liquidity_levels df in
  (List.length (sell_side liq) <= 5)%nat /\
  Sorted (fun a b => lv_strength b <= lv_strength a) (sell_side liq) /\
  (List.length (buy_side liq) <= 5)%nat /\
  Sorted (fun a b => lv_strength b <= lv_strength a) (buy_side liq).
Proof.
  cbv zeta. unfold find_liquidity_levels.
  destruct (Nat.ltb (n df) 30).
  { cbn [sell_side buy_side List.length]. repeat split; try lia; constructor. }
  cbn [sell_side buy_side].
  destruct (top_k_spec qlt Qle (fun _ => True) lv_strength qlt_le_true qlt_false_le
      (fun _ => True) 5
      (map (liquidity_level (hi df) "swing_high") (filter (swing_high df) (range 5 (n df - 5))))
      (true_forall _) (true_forall _)) as [A1 [A2 _]].
  destruct (top_k_spec qlt Qle (fun _ => True) lv_strength qlt_le_true qlt_false_le
      (fun _ => True) 5
      (map (liquidity_level (lo df) "swing_low") (filter (swing_low df) (range 5 (n df - 5))))
      (true_forall _) (true_forall _)) as [B1 [B2 _]].
  repeat split; assumption.
Qed.


(** [_find_liquidity_levels] keeps at most five levels per side, in
    descending strength. A sell-side level is a swing high at a bar
    [5 <= i < len(df) - 5] (its high above the highs of the two bars on
    each side), priced at that high; a buy-side level is a swing low,
    priced at that low. Each counts at most 50 equal points and has
    strength [1 + 0.2 * equal_points], between 1 and 11. *)
Theorem find_liquidity_levels_spec (df : list Bar) :
  let liq := find_liquidity_levels df in
  (List.length (sell_side liq) <= 5)%nat /\
  Sorted (fun a b => lv_strength b <= lv_strength a) (sell_side liq) /\
  Forall (fun l => swing_high df (lv_index l) = true /\ lv_price l = hi df (lv_index l) /\
                   lv_type l = "swing_high"%string /\ (5 <= lv_index l < n df - 5)%nat /\
                   (lv_equal_points l <= 50)%nat /\
                   lv_strength l = 1 + inject_Z (Z.of_nat (lv_equal_points l)) * (2 # 10) /\
                   1 <= lv_strength l <= 11) (sell_side liq) /\
  (List.length (buy_side liq) <= 5)%nat /\
  Sorted (fun a b => lv_strength b <= lv_strength a) (buy_side liq) /\
  Forall (fun l => swing_low df (lv_index l) = true /\ lv_price l = lo df (lv_index l) /\
                   lv_type l = "swing_low"%string /\ (5 <= lv_index l < n df - 5)%nat /\
                   (lv_equal_points l <= 50)%nat /\
                   lv_strength l = 1 + inject_Z (Z.of_nat (lv_equal_points l)) * (2 # 10) /\
                   1 <= lv_strength l <= 11) (buy_side liq).
Proof.
  cbv zeta.
  destruct (find_liquidity_levels_shape df) as [A1 [A2 [B1 B2]]].
  destruct (find_liquidity_levels_forall df) as [A3 B3].
  repeat split; assumption.
Qed.

Lemma last_in {B} (l : list B) d : l <> [] -> In (last l d) l.
Proof.
  induction l as [|x l IH]; intros H; [contradiction H; reflexivity|].
  destruct l as [|y l]; [left; reflexivity|].
  right. apply IH. discriminate.
Qed.

Lemma merge_from_forall (P : Q -> Prop) t rest :
  (forall a b, P a -> P b -> P ((a + b) / 2)) ->
  forall last, P last -> Forall P rest -> Forall P (merge_from t last rest).
Proof.
  intros Havg. induction rest as [|l rest IH]; intros last Hl Hr; cbn [merge_from].
  - constructor; [exact Hl | constructor].
  - inversion Hr; subst. destruct (Levels.close t last l).
    + apply IH; [apply Havg|]; assumption.
    + constructor; [exact Hl|]. apply IH; assumption.
Qed.

Lemma merge_if_nonempty_forall (P : Q -> Prop) l :
  (forall a b, P a -> P b -> P ((a + b) / 2)) ->
  Forall P l -> Forall P (merge_if_nonempty l).
Proof.
  intros Havg Hl. unfold merge_if_nonempty.
  destruct l as [|x l']; [constructor|].
  unfold merge_levels, merge_close_levels.
  assert (Hs : Forall P (sort_levels (x :: l'))).
  { apply Forall_forall. intros z Hz. apply LevelsFacts.sort_in in Hz.
    rewrite Forall_forall in Hl. exact (Hl z Hz). }
  destruct (sort_levels (x :: l')) as [|f rest]; [constructor|].
  inversion Hs; subst. apply merge_from_forall; assumption.
Qed.

Lemma merge_if_nonempty_ascending l :
  Forall (fun x => 0 < x) l ->
  ascending (merge_if_nonempty l) /\ separated (5 # 10000) (merge_if_nonempty l).
Proof.
  intros Hl. unfold merge_if_nonempty.
  destruct l as [|x l']; [split; exact I|].
  unfold merge_levels, merge_close_levels.
  pose proof (LevelsFacts.sort_ascending (x :: l')) as Ha.
  assert (Hs : forall z, In z (sort_levels (x :: l')) -> 0 < z).
  { intros z Hz. apply LevelsFacts.sort_in in Hz.
    rewrite Forall_forall in Hl. exact (Hl z Hz). }
  destruct (sort_levels (x :: l')) as [|f rest]; [split; exact I|].
  destruct (LevelsFacts.merge_from_spec (5 # 10000) rest f) as [A [S _]];
    [apply Hs; left; reflexivity | exact Ha |].
  split; assumption.
Qed.

Lemma avg_lt_closed c : forall a b, 0 < a /\ a < c -> 0 < b /\ b < c ->
  0 < (a + b) / 2 /\ (a + b) / 2 < c.
Proof. intros a b Ha Hb. unfold Qdiv. change (/ 2) with (1 # 2). lra. Qed.

Lemma avg_gt_closed c : forall a b, c < a -> c < b -> c < (a + b) / 2.
Proof. intros a b Ha Hb. unfold Qdiv. change (/ 2) with (1 # 2). lra. Qed.

Lemma nodup_first_spec l : forall seen,
  NoDup (nodup_first seen l) /\ forall x, In x (nodup_first seen l) -> ~ In x seen.
Proof.
  induction l as [|y l IH]; intros seen; cbn [nodup_first].
  - split; [constructor | intros x []].
  - destruct (existsb (String.eqb y) seen) eqn:E; [apply IH|].
    destruct (IH (y :: seen)) as [Hn Hi]. split.
    + constructor; [|exact Hn]. intro H. apply (Hi y H). left; reflexivity.
    + intros x [<-|Hx].
      * intro Hs. assert (existsb (String.eqb y) seen = true)
          by (apply existsb_exists; exists y; split; [exact Hs | apply String.eqb_refl]).
        congruence.
      * intro Hs. apply (Hi x Hx). right; exact Hs.
Qed.

Lemma np_min_100_le x : np_le (np_min (Fin 100) x) (Fin 100) = true.
Proof.
  unfold np_min. destruct (np_lt x (Fin 100)) eqn:E; [apply np_lt_le, E | reflexivity].
Qed.

Lemma ict_generate_signal_range df liq ob fvg pats :
  let sg := ict_generate_signal df liq ob fvg pats in
  ((fst sg = "buy"%string \/ fst sg = "sell"%string) /\ np_le (snd sg) (Fin 100) = true)
  \/ (fst sg = "neutral"%string /\ snd sg = Fin 0).
Proof.
  cbv zeta. unfold ict_generate_signal. cbv zeta.
  match goal with |- context [if np_lt (np_add ?s (Fin 2)) ?b then _ else _] =>
    destruct (np_lt (np_add s (Fin 2)) b) end;
  [left; split; [left; reflexivity | apply np_min_100_le]|].
  match goal with |- context [if np_lt (np_add ?s (Fin 2)) ?b then _ else _] =>
    destruct (np_lt (np_add s (Fin 2)) b) end;
  [left; split; [right; reflexivity | apply np_min_100_le]|].
  right; split; reflexivity.
Qed.

Lemma row_pos df i :
  Forall (fun b => 0 < open b /\ 0 < high b /\ 0 < low b /\ 0 < close b) df ->
  (i < n df)%nat ->
  0 < op df i /\ 0 < hi df i /\ 0 < lo df i /\ 0 < cl df i.
Proof.
  intros Hpos Hi. rewrite Forall_forall in Hpos.
  exact (Hpos _ (nth_In df dummy_bar Hi)).
Qed.

(** [analyze] on a non-empty frame of positive prices (so that
    [_merge_levels] never divides by a zero level): every support level is
    below the last close and every resistance level above it, each list
    ascending with adjacent levels more than 0.05% apart; the patterns have
    no duplicates; and the signal is "buy" or "sell" with a strength of at
    most 100, or "neutral" with strength 0. *)
Theorem analyze_levels_and_signal (df : list Bar) (Hne : df <> [])
  (Hpos : Forall (fun b => 0 < open b /\ 0 < high b /\ 0 < low b /\ 0 < close b) df) :
  exists r, analyze df = inr r /\
    Forall (fun x => x < last_price df) (support_levels r) /\
    Forall (fun x => last_price df < x) (resistance_levels r) /\
    ascending (support_levels r) /\ separated (5 # 10000) (support_levels r) /\
    ascending (resistance_levels r) /\ separated (5 # 10000) (resistance_levels r) /\
    NoDup (ict_patterns r) /\
    (((ict_signal r = "buy"%string \/ ict_signal r = "sell"%string)
      /\ np_le (ict_strength r) (Fin 100) = true)
     \/ (ict_signal r = "neutral"%string /\ ict_strength r = Fin 0)).
Proof.
  destruct df as [|b0 rest] eqn:Edf; [contradiction Hne; reflexivity|].
  rewrite <- Edf in *. clear b0 rest Edf.
  eexists. split.
  { unfold analyze. destruct df; [contradiction Hne; reflexivity | reflexivity]. }
  cbn [support_levels resistance_levels ict_patterns ict_signal ict_strength].
  assert (Hlp : 0 < last_price df).
  { unfold last_price. rewrite Forall_forall in Hpos.
    apply (Hpos _ (last_in df dummy_bar Hne)). }
  destruct (find_order_blocks_forall df) as [OB1 [OB2 _]].
  destruct (find_liquidity_levels_forall df) as [LQ1 LQ2].
  unfold find_support_resistance. cbn [fst snd].
  set (lp := last_price df) in *.
  set (sup := map lv_price (filter (fun l => qlt (lv_price l) lp) (buy_side (find_liquidity_levels df)))
      ++ flat_map (fun b => if qlt (top b) lp then [top b; bottom b] else [])
           (ob_bullish (find_order_blocks df))).
  set (res := map lv_price (filter (fun l => qlt lp (lv_price l)) (sell_side (find_liquidity_levels df)))
      ++ flat_map (fun b => if qlt lp (bottom b) then [top b; bottom b] else [])
           (ob_bearish (find_order_blocks df))).
  assert (Hsup : Forall (fun x => 0 < x /\ x < lp) sup).
  { apply Forall_app. split.
    - apply Forall_forall. intros x Hx. apply in_map_iff in Hx as [l [<- Hl]].
      apply filter_In in Hl as [Hl Hq]. apply qlt_spec in Hq. split; [|exact Hq].
      rewrite Forall_forall in LQ2. destruct (LQ2 l Hl) as [_ [-> [_ [Hi _]]]].
      apply (row_pos df (lv_index l) Hpos). unfold n in *; lia.
    - apply Forall_forall. intros x Hx. apply in_flat_map in Hx as [b [Hb Hx]].
      rewrite Forall_forall in OB1. destruct (OB1 b Hb) as [Hbot [Htop [Hlt [i [Hi [Hn _]]]]]].
      destruct (qlt (top b) lp) eqn:Eq; [|destruct Hx]. apply qlt_spec in Eq.
      destruct (row_pos df (blk_index b) Hpos) as [P1 [_ [_ P4]]]; [unfold n in *; lia|].
      destruct Hx as [<-|[<-|[]]]; split; try lra.
      + rewrite Htop. exact P4.
      + rewrite Hbot. exact P1. }
  assert (Hres : Forall (fun x => lp < x) res).
  { apply Forall_app. split.
    - apply Forall_forall. intros x Hx. apply in_map_iff in Hx as [l [<- Hl]].
      apply filter_In in Hl as [_ Hq]. apply qlt_spec in Hq. exact Hq.
    - apply Forall_forall. intros x Hx. apply in_flat_map in Hx as [b [Hb Hx]].
      rewrite Forall_forall in OB2. destruct (OB2 b Hb) as [_ [_ [Hlt _]]].
      destruct (qlt lp (bottom b)) eqn:Eq; [|destruct Hx]. apply qlt_spec in Eq.
      destruct Hx as [<-|[<-|[]]]; lra. }
  assert (Hsup' := merge_if_nonempty_forall _ sup (avg_lt_closed lp) Hsup).
  assert (Hres' := merge_if_nonempty_forall _ res (avg_gt_closed lp) Hres).
  destruct (merge_if_nonempty_ascending sup) as [SA SS].
  { eapply Forall_impl; [|exact Hsup]. intros x [Hx _]. exact Hx. }
  destruct (merge_if_nonempty_ascending res) as [RA RS].
  { eapply Forall_impl; [|exact Hres]. intros x Hx. cbv beta in Hx. lra. }
  split; [eapply Forall_impl; [|exact Hsup']; intros x [_ Hx]; exact Hx|].
  split; [exact Hres'|].
  split; [exact SA|]. split; [exact SS|]. split; [exact RA|]. split; [exact RS|].
  split; [apply nodup_first_spec|].
  apply ict_generate_signal_range.
Qed.

Lemma analyze_levels_and_signal_witness :
  exists r, analyze ICTScenarios.gap_bars = inr r /\
    Forall (fun x => x < last_price ICTScenarios.gap_bars) (support_levels r) /\
    Forall (fun x => last_price ICTScenarios.gap_bars < x) (resistance_levels r) /\
    ascending (support_levels r) /\ separated (5 # 10000) (support_levels r) /\
    ascending (resistance_levels r) /\ separated (5 # 10000) (resistance_levels r) /\
    NoDup (ict_patterns r) /\
    (((ict_signal r = "buy"%string \/ ict_signal r = "sell"%string)
      /\ np_le (ict_strength r) (Fin 100) = true)
     \/ (ict_signal r = "neutral"%string /\ ict_strength r = Fin 0)).
Proof.
  assert (H1 : ICTScenarios.gap_bars <> []) by discriminate.
  assert (H2 : Forall (fun b => 0 < open b /\ 0 < high b /\ 0 < low b /\ 0 < close b)
                 ICTScenarios.gap_bars) by (repeat constructor).
  exact (analyze_levels_and_signal _ H1 H2).
Defined.

End ICTExtras.
